(** * xmlrpc-for-astro: the batched, rate-limited XML-RPC pinger (src/index.ts)

    A shallow embedding of the Cloudflare Worker of src/index.ts:
    - JavaScript numbers as rationals extended with NaN and the two
      infinities; the handlers add exactly, which is what the engine
      computes on integers below 2^53, and [JS64] has the rounding to
      binary64 and the slice computation with rounded sums ([plan64]); the
      sign of zero is not modelled;
    - strings as sequences of characters below 256;
    - the body of a request as the value [safeJson] returns for it: [null],
      or the fields of a payload;
    - the KV namespace as a finite map from keys to values with an expiry;
    - the asynchronous handlers as state-passing programs over a world that
      holds the KV store, the clock and the trace of effects performed: each
      [await] is a sequencing point;
    - the worker pool of [runPool] as a machine driven by the order in which
      the network completes the requests in flight.

    Not modelled: the NDJSON serialisation and the markup of the health
    page (the CSV exporter, the escaping and the data of the health page
    are), and the exceptions a malformed stored or configured JSON text
    would raise. *)

From Stdlib Require Import ZArith QArith Qround Qpower Lia Lqa List Ascii String.
From stdpp Require Import base option list gmap strings pretty.

Local Open Scope Z_scope.

(** ** JavaScript numbers *)
Module JS.

Inductive num : Type :=
| NaN
| NegInf
| PosInf
| Fin (q : Q).

Definition of_Z (z : Z) : num := Fin (inject_Z z).
Definition of_nat (n : nat) : num := of_Z (Z.of_nat n).

Definition Qltb (x y : Q) : bool := negb (Qle_bool y x).

(** [a < b]; false as soon as one side is NaN. *)
Definition ltb (a b : num) : bool :=
match a, b with
| NaN, _ | _, NaN => false
| _, NegInf => false
| NegInf, _ => true
| PosInf, _ => false
| Fin _, PosInf => true
| Fin x, Fin y => Qltb x y
end.

(** [a <= b]; false as soon as one side is NaN. *)
Definition leb (a b : num) : bool :=
match a, b with
| NaN, _ | _, NaN => false
| NegInf, _ => true
| _, PosInf => true
| _, NegInf => false
| PosInf, _ => false
| Fin x, Fin y => Qle_bool x y
end.

Definition gtb (a b : num) : bool := ltb b a.

Definition is_nan (a : num) : bool :=
match a with NaN => true | _ => false end.

(** [Math.max(a, b)] and [Math.min(a, b)]: NaN if either argument is. *)
Definition Math_max (a b : num) : num :=
if is_nan a || is_nan b then NaN else if ltb a b then b else a.

Definition Math_min (a b : num) : num :=
if is_nan a || is_nan b then NaN else if ltb b a then b else a.

(** [a + b] *)
Definition add (a b : num) : num :=
match a, b with
| NaN, _ | _, NaN => NaN
| PosInf, NegInf | NegInf, PosInf => NaN
| PosInf, _ | _, PosInf => PosInf
| NegInf, _ | _, NegInf => NegInf
| Fin x, Fin y => Fin (x + y)
end.

(** Truncation towards zero. *)
Definition Qtrunc (q : Q) : Z := Z.quot (Qnum q) (Z.pos (Qden q)).

(** The index an [Array.prototype.slice] argument denotes in an array
  of [len] elements: ToIntegerOrInfinity, then a negative value counts
  from the end, and the result is kept within [0, len]. *)
Definition slice_index (len : nat) (a : num) : nat :=
match a with
| NaN => 0%nat
| NegInf => 0%nat
| PosInf => len
| Fin q =>
    let k := Qtrunc q in
    if k <? 0 then Z.to_nat (Z.max (Z.of_nat len + k) 0)
    else Z.to_nat (Z.min k (Z.of_nat len))
end.

(** [items.slice(start, end)] *)
Definition slice {A} (l : list A) (start stop : num) : list A :=
let k := slice_index (length l) start in
let final := slice_index (length l) stop in
take (final - k) (drop k l).

(** ToLength, as [Array.from({ length })] applies it. *)
Definition to_length (a : num) : nat :=
match a with
| NaN | NegInf => 0%nat
| PosInf => Z.to_nat (2 ^ 53 - 1)
| Fin q => Z.to_nat (Z.min (Z.max (Qtrunc q) 0) (2 ^ 53 - 1))
end.

(** *** [Number(string)] on the StringNumericLiteral grammar

  The value of the literal is kept exact: it is the Number the engine
  holds when that value is a binary64 number, as every integer below 2^53
  is.  [JS64.Number] rounds it to the Number the engine holds in every
  case: the nearest binary64 number, an infinity from 2^1024 on. *)

(** The white space [Number] trims, among the characters below 256: TAB, LF,
  VT, FF, CR, the space and the no-break space. *)
Definition is_space (c : ascii) : bool :=
let n := nat_of_ascii c in
((9 <=? n) && (n <=? 13))%nat || (n =? 32)%nat || (n =? 160)%nat.

Fixpoint trim_left (s : list ascii) : list ascii :=
match s with
| c :: r => if is_space c then trim_left r else s
| [] => []
end.

Definition trim (s : list ascii) : list ascii :=
rev (trim_left (rev (trim_left s))).

Definition digit_val (c : ascii) : option Z :=
let n := nat_of_ascii c in
if ((48 <=? n) && (n <=? 57))%nat then Some (Z.of_nat n - 48)
else if ((97 <=? n) && (n <=? 102))%nat then Some (Z.of_nat n - 87)
else if ((65 <=? n) && (n <=? 70))%nat then Some (Z.of_nat n - 55)
else None.

(** All of [s] as digits in [base], most significant first; [None] if [s] is
  empty or holds anything else. *)
Fixpoint digits_from (base : Z) (acc : Z) (s : list ascii) : option Z :=
match s with
| [] => Some acc
| c :: r =>
    match digit_val c with
    | Some d => if d <? base then digits_from base (acc * base + d) r else None
    | None => None
    end
end.

Definition digits (base : Z) (s : list ascii) : option Z :=
match s with [] => None | _ => digits_from base 0 s end.

(** The longest prefix of decimal digits, and the rest. *)
Fixpoint span_digits (s : list ascii) : list ascii * list ascii :=
match s with
| c :: r =>
    match digit_val c with
    | Some d =>
        if d <? 10 then let '(ds, rest) := span_digits r in (c :: ds, rest)
        else ([], s)
    | None => ([], s)
    end
| [] => ([], [])
end.

Definition pow10 (e : Z) : Q := Qpower (inject_Z 10) e.

Definition exponent_part (s : list ascii) : option Z :=
match s with
| [] => Some 0
| c :: r =>
    if (Ascii.eqb c "e" || Ascii.eqb c "E")%bool then
      match r with
      | "+"%char :: ds => digits 10 ds
      | "-"%char :: ds => Z.opp <$> digits 10 ds
      | ds => digits 10 ds
      end
    else None
end.

Definition unsigned_decimal (s : list ascii) : option Q :=
let '(ip, r1) := span_digits s in
let '(fp, r2) :=
  match r1 with
  | "."%char :: r => let '(fp, r2) := span_digits r in (fp, r2)
  | _ => ([], r1)
  end in
match ip, fp with
| [], [] => None
| _, _ =>
    e ← exponent_part r2;
    i ← digits_from 10 0 ip;
    f ← digits_from 10 0 fp;
    Some ((inject_Z i + inject_Z f / pow10 (Z.of_nat (length fp))) * pow10 e)%Q
end.

Definition signed_decimal (s : list ascii) : num :=
let '(neg, body) :=
  match s with
  | "+"%char :: r => (false, r)
  | "-"%char :: r => (true, r)
  | _ => (false, s)
  end in
if bool_decide (body = list_ascii_of_string "Infinity") then
  if neg then NegInf else PosInf
else
  match unsigned_decimal body with
  | Some q => Fin (if neg then - q else q)%Q
  | None => NaN
  end.

Definition Number (str : string) : num :=
match trim (list_ascii_of_string str) with
| [] => Fin 0
| "0"%char :: x :: r =>
    let radix (b : Z) :=
      match digits b r with Some z => of_Z z | None => NaN end in
    if (Ascii.eqb x "x" || Ascii.eqb x "X")%bool then radix 16
    else if (Ascii.eqb x "o" || Ascii.eqb x "O")%bool then radix 8
    else if (Ascii.eqb x "b" || Ascii.eqb x "B")%bool then radix 2
    else signed_decimal ("0"%char :: x :: r)
| s => signed_decimal s
end.

(** A string is truthy when it is not empty. *)
Definition truthy (s : string) : bool := negb (String.eqb s "").

End JS.

(** ** The protocol encoder: [escapeXml] and [xmlRpc] *)

Local Open Scope string_scope.
Local Open Scope list_scope.

(** [s.replaceAll(c, r)] for a one-character pattern. *)
Fixpoint replaceAll (c : ascii) (r : string) (s : string) : string :=
  match s with
  | EmptyString => EmptyString
  | String a t =>
      if Ascii.eqb a c then r +:+ replaceAll c r t
      else String a (replaceAll c r t)
  end.

Definition c_amp : ascii := "&"%char.
Definition c_lt : ascii := "<"%char.
Definition c_gt : ascii := ">"%char.
Definition c_quot : ascii := "034"%char.
Definition c_apos : ascii := "'"%char.

Definition escapeXml (s : string) : string :=
  replaceAll c_apos "&apos;"
    (replaceAll c_quot "&quot;"
       (replaceAll c_gt "&gt;"
          (replaceAll c_lt "&lt;"
             (replaceAll c_amp "&amp;" s)))).

(** [parts.join("")] *)
Definition join (parts : list string) : string :=
  fold_right String.append "" parts.

Definition param_open : string := "<param><value><string>".
Definition param_close : string := "</string></value></param>".

Definition paramXml (params : list string) : string :=
  join (map (fun p => param_open +:+ escapeXml p +:+ param_close) params).

Definition xml_head : string :=
  "<?xml version=" +:+ String c_quot "1.0" +:+ String c_quot "?>
<methodCall>
  <methodName>".
Definition xml_mid : string := "</methodName>
  <params>".
Definition xml_tail : string := "</params>
</methodCall>".

Definition xmlRpc (method : string) (params : list string) : string :=
  xml_head +:+ method +:+ xml_mid +:+ paramXml params +:+ xml_tail.

(** The one-pass, character-level reading of the escaping. *)
Definition escape_char (c : ascii) : string :=
  if Ascii.eqb c c_amp then "&amp;"
  else if Ascii.eqb c c_lt then "&lt;"
  else if Ascii.eqb c c_gt then "&gt;"
  else if Ascii.eqb c c_quot then "&quot;"
  else if Ascii.eqb c c_apos then "&apos;"
  else String c "".

Fixpoint escape_chars (s : string) : string :=
  match s with
  | EmptyString => ""
  | String c t => escape_char c +:+ escape_chars t
  end.

Definition reserved (c : ascii) : bool :=
  Ascii.eqb c c_amp || Ascii.eqb c c_lt || Ascii.eqb c c_gt
  || Ascii.eqb c c_quot || Ascii.eqb c c_apos.

(** The five entities the encoder emits. *)
Definition entities : list (string * ascii) :=
  [("&amp;", c_amp); ("&lt;", c_lt); ("&gt;", c_gt); ("&quot;", c_quot); ("&apos;", c_apos)].

(** [strip_prefix p s] is what follows [p] in [s], if [s] starts with [p]. *)
Fixpoint strip_prefix (p s : string) : option string :=
  match p, s with
  | EmptyString, _ => Some s
  | String a p', String b s' => if Ascii.eqb a b then strip_prefix p' s' else None
  | String _ _, EmptyString => None
  end.

Fixpoint first_entity (es : list (string * ascii)) (s : string)
  : option (ascii * string) :=
  match es with
  | [] => None
  | (e, c) :: es' =>
      match strip_prefix e s with
      | Some rest => Some (c, rest)
      | None => first_entity es' s
      end
  end.

(** Reads a text in which a reserved character occurs only as part of one of
    the five entities, and gives back the text the entities stand for;
    [None] when a reserved character occurs bare.  [fuel] bounds the
    number of characters read. *)
Fixpoint unescape (fuel : nat) (s : string) : option string :=
  match fuel with
  | O => match s with EmptyString => Some "" | _ => None end
  | S fuel' =>
      match s with
      | EmptyString => Some ""
      | String c t =>
          if reserved c then
            match first_entity entities s with
            | Some (c', rest) => String c' <$> unescape fuel' rest
            | None => None
            end
          else String c <$> unescape fuel' t
      end
  end.

(** No reserved character of [s] is left bare. *)
Definition well_escaped (s : string) : bool :=
  bool_decide (is_Some (unescape (String.length s) s)).

(** ** Data model *)

Module PingResult.
(** [PingResult & VerboseFields] *)
Record t : Type := mk {
  url : string;
  ok : bool;
  status : Z;
  error : option string;
  ms : option Z;
  bodySnippet : option string;
}.
End PingResult.

Module Totals.
Record t : Type := mk {
  total : nat;
  ok : nat;
  fail : nat;
  batchStart : JS.num;
  batchEnd : JS.num;
  batchCount : nat;
}.
End Totals.

Module Report.
(** The fields of a [DoPingResult] whose status is "done". *)
Record t : Type := mk {
  dryRun : bool;
  method : string;
  siteName : string;
  siteUrl : string;
  feedUrl : option string;
  totals : Totals.t;
  summary : list PingResult.t;
  nextCursor : option JS.num;
  subrequestBudget : JS.num;
  concurrencyUsed : JS.num;
}.
End Report.

Inductive DoPingResult : Type :=
  | Skipped (reason : string)
  | Done (r : Report.t).

Definition status (res : DoPingResult) : string :=
  match res with Skipped _ => "skipped" | Done _ => "done" end.

(** [res.summary ?? []] *)
Definition summary_of (res : DoPingResult) : list PingResult.t :=
  match res with Skipped _ => [] | Done r => Report.summary r end.

Record RuntimeEnv : Type := {
  XMLRPC_PING_SECRET : string;
  SITE_NAME : option string;
  SITE_URL : option string;
  FEED_URL : option string;
  (** the JSON array the variable holds, when it is set and not empty *)
  PING_ENDPOINTS : option (list string);
  DETECTOR : option string;
  GITHUB_REPO : option string;
  GITHUB_BRANCH : option string;
  GITHUB_TOKEN : option string;
  CLOUDFLARE_API_TOKEN : option string;
  CLOUDFLARE_ACCOUNT_ID : option string;
  CLOUDFLARE_PAGES_PROJECT : option string;
  SUBREQ_BUDGET : option string;
  PING_CONCURRENCY : option string;
}.

Record PingPayload : Type := {
  p_siteName : option string;
  p_siteUrl : option string;
  p_feedUrl : option string;
  p_endpoints : option (list string);
  (** [body.cursor], when it is a number *)
  p_cursor : option JS.num;
}.

(** [{}] *)
Definition empty_payload : PingPayload :=
  {| p_siteName := None; p_siteUrl := None; p_feedUrl := None;
     p_endpoints := None; p_cursor := None |}.

Record PingOpts : Type := {
  o_dryRun : option bool;
  o_concurrency : option JS.num;
  o_timeoutMs : option JS.num;
  o_limit : option JS.num;
  o_verbose : option bool;
  o_only : option string;
  o_cursor : option JS.num;
}.

(** [opts = {}] *)
Definition no_opts : PingOpts :=
  {| o_dryRun := None; o_concurrency := None; o_timeoutMs := None;
     o_limit := None; o_verbose := None; o_only := None; o_cursor := None |}.

Definition HOUR : Z := (60 * 60)%Z.
Definition RL_KEY : string := "xmlrpc:last-ping".
Definition LAST_KEY : string := "xmlrpc:last-seen".
Definition ENDPOINTS_KEY : string := "xmlrpc:endpoints".
Definition LAST_RESULT_KEY : string := "xmlrpc:last-result".
Definition LAST_DRY_KEY : string := "xmlrpc:last-dry".
Definition LAST_REQUEST_KEY : string := "xmlrpc:last-request".

Definition minimal_endpoints : list string :=
  ["https://rpc.pingomatic.com/"; "https://blogsearch.google.com/ping/RPC2";
   "https://rpc.twingly.com/"; "https://ping.fc2.com/";
   "https://ping.feedburner.com"; "http://ping.blo.gs/";
   "http://www.weblogues.com/RPC/"; "http://www.blogdigger.com/RPC2";
   "http://pingoat.com/goat/RPC2"].

(** ** The key-value store, the clock and the trace *)

(** What a key holds.  A JSON document is kept as the value it denotes
    ([JSON.parse] of [JSON.stringify] is the identity on the documents the
    worker writes); every key is taken to hold a well-formed value. *)
Inductive kvval : Type :=
  | VText (s : string)
  | VList (l : list string)
  | VSummary (time : Z) (siteName siteUrl : string) (feedUrl : option string)
             (summary : list PingResult.t)
  | VResult (time : Z) (latest : option string) (result : DoPingResult).

Record entry : Type := {
  value : kvval;
  (** the instant, in ms, from which the entry is gone; [None]: never *)
  expires : option Z;
}.

Inductive event : Type :=
  | KvGet (key : string)
  | KvPut (key : string) (v : kvval) (expirationTtl : option Z)
  | DetectorCall (url : string)
  | PingSent (url body : string).

Record world : Type := {
  kv : gmap string entry;
  clock : Z;
  trace : list event;
}.

Definition M (A : Type) : Type := world -> A * world.

Definition ret {A} (a : A) : M A := fun w => (a, w).
Definition bind {A B} (m : M A) (k : A -> M B) : M B :=
  fun w => let '(a, w') := m w in k a w'.

Notation "'let!' x ':=' e 'in' k" := (bind e (fun x => k))
  (at level 10, x pattern, e at level 100, k at level 200).
Notation "e ';;' k" := (bind e (fun _ => k))
  (at level 100, k at level 200, right associativity).

Definition emit (e : event) : M unit :=
  fun w => (tt, {| kv := kv w; clock := clock w; trace := trace w ++ [e] |}).

(** [Date.now()] *)
Definition Date_now : M Z := fun w => (clock w, w).

(** Time passing while the handler awaits. *)
Definition advance (dt : N) : M unit :=
  fun w => (tt, {| kv := kv w; clock := (clock w + Z.of_N dt)%Z; trace := trace w |}).

Definition live (now : Z) (e : entry) : bool :=
  match expires e with
  | Some t => (now <? t)%Z
  | None => true
  end.

(** What the store holds under [key] at the world's instant. *)
Definition kv_read (w : world) (key : string) : option kvval :=
  e ← kv w !! key; if live (clock w) e then Some (value e) else None.

(** [await env.XMLRPC_PING_KV.get(key)] *)
Definition kv_get (key : string) : M (option kvval) :=
  emit (KvGet key);; fun w => (kv_read w key, w).

(** [await env.XMLRPC_PING_KV.put(key, value, { expirationTtl })] *)
Definition kv_put (key : string) (v : kvval) (expirationTtl : option Z) : M unit :=
  emit (KvPut key v expirationTtl);;
  fun w =>
    (tt, {| kv := <[key := {| value := v;
                              expires := (fun s => (clock w + s * 1000)%Z) <$> expirationTtl |}]>
                    (kv w);
            clock := clock w; trace := trace w |}).

(** A value read as text is truthy unless it is the empty string (the text of
    a JSON document is never empty). *)
Definition text_truthy (v : option kvval) : bool :=
  match v with
  | Some (VText s) => JS.truthy s
  | Some _ => true
  | None => false
  end.

(** [lastSeen === id]: the text of a JSON document is taken to differ from
    every change id. *)
Definition text_is (v : option kvval) (id : string) : bool :=
  match v with
  | Some (VText s) => String.eqb s id
  | _ => false
  end.

(** [String(Date.now())] *)
Definition String_of_time (t : Z) : string := pretty t.

(** [a ?? b] *)
Definition nullish {A} (a b : option A) : option A :=
  match a with Some x => Some x | None => b end.

(** ** The network *)

(** How a request ends: a response whose headers arrived ([text] is what
    reading its body gives, [None] when the read fails), or a rejection
    carrying [String(e)] - "timeout" when the timer aborted the request. *)
Inductive response : Type :=
  | Response (ok : bool) (status : Z) (text : option string)
  | Rejected (e : string).

(** One completion: which of the requests in flight ends next (counted
    modulo their number), how, and after how many ms. *)
Record completion : Type := {
  pick : nat;
  reply : response;
  elapsed : N;
}.

(** The network's behaviour during one invocation: its n-th completion. *)
Definition network : Type := nat -> completion.

(** An async function with one suspension point: [start] runs up to the
    [await] and leaves a suspended state, [finish] resumes it with the reply. *)
Record task (T Susp R : Type) : Type := {
  start : T -> M Susp;
  finish : Susp -> response -> M R;
}.
Arguments start {T Susp R}.
Arguments finish {T Susp R}.

(** ** The batch fetcher: [pingWithTimeout] and [runPool] *)

(** [s.slice(0, 200)] *)
Definition snippet (s : string) : string := String.substring 0 200 s.

(** [pingWithTimeout(url, body, ms)] as a task over the URL.  The abort timer
    of [ms] milliseconds is the network's business here: a request the timer
    aborted is a completion [Rejected "timeout"]. *)
Definition pingWithTimeout (body : string) (verbose : bool)
  : task string (string * Z) PingResult.t :=
  {| start := fun url =>
       let! started := Date_now in
       emit (PingSent url body);;
       ret (url, started);
     finish := fun '(url, started) r =>
       let! t := Date_now in
       match r with
       | Response ok status text =>
           ret {| PingResult.url := url; PingResult.ok := ok;
                  PingResult.status := status; PingResult.error := None;
                  PingResult.ms := Some (t - started)%Z;
                  PingResult.bodySnippet :=
                    if verbose && negb ok then snippet <$> text else None |}
       | Rejected e =>
           ret {| PingResult.url := url; PingResult.ok := false;
                  PingResult.status := 0%Z; PingResult.error := Some e;
                  PingResult.ms := Some (t - started)%Z;
                  PingResult.bodySnippet := None |}
       end |}.

(** The pool's shared variables, and the suspended workers. *)
Record pool (Susp R : Type) : Type := {
  i : nat;
  results : list R;
  inflight : list Susp;
}.
Arguments i {Susp R}.
Arguments results {Susp R}.
Arguments inflight {Susp R}.

Section RunPool.
Context {T Susp R : Type}.
Variable items : list T.
Variable fn : task T Susp R.
Variable net : network.

(** One turn of a worker's loop, up to its [await]:
    [const idx = i++; if (idx >= items.length) break; ... fn(items[idx])]. *)
Definition pull (p : pool Susp R) : M (pool Susp R) :=
  let idx := i p in
  match items !! idx with
  | None =>
      ret {| i := S idx; results := results p; inflight := inflight p |}
  | Some item =>
      let! s := start fn item in
      ret {| i := S idx; results := results p;
             inflight := inflight p ++ [s] |}
  end.

(** [Array.from({ length: n }, async () => ...)]: the workers start in turn. *)
Fixpoint spawn (n : nat) (p : pool Susp R) : M (pool Susp R) :=
  match n with
  | O => ret p
  | S n' => let! p' := pull p in spawn n' p'
  end.

(** The network ends one request in flight; its worker pushes the result
    and takes its next turn. *)
Definition settle (step : nat) (p : pool Susp R) : M (pool Susp R) :=
  let c := net step in
  let k := (pick c mod length (inflight p))%nat in
  match inflight p !! k with
  | None => ret p
  | Some s =>
      advance (elapsed c);;
      let! r := finish fn s (reply c) in
      pull {| i := i p; results := results p ++ [r];
              inflight := delete k (inflight p) |}
  end.

(** [await Promise.all(workers)]: at most [fuel] completions. *)
Fixpoint drain (fuel step : nat) (p : pool Susp R) : M (pool Susp R) :=
  match fuel with
  | O => ret p
  | S fuel' =>
      match inflight p with
      | [] => ret p
      | _ => let! p' := settle step p in drain fuel' (S step) p'
      end
  end.

(** The pool once every worker has started and [length items] completions
    have been served (no request is left in flight then, see
    [run_pool_complete]). *)
Definition workers (size : JS.num) : nat :=
  JS.to_length (JS.Math_min size (JS.of_nat (length items))).

Definition run_pool (size : JS.num) : M (pool Susp R) :=
  let! p := spawn (workers size) {| i := O; results := []; inflight := [] |} in
  drain (length items) O p.

Definition runPool (size : JS.num) : M (list R) :=
  let! p := run_pool size in ret (results p).

(** The items a pool of that size takes: all of them, or none when it has
    no worker. *)
Definition taken (size : JS.num) : list T :=
  match workers size with O => [] | S _ => items end.

(** A worker that stopped found the items exhausted. *)
Definition exhausted (p : pool Susp R) : Prop :=
  inflight p = [] -> (length items <= i p)%nat.

(** What holds of the pool [p] in world [w], started in world [w0]: the
    items below [i] are those taken, each sent once ([ev]) and each either
    answered or in flight ([tag_r], [tag_s] and [tag_t] name the item a
    result, a suspended worker and an item stand for). *)
Record pool_inv {K : Type} (tag_t : T -> K) (tag_s : Susp -> K) (tag_r : R -> K)
    (ev : T -> event) (w0 : world) (p : pool Susp R) (w : world) : Prop := {
  inv_kv : kv w = kv w0;
  inv_trace : trace w = trace w0 ++ map ev (take (i p) items);
  inv_tags :
    map tag_r (results p) ++ map tag_s (inflight p) ≡ₚ map tag_t (take (i p) items);
}.
End RunPool.

(** ** The batch planner: the slice computation of [doPing] *)

Record Plan : Type := {
  plan_start : JS.num;
  plan_end : JS.num;
  plan_batch : list string;
  plan_nextCursor : option JS.num;
}.

Definition plan (endpoints : list string) (SUBREQ_BUDGET cursor : JS.num) : Plan :=
  let start := JS.Math_max (JS.of_Z 0) cursor in
  let stop := JS.Math_min (JS.of_nat (length endpoints)) (JS.add start SUBREQ_BUDGET) in
  {| plan_start := start;
     plan_end := stop;
     plan_batch := JS.slice endpoints start stop;
     plan_nextCursor :=
       if JS.ltb stop (JS.of_nat (length endpoints)) then Some stop else None |}.

(** A caller driving the pagination: [cursor = 0], then the previous
    [nextCursor], until [nextCursor] is [null] or [fuel] calls were made.
    Gives the batches in order and the cursor left ([None] once done). *)
Fixpoint paginate (fuel : nat) (endpoints : list string) (budget cursor : JS.num)
  : list (list string) * option JS.num :=
  match fuel with
  | O => ([], Some cursor)
  | S fuel' =>
      let p := plan endpoints budget cursor in
      match plan_nextCursor p with
      | None => ([plan_batch p], None)
      | Some c =>
          let '(bs, rest) := paginate fuel' endpoints budget c in
          (plan_batch p :: bs, rest)
      end
  end.

(** ** The orchestrator: [doPing] *)

(** [Number(v ?? d)] for an environment variable [v] *)
Definition Number_or (v : option string) (d : Z) : JS.num :=
  match v with Some s => JS.Number s | None => JS.of_Z d end.

(** [v ? ... : ...] for an optional string *)
Definition truthy_opt (v : option string) : bool :=
  match v with Some s => JS.truthy s | None => false end.

Definition WEEK_TTL : Z := (7 * 24 * 3600)%Z.
Definition DAY_TTL : Z := (24 * 3600)%Z.

(** [SUBREQ_BUDGET]: the budget read from the environment, clamped. *)
Definition subreq_budget (env : RuntimeEnv) : JS.num :=
  let rawBudget := Number_or (SUBREQ_BUDGET env) 45 in
  JS.Math_max (JS.of_Z 1) (JS.Math_min rawBudget (JS.of_Z 1000)).

(** [MAX_CONCURRENCY]: the requested concurrency, clamped. *)
Definition max_concurrency (env : RuntimeEnv) (opts : PingOpts) : JS.num :=
  let concurrency :=
    default (JS.Math_max (JS.of_Z 1)
               (JS.Math_min (Number_or (PING_CONCURRENCY env) 6) (JS.of_Z 10)))
            (o_concurrency opts) in
  JS.Math_max (JS.of_Z 1) (JS.Math_min concurrency (JS.of_Z 6)).

Definition siteName_of (env : RuntimeEnv) (payload : PingPayload) : string :=
  default "Viorel Mocanu" (nullish (p_siteName payload) (SITE_NAME env)).
Definition siteUrl_of (env : RuntimeEnv) (payload : PingPayload) : string :=
  default "https://www.viorelmocanu.ro" (nullish (p_siteUrl payload) (SITE_URL env)).
Definition feedUrl_of (env : RuntimeEnv) (payload : PingPayload) : option string :=
  nullish (p_feedUrl payload) (FEED_URL env).

(** The full endpoint list: the stored list, else the payload's, else the
    environment's, else the built-in one; then the first [limit] of them. *)
Definition endpoints_of (env : RuntimeEnv) (payload : PingPayload) (limit : JS.num)
    (kvList : option kvval) : list string :=
  let endpoints := match kvList with Some (VList l) => l | _ => [] end in
  let endpoints :=
    match endpoints with
    | [] =>
        match p_endpoints payload with
        | Some l => l
        | None => default minimal_endpoints (PING_ENDPOINTS env)
        end
    | _ => endpoints
    end in
  if JS.gtb limit (JS.of_Z 0) then JS.slice endpoints (JS.of_Z 0) limit
  else endpoints.

Definition method_of (feedUrl : option string) : string :=
  if truthy_opt feedUrl then "weblogUpdates.extendedPing" else "weblogUpdates.ping".

Definition params_of (siteName siteUrl : string) (feedUrl : option string) : list string :=
  match feedUrl with
  | Some f => if JS.truthy f then [siteName; siteUrl; f] else [siteName; siteUrl]
  | None => [siteName; siteUrl]
  end.

(** The output filter. *)
Definition filter_only (only : string) (summary : list PingResult.t) : list PingResult.t :=
  let summary :=
    if String.eqb only "fail" then filter (fun r => negb (PingResult.ok r)) summary
    else summary in
  if String.eqb only "success" then filter (fun r => PingResult.ok r) summary
  else summary.

(** The [totals] and the object [doPing] returns, for a run over
    [endpoints] whose rows, once filtered, are [summary]. *)
Definition report_of (env : RuntimeEnv) (payload : PingPayload) (opts : PingOpts)
    (endpoints : list string) (summary : list PingResult.t) : Report.t :=
  let p := plan endpoints (subreq_budget env) (default (JS.of_Z 0) (o_cursor opts)) in
  {| Report.dryRun := default false (o_dryRun opts);
     Report.method := method_of (feedUrl_of env payload);
     Report.siteName := siteName_of env payload;
     Report.siteUrl := siteUrl_of env payload;
     Report.feedUrl := feedUrl_of env payload;
     Report.totals :=
       {| Totals.total := length endpoints;
          Totals.batchStart := plan_start p;
          Totals.batchEnd := plan_end p;
          Totals.batchCount := length (plan_batch p);
          Totals.ok := length (filter (fun r => PingResult.ok r) summary);
          Totals.fail := length (filter (fun r => negb (PingResult.ok r)) summary) |};
     Report.summary := summary;
     Report.nextCursor := plan_nextCursor p;
     Report.subrequestBudget := subreq_budget env;
     Report.concurrencyUsed := max_concurrency env opts |}.

Definition doPing (env : RuntimeEnv) (payload : PingPayload) (opts : PingOpts)
    (net : network) : M DoPingResult :=
  let dryRun := default false (o_dryRun opts) in
  let limit := default (JS.of_Z 0) (o_limit opts) in
  let verbose := default false (o_verbose opts) in
  let only := default "all" (o_only opts) in
  let cursor := default (JS.of_Z 0) (o_cursor opts) in
  let! locked :=
    (if dryRun then ret false
     else let! rl := kv_get RL_KEY in ret (text_truthy rl)) in
  if locked : bool then ret (Skipped "rate-limited (<=1/hour)")
  else
    let siteName := siteName_of env payload in
    let siteUrl := siteUrl_of env payload in
    let feedUrl := feedUrl_of env payload in
    let! kvList := kv_get ENDPOINTS_KEY in
    let endpoints := endpoints_of env payload limit kvList in
    let batch := plan_batch (plan endpoints (subreq_budget env) cursor) in
    let bodyXml := xmlRpc (method_of feedUrl) (params_of siteName siteUrl feedUrl) in
    (if dryRun then ret tt
     else let! t := Date_now in kv_put RL_KEY (VText (String_of_time t)) (Some HOUR));;
    let! summary :=
      runPool batch (pingWithTimeout bodyXml verbose) net (max_concurrency env opts) in
    let summary := filter_only only summary in
    (if dryRun then ret tt
     else let! t := Date_now in
          kv_put LAST_RESULT_KEY (VSummary t siteName siteUrl feedUrl summary)
                 (Some WEEK_TTL));;
    ret (Done (report_of env payload opts endpoints summary)).

(** ** The manual trigger: [fetch] *)

(** What [safeJson(request)] returns: [null] when the body is the JSON text
    null, otherwise a value whose fields the payload gives - the object the
    body holds, or a value without any of the fields ([{}] when the body is
    not JSON; a number, a string, a boolean or an array when it holds
    one).  Fields of another type than [PingPayload] declares are not
    modelled. *)
Inductive json_body : Type :=
  | JsonNull
  | JsonObject (fields : PingPayload).

Record Request : Type := {
  r_method : string;
  r_pathname : string;
  (** the query parameters, in order *)
  r_search : list (string * string);
  r_authorization : option string;
  (** [await safeJson(request)] *)
  r_body : json_body;
}.

(** The fields of the body, when it is not [null]. *)
Definition r_json (request : Request) : PingPayload :=
  match r_body request with
  | JsonObject fields => fields
  | JsonNull => empty_payload
  end.

(** [url.searchParams.get(name)]: the first value given for [name]. *)
Fixpoint searchParams_get (q : list (string * string)) (name : string) : option string :=
  match q with
  | [] => None
  | (k, v) :: q' => if String.eqb k name then Some v else searchParams_get q' name
  end.

(** [v || d] on an optional string *)
Definition or_else (v : option string) (d : string) : string :=
  match v with Some s => if JS.truthy s then s else d | None => d end.

(** What the handler answers; the serialisation of the rows and the
    content of the health page are not part of this development. *)
Inductive Reply : Type :=
  | HealthJson
  | HealthHtml (refresh : JS.num) (view : string)
  | MethodNotAllowed
  | Unauthorized
  | Csv (rows : list PingResult.t) (only : string)
  | Ndjson (rows : list PingResult.t)
  | Json (res : DoPingResult)
  (** the handler threw: the request ends without a reply of its own *)
  | Uncaught.

(** The reads of [readHealth]. *)
Definition readHealth : M unit :=
  kv_get RL_KEY;; kv_get LAST_KEY;; kv_get ENDPOINTS_KEY;;
  kv_get LAST_RESULT_KEY;; kv_get LAST_DRY_KEY;; kv_get LAST_REQUEST_KEY;;
  ret tt.

Definition opt_eqb (v : option string) (s : string) : bool :=
  match v with Some t => String.eqb t s | None => false end.

Definition fetch (request : Request) (env : RuntimeEnv) (net : network) : M Reply :=
  let q := r_search request in
  let cursorQ := searchParams_get q "cursor" in
  let dryRun := opt_eqb (searchParams_get q "dry") "1" in
  let verbose := opt_eqb (searchParams_get q "verbose") "1" in
  let only := or_else (searchParams_get q "only") "all" in
  let limit := JS.Number (or_else (searchParams_get q "limit") "0") in
  let format := searchParams_get q "format" in
  if String.eqb (r_method request) "GET" && String.eqb (r_pathname request) "/health" then
    let refresh := JS.Number (or_else (searchParams_get q "refresh") "0") in
    let view := or_else (searchParams_get q "view") "all" in
    readHealth;;
    ret (if opt_eqb format "json" then HealthJson else HealthHtml refresh view)
  else if negb (String.eqb (r_method request) "POST") then ret MethodNotAllowed
  else if negb (truthy_opt (r_authorization request))
          || negb (opt_eqb (r_authorization request) ("Bearer " +:+ XMLRPC_PING_SECRET env))
  then ret Unauthorized
  else
    match r_body request with
    | JsonNull =>
        (* [body.cursor] on [null] throws a TypeError that nothing catches *)
        ret Uncaught
    | JsonObject body =>
        let cursor :=
          match p_cursor body with
          | Some c => c
          | None => if truthy_opt cursorQ then Number_or cursorQ 0 else JS.of_Z 0
          end in
        let! res :=
          doPing env body
            {| o_dryRun := Some dryRun; o_concurrency := None; o_timeoutMs := None;
               o_limit := Some limit; o_verbose := Some verbose; o_only := Some only;
               o_cursor := Some cursor |} net in
        let! t := Date_now in
        (if negb dryRun then kv_put LAST_RESULT_KEY (VResult t None res) (Some WEEK_TTL)
         else kv_put LAST_DRY_KEY (VResult t None res) (Some DAY_TTL));;
        ret (if opt_eqb format "csv" then Csv (summary_of res) only
             else if opt_eqb format "ndjson" then Ndjson (summary_of res)
             else Json res)
    end.

(** ** The deploy detectors and the cron trigger: [scheduled] *)

Record CfDeploy : Type := {
  cf_id : option string;
  cf_deployment_id : option string;
  cf_short_id : option string;
}.

Inductive api_json : Type :=
  | BranchInfo (sha : option string)
  | Deployments (deployments : list CfDeploy).

(** What the detector's API call gives: a rejected request, or a response
    whose body parses ([Some]) or does not ([None]). *)
Inductive api_reply : Type :=
  | ApiRejected
  | ApiResponse (ok : bool) (body : option api_json).

(** A computation that may throw. *)
Inductive outcome (A : Type) : Type :=
  | Threw
  | Returned (a : A).
Arguments Threw {A}.
Arguments Returned {A}.

Definition id_of (v : option string) : option string :=
  match v with Some s => if JS.truthy s then Some s else None | None => None end.

Definition latestGithubCommit (env : RuntimeEnv) (api : api_reply)
  : M (outcome (option string)) :=
  match id_of (GITHUB_REPO env) with
  | None => ret (Returned None)
  | Some repo =>
      let branch := or_else (GITHUB_BRANCH env) "main" in
      emit (DetectorCall ("https://api.github.com/repos/" +:+ repo +:+ "/branches/" +:+ branch));;
      match api with
      | ApiRejected => ret Threw
      | ApiResponse false _ => ret (Returned None)
      | ApiResponse true None => ret Threw
      | ApiResponse true (Some (BranchInfo sha)) => ret (Returned (id_of sha))
      | ApiResponse true (Some (Deployments _)) => ret (Returned None)
      end
  end.

Definition latestCloudflareDeploy (env : RuntimeEnv) (api : api_reply)
  : M (outcome (option string)) :=
  match id_of (CLOUDFLARE_API_TOKEN env), id_of (CLOUDFLARE_ACCOUNT_ID env),
        id_of (CLOUDFLARE_PAGES_PROJECT env) with
  | Some _, Some account, Some project =>
      emit (DetectorCall ("https://api.cloudflare.com/client/v4/accounts/" +:+ account
                          +:+ "/pages/projects/" +:+ project +:+ "/deployments?per_page=1"));;
      match api with
      | ApiRejected => ret Threw
      | ApiResponse false _ => ret (Returned None)
      | ApiResponse true None => ret Threw
      | ApiResponse true (Some (Deployments (first :: _))) =>
          ret (Returned (id_of (nullish (cf_id first)
                                  (nullish (cf_deployment_id first) (cf_short_id first)))))
      | ApiResponse true (Some _) => ret (Returned None)
      end
  | _, _, _ => ret (Returned None)
  end.

(** The detector the environment selects. *)
Definition detect (env : RuntimeEnv) (api : api_reply) : M (outcome (option string)) :=
  let detector := or_else (DETECTOR env) "github" in
  if String.eqb detector "cloudflare" then latestCloudflareDeploy env api
  else latestGithubCommit env api.

Definition scheduled (env : RuntimeEnv) (api : api_reply) (net : network) : M unit :=
  let! latest := detect env api in
  match latest with
  | Threw => ret tt
  | Returned None => ret tt
  | Returned (Some id) =>
      if negb (JS.truthy id) then ret tt
      else
        let! lastSeen := kv_get LAST_KEY in
        if text_is lastSeen id then ret tt
        else
          let! rl := kv_get RL_KEY in
          if text_truthy rl then ret tt
          else
            let! result := doPing env empty_payload no_opts net in
            kv_put LAST_KEY (VText id) None;;
            let! t := Date_now in
            kv_put RL_KEY (VText (String_of_time t)) (Some HOUR);;
            let! t' := Date_now in
            kv_put LAST_RESULT_KEY (VResult t' (Some id) result) (Some WEEK_TTL);;
            ret tt
  end.

(** ** Vocabulary of the properties *)

Definition is_ping (e : event) : bool :=
  match e with PingSent _ _ => true | _ => false end.

Definition is_put (e : event) : bool :=
  match e with KvPut _ _ _ => true | _ => false end.

(** [e] reads or writes [key]. *)
Definition touches (key : string) (e : event) : bool :=
  match e with
  | KvGet k | KvPut k _ _ => String.eqb k key
  | _ => false
  end.

Definition is_detector_call (e : event) : bool :=
  match e with DetectorCall _ => true | _ => false end.

(** The markup characters other than the ampersand. *)
Definition markup (c : ascii) : bool :=
  Ascii.eqb c c_lt || Ascii.eqb c c_gt || Ascii.eqb c c_quot || Ascii.eqb c c_apos.

Fixpoint string_forall (P : ascii -> bool) (s : string) : bool :=
  match s with
  | EmptyString => true
  | String c t => P c && string_forall P t
  end.

Section Run.
Variable env : RuntimeEnv.
Variable payload : PingPayload.
Variable opts : PingOpts.

(** The endpoint list, the batch and the request body of a run of
    [doPing] started in world [w], and the URLs it pings. *)
Definition run_endpoints (w : world) : list string :=
  endpoints_of env payload (default (JS.of_Z 0) (o_limit opts)) (kv_read w ENDPOINTS_KEY).
Definition run_batch (w : world) : list string :=
  plan_batch (plan (run_endpoints w) (subreq_budget env)
                (default (JS.of_Z 0) (o_cursor opts))).
Definition run_body : string :=
  xmlRpc (method_of (feedUrl_of env payload))
    (params_of (siteName_of env payload) (siteUrl_of env payload) (feedUrl_of env payload)).
Definition run_pinged (w : world) : list string :=
  taken (run_batch w) (max_concurrency env opts).

(** The rate-limit record and the result record a real run writes. *)
Definition rl_value (w : world) : kvval := VText (String_of_time (clock w)).
Definition summary_value (t : Z) (summary : list PingResult.t) : kvval :=
  VSummary t (siteName_of env payload) (siteUrl_of env payload)
           (feedUrl_of env payload) summary.
End Run.

(** The options [fetch] passes to [doPing]. *)
Definition fetch_opts (request : Request) : PingOpts :=
  let q := r_search request in
  {| o_dryRun := Some (opt_eqb (searchParams_get q "dry") "1");
     o_concurrency := None; o_timeoutMs := None;
     o_limit := Some (JS.Number (or_else (searchParams_get q "limit") "0"));
     o_verbose := Some (opt_eqb (searchParams_get q "verbose") "1");
     o_only := Some (or_else (searchParams_get q "only") "all");
     o_cursor :=
       Some match p_cursor (r_json request) with
            | Some c => c
            | None =>
                if truthy_opt (searchParams_get q "cursor")
                then Number_or (searchParams_get q "cursor") 0 else JS.of_Z 0
            end |}.

(** The record [fetch] persists after the run: the durable one of a real run,
    the snapshot of a dry one. *)
Definition persisted_key (dry : bool) : string :=
  if dry then LAST_DRY_KEY else LAST_RESULT_KEY.
Definition persisted_ttl (dry : bool) : Z :=
  if dry then DAY_TTL else WEEK_TTL.

(** An authorised POST. *)
Definition authorised_post (request : Request) (env : RuntimeEnv) : Prop :=
  r_method request = "POST"
  /\ r_authorization request = Some ("Bearer " +:+ XMLRPC_PING_SECRET env).

(** The answer of [fetch] in the format asked for. *)
Definition reply_of (request : Request) (res : DoPingResult) : Reply :=
  let q := r_search request in
  if opt_eqb (searchParams_get q "format") "csv"
  then Csv (summary_of res) (or_else (searchParams_get q "only") "all")
  else if opt_eqb (searchParams_get q "format") "ndjson" then Ndjson (summary_of res)
  else Json res.

(** ** Example inputs *)

Definition env0 : RuntimeEnv :=
  {| XMLRPC_PING_SECRET := "s3cret";
     SITE_NAME := None; SITE_URL := None; FEED_URL := None; PING_ENDPOINTS := None;
     DETECTOR := None; GITHUB_REPO := Some "owner/site"; GITHUB_BRANCH := None;
     GITHUB_TOKEN := None; CLOUDFLARE_API_TOKEN := None; CLOUDFLARE_ACCOUNT_ID := None;
     CLOUDFLARE_PAGES_PROJECT := None; SUBREQ_BUDGET := None; PING_CONCURRENCY := None |}.

(** As [env0], with the two tuning knobs set to [budget] and [concurrency]. *)
Definition env_tuned (budget concurrency : option string) : RuntimeEnv :=
  {| XMLRPC_PING_SECRET := "s3cret";
     SITE_NAME := None; SITE_URL := None; FEED_URL := None; PING_ENDPOINTS := None;
     DETECTOR := None; GITHUB_REPO := Some "owner/site"; GITHUB_BRANCH := None;
     GITHUB_TOKEN := None; CLOUDFLARE_API_TOKEN := None; CLOUDFLARE_ACCOUNT_ID := None;
     CLOUDFLARE_PAGES_PROJECT := None;
     SUBREQ_BUDGET := budget; PING_CONCURRENCY := concurrency |}.

(** A payload that only lists endpoints. *)
Definition payload_with (endpoints : list string) : PingPayload :=
  {| p_siteName := None; p_siteUrl := None; p_feedUrl := None;
     p_endpoints := Some endpoints; p_cursor := None |}.

(** An authorised POST with query [q] and body [payload]. *)
Definition post (q : list (string * string)) (payload : PingPayload) : Request :=
  {| r_method := "POST"; r_pathname := "/"; r_search := q;
     r_authorization := Some "Bearer s3cret"; r_body := JsonObject payload |}.

(** An empty store, at some instant. *)
Definition w0 : world := {| kv := ∅; clock := 1700000000000; trace := [] |}.

(** Every endpoint answers 200 after 5 ms, the oldest request first. *)
Definition all_ok : network :=
  fun _ => {| pick := 0; reply := Response true 200 None; elapsed := 5%N |}.

(** The third, sixth and eighth completions are a 500, the others a 200. *)
Definition three_fail : network :=
  fun n =>
    {| pick := 0;
       reply := if bool_decide (n ∈ [2; 5; 7]%nat) then Response false 500 None
                else Response true 200 None;
       elapsed := 5%N |}.

Definition ten_endpoints : list string :=
  ["https://e0/"; "https://e1/"; "https://e2/"; "https://e3/"; "https://e4/";
   "https://e5/"; "https://e6/"; "https://e7/"; "https://e8/"; "https://e9/"].

(** A store in which a real run of ten minutes ago left its rate-limit
    record and its result. *)
Definition w_locked : world :=
  {| kv :=
       <[RL_KEY := {| value := VText "1699999400000";
                      expires := Some 1700003000000%Z |}]>
       (<[LAST_RESULT_KEY :=
            {| value :=
                 VSummary 1699999400200 "Viorel Mocanu" "https://www.viorelmocanu.ro" None
                   [ {| PingResult.url := "https://rpc.pingomatic.com/";
                        PingResult.ok := true; PingResult.status := 200%Z;
                        PingResult.error := None; PingResult.ms := Some 180%Z;
                        PingResult.bodySnippet := None |} ];
               expires := Some 1700604200200%Z |}]> ∅);
     clock := 1700000000000; trace := [] |}.

(** A store whose last-seen marker is the commit "abc123". *)
Definition w_seen : world :=
  {| kv := <[LAST_KEY := {| value := VText "abc123"; expires := None |}]> ∅;
     clock := 1700000000000; trace := [] |}.

(** ** The CSV exporter: [toCsv] *)

Definition c_cr : ascii := "013"%char.
Definition c_lf : ascii := "010"%char.
Definition c_comma : ascii := ","%char.

(** [s.replace(/\r?\n/g, " ")]: a line feed, with the carriage return just
    before it if there is one, becomes a space. *)
Fixpoint collapse_newlines (s : string) : string :=
  match s with
  | EmptyString => EmptyString
  | String c t =>
      if Ascii.eqb c c_lf then String " " (collapse_newlines t)
      else if Ascii.eqb c c_cr then
        match t with
        | String d t' =>
            if Ascii.eqb d c_lf then String " " (collapse_newlines t')
            else String c (collapse_newlines t)
        | EmptyString => String c EmptyString
        end
      else String c (collapse_newlines t)
  end.

(** The replacement text of the second [replace] of [esc]: two double quotes. *)
Definition two_quotes : string := String c_quot (String c_quot "").

(** [esc]: the text of a field, between double quotes. *)
Definition esc (s : string) : string :=
  String c_quot (replaceAll c_quot two_quotes (collapse_newlines s)) +:+ String c_quot "".

(** [String(b)] *)
Definition String_of_bool (b : bool) : string := if b then "true" else "false".

(** [parts.join(sep)] *)
Fixpoint join_with (sep : string) (parts : list string) : string :=
  match parts with
  | [] => ""
  | [p] => p
  | p :: rest => p +:+ sep +:+ join_with sep rest
  end.

(** What [esc] is applied to, column by column: [String(s ?? "")]. *)
Definition csv_fields (r : PingResult.t) : list string :=
  [PingResult.url r;
   String_of_bool (PingResult.ok r);
   pretty (PingResult.status r);
   from_option pretty "" (PingResult.ms r);
   default "" (PingResult.error r);
   default "" (PingResult.bodySnippet r)].

Definition csv_header : string := "url,ok,status,ms,error,bodySnippet".
Definition crlf : string := String c_cr (String c_lf "").

Definition csv_row (r : PingResult.t) : string :=
  join_with "," (map esc (csv_fields r)).

Definition toCsv (rows : list PingResult.t) : string :=
  join_with crlf (csv_header :: map csv_row rows).

(** The number of characters of [s] that satisfy [P]. *)
Fixpoint count_chars (P : ascii -> bool) (s : string) : nat :=
  match s with
  | EmptyString => O
  | String c t => ((if P c then 1 else 0) + count_chars P t)%nat
  end.

(** A reader of quoted fields: the text up to the closing double quote,
    a doubled double quote standing for one, and what follows the closing
    quote. *)
Fixpoint read_quoted (s : string) : option (string * string) :=
  match s with
  | EmptyString => None
  | String c t =>
      if Ascii.eqb c c_quot then
        match t with
        | String d t' =>
            if Ascii.eqb d c_quot
            then (fun fr => (String c_quot fr.1, fr.2)) <$> read_quoted t'
            else Some ("", t)
        | EmptyString => Some ("", "")
        end
      else (fun fr => (String c fr.1, fr.2)) <$> read_quoted t
  end.

(** A reader of a line of quoted fields separated by commas; [fuel] bounds
    the number of fields. *)
Fixpoint read_fields (fuel : nat) (s : string) : option (list string) :=
  match fuel with
  | O => None
  | S fuel' =>
      match s with
      | String c t =>
          if Ascii.eqb c c_quot then
            match read_quoted t with
            | Some (f, EmptyString) => Some [f]
            | Some (f, String d r) =>
                if Ascii.eqb d c_comma then cons f <$> read_fields fuel' r else None
            | None => None
            end
          else None
      | EmptyString => None
      end
  end.

(** ** The health page: [escapeHtml], [readHealth], [fmtRelative] *)

Definition escapeHtml (s : string) : string :=
  replaceAll c_apos "&#39;"
    (replaceAll c_quot "&quot;"
       (replaceAll c_gt "&gt;"
          (replaceAll c_lt "&lt;"
             (replaceAll c_amp "&amp;" s)))).

(** The five entities [escapeHtml] emits. *)
Definition html_entities : list (string * ascii) :=
  [("&amp;", c_amp); ("&lt;", c_lt); ("&gt;", c_gt); ("&quot;", c_quot); ("&#39;", c_apos)].

(** As [unescape], for a given list of entities. *)
Fixpoint unescape_with (es : list (string * ascii)) (fuel : nat) (s : string)
  : option string :=
  match fuel with
  | O => match s with EmptyString => Some "" | _ => None end
  | S fuel' =>
      match s with
      | EmptyString => Some ""
      | String c t =>
          if reserved c then
            match first_entity es s with
            | Some (c', rest) => String c' <$> unescape_with es fuel' rest
            | None => None
            end
          else String c <$> unescape_with es fuel' t
      end
  end.

(** [-a] and [a - b] *)
Definition num_neg (a : JS.num) : JS.num :=
  match a with
  | JS.NaN => JS.NaN
  | JS.NegInf => JS.PosInf
  | JS.PosInf => JS.NegInf
  | JS.Fin q => JS.Fin (- q)
  end.
Definition num_sub (a b : JS.num) : JS.num := JS.add a (num_neg b).

(** A number is truthy unless it is NaN or zero. *)
Definition num_truthy (a : JS.num) : bool :=
  match a with
  | JS.NaN => false
  | JS.Fin q => negb (Qeq_bool q 0)
  | _ => true
  end.

(** The [result] a stored document carries: the few fields [doPing] saves,
    or a whole report as [fetch] and [scheduled] save it. *)
Inductive stored_result : Type :=
  | SummaryOnly (siteName siteUrl : string) (feedUrl : option string)
                (summary : list PingResult.t)
  | Reported (res : DoPingResult).

(** [doc.time], [doc.latest?.id], [doc.result] of a stored document read as
    JSON; a text or a list has none of them. *)
Definition doc_time (v : kvval) : option Z :=
  match v with
  | VSummary t _ _ _ _ | VResult t _ _ => Some t
  | _ => None
  end.
Definition doc_latest_id (v : kvval) : option string :=
  match v with VResult _ latest _ => latest | _ => None end.
Definition doc_result (v : kvval) : option stored_result :=
  match v with
  | VSummary _ sn su fu summary => Some (SummaryOnly sn su fu summary)
  | VResult _ _ res => Some (Reported res)
  | _ => None
  end.

Definition result_siteName (r : stored_result) : option string :=
  match r with
  | SummaryOnly sn _ _ _ => Some sn
  | Reported (Done r) => Some (Report.siteName r)
  | Reported (Skipped _) => None
  end.
Definition result_siteUrl (r : stored_result) : option string :=
  match r with
  | SummaryOnly _ su _ _ => Some su
  | Reported (Done r) => Some (Report.siteUrl r)
  | Reported (Skipped _) => None
  end.
Definition result_feedUrl (r : stored_result) : option string :=
  match r with
  | SummaryOnly _ _ fu _ => fu
  | Reported (Done r) => Report.feedUrl r
  | Reported (Skipped _) => None
  end.
Definition result_summary (r : stored_result) : option (list PingResult.t) :=
  match r with
  | SummaryOnly _ _ _ summary => Some summary
  | Reported (Done r) => Some (Report.summary r)
  | Reported (Skipped _) => None
  end.

(** [lastPingStr ? Number(lastPingStr) : null] for the value read as text
    under the rate-limit key (the text of a JSON document is not a number). *)
Definition text_number (v : option kvval) : option JS.num :=
  match v with
  | Some (VText s) => if JS.truthy s then Some (JS.Number s) else None
  | Some _ => Some JS.NaN
  | None => None
  end.

Definition HOUR_MS : Z := (60 * 60 * 1000)%Z.

(** [lastPingMs ? Math.max(0, 60 * 60 * 1000 - (now - lastPingMs)) : 0] *)
Definition lock_remaining (now : Z) (lastPingMs : option JS.num) : JS.num :=
  match lastPingMs with
  | Some ms =>
      if num_truthy ms
      then JS.Math_max (JS.of_Z 0) (num_sub (JS.of_Z HOUR_MS) (num_sub (JS.of_Z now) ms))
      else JS.of_Z 0
  | None => JS.of_Z 0
  end.

Record HealthData : Type := {
  h_site_name : option string;
  h_site_url : option string;
  h_site_feed : option string;
  (** a change id, or whatever the last-seen key holds *)
  h_latestId : option kvval;
  h_endpointsCount : nat;
  h_lastPingAt : option JS.num;
  h_nextAllowedInMs : JS.num;
  h_lastResultAt : option Z;
  h_successes : nat;
  h_failures : nat;
  h_lastRequestAt : option Z;
  h_summary : list PingResult.t;
  h_recentSample : list PingResult.t;
  h_sampleSource : option (option Z * option stored_result);
}.

(** [lastResult?.result?.f ?? lastDry?.result?.f] *)
Definition stored_field {A} (lastResult lastDry : option kvval)
    (f : stored_result -> option A) : option A :=
  nullish (v ← lastResult; r ← doc_result v; f r) (v ← lastDry; r ← doc_result v; f r).

(** [readHealth] with the data it returns ([lastRequestBody] apart: no
    document of the model carries a body). *)
Definition readHealthData : M HealthData :=
  let! lastPingStr := kv_get RL_KEY in
  let! lastSeen := kv_get LAST_KEY in
  let! endpoints := kv_get ENDPOINTS_KEY in
  let! lastResult := kv_get LAST_RESULT_KEY in
  let! lastDry := kv_get LAST_DRY_KEY in
  let! lastReq := kv_get LAST_REQUEST_KEY in
  let sampleSource := nullish lastResult lastDry in
  let lastPingMs := text_number lastPingStr in
  let! now := Date_now in
  let lockRemainingMs := lock_remaining now lastPingMs in
  let summary := default [] (stored_field lastResult lastDry result_summary) in
  let ok := length (filter (fun s => PingResult.ok s) summary) in
  let fail := (length summary - ok)%nat in
  ret {| h_site_name := stored_field lastResult lastDry result_siteName;
         h_site_url := stored_field lastResult lastDry result_siteUrl;
         h_site_feed := stored_field lastResult lastDry result_feedUrl;
         h_latestId := nullish (VText <$> (v ← lastResult; doc_latest_id v)) lastSeen;
         h_endpointsCount := match endpoints with Some (VList l) => length l | _ => O end;
         h_lastPingAt := lastPingMs;
         h_nextAllowedInMs := lockRemainingMs;
         h_lastResultAt := nullish (v ← lastResult; doc_time v) (v ← lastDry; doc_time v);
         h_successes := ok;
         h_failures := fail;
         h_lastRequestAt := (v ← lastReq; doc_time v);
         h_summary := summary;
         h_recentSample := take 20 summary;
         h_sampleSource := (fun v => (doc_time v, doc_result v)) <$> sampleSource |}.

(** [view === "all" ? true : view === "fail" ? !r.ok : r.ok] *)
Definition shown (view : string) (r : PingResult.t) : bool :=
  if String.eqb view "all" then true
  else if String.eqb view "fail" then negb (PingResult.ok r)
  else PingResult.ok r.

(** The rows [renderHealthHtml] shows for a view. *)
Definition health_rows (view : string) (summary : list PingResult.t) : list PingResult.t :=
  filter (fun r => shown view r) summary.

(** [fmtRelative(diffMs)], for a difference that is a finite number. *)
Definition fmtRelative (diffMs : Q) : string :=
  let s := Qfloor (diffMs / 1000)%Q in
  if (s <? 60)%Z then pretty s +:+ "s"
  else
    let m := (s / 60)%Z in
    if (m <? 60)%Z then pretty m +:+ "m"
    else
      let h := (m / 60)%Z in
      if (h <? 24)%Z then pretty h +:+ "h"
      else pretty (h / 24)%Z +:+ "d".

(** The units [fmtRelative] prints, with their length in ms. *)
Definition relative_units : list (string * Z) :=
  [("s", 1000); ("m", 60000); ("h", 3600000); ("d", 86400000)]%Z.

(** ** The keys the handlers write *)

(** The event is not a write, or it is a write under one of [keys]. *)
Definition writes_only (keys : list string) (e : event) : bool :=
  match e with
  | KvPut key _ _ => existsb (String.eqb key) keys
  | _ => true
  end.

(** ** The pool, step by step *)

(** The states [runPool] goes through once its workers have started: the
    state after the start, and the state after each completion. *)
Inductive pool_reached {T Susp R : Type} (items : list T) (fn : task T Susp R)
    (net : network) (size : JS.num) (w0 : world)
  : nat -> pool Susp R -> world -> Prop :=
  | reached_start (p : pool Susp R) (w : world) :
      spawn items fn (workers items size) {| i := O; results := []; inflight := [] |} w0
      = (p, w) ->
      pool_reached items fn net size w0 O p w
  | reached_settle (step : nat) (p p' : pool Susp R) (w w' : world) :
      pool_reached items fn net size w0 step p w ->
      inflight p <> [] ->
      settle items fn net step p w = (p', w') ->
      pool_reached items fn net size w0 (S step) p' w'.

(** What every row of [pingWithTimeout] satisfies: a latency that is not
    negative; with an error text, a failure of status 0 without a body
    snippet; a body snippet only in verbose mode, for a failure, of at most
    200 characters. *)
Definition row_ok (verbose : bool) (r : PingResult.t) : bool :=
  match PingResult.ms r with Some ms => (0 <=? ms)%Z | None => false end
  && match PingResult.error r with
     | Some _ =>
         negb (PingResult.ok r) && (PingResult.status r =? 0)%Z
         && bool_decide (PingResult.bodySnippet r = None)
     | None => true
     end
  && match PingResult.bodySnippet r with
     | Some b => verbose && negb (PingResult.ok r) && (String.length b <=? 200)%nat
     | None => true
     end.

(** What holds of the pool of [pingWithTimeout] as it runs: the requests in
    flight started in the past, and the rows are well formed. *)
Definition rows_inv (verbose : bool) (p : pool (string * Z) PingResult.t) (w : world)
  : Prop :=
  Forall (fun s => (s.2 <= clock w)%Z) (inflight p)
  /\ Forall (fun r => row_ok verbose r = true) (results p).

(** The run of two real invocations of [doPing], [dt] ms apart. *)
Definition two_runs (env : RuntimeEnv) (payload1 payload2 : PingPayload)
    (opts1 opts2 : PingOpts) (net1 net2 : network) (dt : N)
  : M (DoPingResult * DoPingResult) :=
  let! res1 := doPing env payload1 opts1 net1 in
  advance dt;;
  let! res2 := doPing env payload2 opts2 net2 in
  ret (res1, res2).

(** Two ticks of the cron trigger, [dt] ms apart. *)
Definition two_ticks (env : RuntimeEnv) (api1 api2 : api_reply) (net1 net2 : network)
    (dt : N) : M unit :=
  scheduled env api1 net1;; advance dt;; scheduled env api2 net2.

(** ** Sums rounded to binary64 *)

(** The engine keeps a Number as a binary64 value and rounds every sum to
    the nearest one.  [JS.add] keeps the sum exact: it is the sum the engine
    computes whenever the exact sum is a binary64 number - as it is for
    integers below 2^53, the cursors and budgets [doPing] is meant for.
    [JS64.add] rounds, and [plan64] is the slice computation of [doPing]
    with that sum. *)
Module JS64.

(** [2^e] *)
Definition pow2 (e : Z) : Q := Qpower 2 e.

(** [|q|] *)
Definition abs (q : Q) : Q := if Qle_bool 0 q then q else (- q)%Q.

(** [floor(log2 |q|)], for [q] other than 0. *)
Definition ilog2 (q : Q) : Z :=
let e := (Z.log2 (Z.abs (Qnum q)) - Z.log2 (Z.pos (Qden q)))%Z in
if Qle_bool (pow2 e) (abs q) then e else (e - 1)%Z.

(** The integer nearest to [q]; half-way between two, the even one. *)
Definition round_even (q : Q) : Z :=
let f := Qfloor q in
let r := (q - inject_Z f)%Q in
if JS.Qltb r (1 # 2) then f
else if JS.Qltb (1 # 2) r then (f + 1)%Z
else if Z.even f then f else (f + 1)%Z.

(** The binary64 number nearest to [q], ties to even: 53 significant bits,
  exponents from -1022 to 1023, subnormal numbers below; an infinity from
  2^1024 on.  A [q] that is a binary64 number is returned as it is. *)
Definition round (q : Q) : JS.num :=
if Qeq_bool q 0 then JS.Fin q
else
  let e := Z.max (ilog2 q) (-1022) in
  let ulp := pow2 (e - 52) in
  let r := (inject_Z (round_even (q / ulp)) * ulp)%Q in
  if Qle_bool (pow2 1024) (abs r) then (if Qle_bool 0 q then JS.PosInf else JS.NegInf)
  else if Qeq_bool r q then JS.Fin q else JS.Fin r.

(** The Number the engine holds for the value [a]. *)
Definition to64 (a : JS.num) : JS.num :=
match a with
| JS.Fin q => round q
| _ => a
end.

(** [a + b] *)
Definition add (a b : JS.num) : JS.num := to64 (JS.add a b).

(** [Number(str)], as the engine holds it. *)
Definition Number (str : string) : JS.num := to64 (JS.Number str).

End JS64.

(** The slice computation of [doPing], its sum rounded. *)
Definition plan64 (endpoints : list string) (SUBREQ_BUDGET cursor : JS.num) : Plan :=
  let start := JS.Math_max (JS.of_Z 0) cursor in
  let stop := JS.Math_min (JS.of_nat (length endpoints)) (JS64.add start SUBREQ_BUDGET) in
  {| plan_start := start;
     plan_end := stop;
     plan_batch := JS.slice endpoints start stop;
     plan_nextCursor :=
       if JS.ltb stop (JS.of_nat (length endpoints)) then Some stop else None |}.

(** As [paginate], with [plan64]. *)
Fixpoint paginate64 (fuel : nat) (endpoints : list string) (budget cursor : JS.num)
  : list (list string) * option JS.num :=
  match fuel with
  | O => ([], Some cursor)
  | S fuel' =>
      let p := plan64 endpoints budget cursor in
      match plan_nextCursor p with
      | None => ([plan_batch p], None)
      | Some c =>
          let '(bs, rest) := paginate64 fuel' endpoints budget c in
          (plan_batch p :: bs, rest)
      end
  end.

Definition eleven_endpoints : list string := ten_endpoints ++ ["https://e10/"].

(** ** A reader of the request body *)

(** The text before the first [<] of [s], and what follows it. *)
Fixpoint up_to_tag (s : string) : string * string :=
  match s with
  | EmptyString => ("", "")
  | String c t =>
      if Ascii.eqb c c_lt then ("", s)
      else let '(text, rest) := up_to_tag t in (String c text, rest)
  end.

(** Reads the parameters of a call: each one is [param_open], a text
    without a bare reserved character, [param_close]; [xml_tail] ends them.
    Gives the texts the parameters stand for.  [fuel] bounds their number. *)
Fixpoint read_params (fuel : nat) (s : string) : option (list string) :=
  match fuel with
  | O => None
  | S fuel' =>
      match strip_prefix param_open s with
      | Some rest =>
          let '(text, rest') := up_to_tag rest in
          p ← unescape (String.length text) text;
          rest'' ← strip_prefix param_close rest';
          ps ← read_params fuel' rest'';
          Some (p :: ps)
      | None => if String.eqb s xml_tail then Some [] else None
      end
  end.

(** Reads a request body: the fixed markup around a method name that holds
    no reserved character, and the parameters.  [None] when the text is
    not of that form. *)
Definition read_call (s : string) : option (string * list string) :=
  rest ← strip_prefix xml_head s;
  let '(method, rest') := up_to_tag rest in
  if string_forall (fun c => negb (reserved c)) method then
    rest'' ← strip_prefix xml_mid rest';
    ps ← read_params (S (String.length rest'')) rest'';
    Some (method, ps)
  else None.

(** * Properties *)

(** ** Numbers *)

Section NumberFacts.
Local Open Scope Q_scope.

Lemma Qltb_lt (x y : Q) : JS.Qltb x y = true <-> x < y.
Proof.
  unfold JS.Qltb. rewrite negb_true_iff.
  destruct (Qle_bool y x) eqn:E.
  - apply Qle_bool_iff in E. split; [discriminate | lra].
  - split; [intros _ | reflexivity].
    destruct (Qlt_le_dec x y) as [H | H]; [exact H |].
    apply Qle_bool_iff in H. congruence.
Qed.

Lemma Qltb_ge (x y : Q) : JS.Qltb x y = false <-> y <= x.
Proof.
  unfold JS.Qltb. rewrite negb_false_iff. apply Qle_bool_iff.
Qed.

Lemma Qceiling_unique (x : Q) (z : Z) :
  inject_Z (z - 1) < x -> x <= inject_Z z -> Qceiling x = z.
Proof.
  intros Hlo Hhi.
  pose proof (Qle_ceiling x) as H1. pose proof (Qceiling_lt x) as H2.
  assert (inject_Z (z - 1) < inject_Z (Qceiling x)) as A by lra.
  assert (inject_Z (Qceiling x - 1) < inject_Z z) as B by lra.
  rewrite <- Zlt_Qlt in A, B. lia.
Qed.

Lemma Qceiling_pred (x : Q) : Qceiling (x - 1) = (Qceiling x - 1)%Z.
Proof.
  apply Qceiling_unique.
  - pose proof (Qceiling_lt x) as H.
    unfold Z.sub in *. rewrite !inject_Z_plus, !inject_Z_opp in *.
    change (inject_Z 1) with 1 in *. lra.
  - pose proof (Qle_ceiling x) as H.
    unfold Z.sub. rewrite inject_Z_plus, inject_Z_opp.
    change (inject_Z 1) with 1. lra.
Qed.

Lemma Qtrunc_nonneg (q : Q) : 0 <= q -> JS.Qtrunc q = Qfloor q.
Proof.
  intros H. unfold JS.Qtrunc, Qfloor. destruct q as [n d]. simpl.
  apply Z.quot_div_nonneg; [| lia].
  unfold Qle in H. simpl in H. lia.
Qed.

Lemma Qfloor_nonneg (q : Q) : 0 <= q -> (0 <= Qfloor q)%Z.
Proof.
  intros H. rewrite <- (Qfloor_Z 0). apply Qfloor_resp_le. exact H.
Qed.
End NumberFacts.

(** ** The encoder *)

Lemma append_nil (b : string) : "" +:+ b = b.
Proof. reflexivity. Qed.

Lemma append_cons (x : ascii) (a b : string) : String x a +:+ b = String x (a +:+ b).
Proof. reflexivity. Qed.

Lemma append_assoc (a b c : string) : (a +:+ b) +:+ c = a +:+ (b +:+ c).
Proof.
  induction a as [| x a IH]; [reflexivity |].
  rewrite !append_cons, IH. reflexivity.
Qed.

Lemma append_length (a b : string) :
  String.length (a +:+ b) = (String.length a + String.length b)%nat.
Proof.
  induction a as [| x a IH]; [reflexivity |].
  rewrite append_cons. cbn [String.length]. rewrite IH. reflexivity.
Qed.

Lemma replaceAll_app (c : ascii) (r a b : string) :
  replaceAll c r (a +:+ b) = replaceAll c r a +:+ replaceAll c r b.
Proof.
  induction a as [| x a IH]; [reflexivity |].
  rewrite append_cons. cbn [replaceAll].
  destruct (Ascii.eqb x c); rewrite IH.
  - symmetry. apply append_assoc.
  - reflexivity.
Qed.

(** Escaping is a homomorphism for concatenation. *)
Lemma escapeXml_app (a b : string) : escapeXml (a +:+ b) = escapeXml a +:+ escapeXml b.
Proof. unfold escapeXml. rewrite !replaceAll_app. reflexivity. Qed.

Lemma escapeXml_char (c : ascii) : escapeXml (String c "") = escape_char c.
Proof. destruct c as [[] [] [] [] [] [] [] []]; reflexivity. Qed.

(** The five passes amount to one pass that maps each character on its own. *)
Lemma escapeXml_chars (s : string) : escapeXml s = escape_chars s.
Proof.
  induction s as [| c s IH]; [reflexivity |].
  change (String c s) with (String c "" +:+ s).
  rewrite escapeXml_app, escapeXml_char, IH. reflexivity.
Qed.

Lemma unescape_step (c : ascii) (rest : string) (fuel : nat) :
  unescape (S fuel) (escape_char c +:+ rest) = String c <$> unescape fuel rest.
Proof. destruct c as [[] [] [] [] [] [] [] []]; reflexivity. Qed.

Lemma escape_char_length (c : ascii) : (1 <= String.length (escape_char c))%nat.
Proof. destruct c as [[] [] [] [] [] [] [] []]; cbn; lia. Qed.

(** Reading the entities back gives the text that was escaped. *)
Lemma unescape_chars (s : string) : forall fuel,
  (String.length (escape_chars s) <= fuel)%nat ->
  unescape fuel (escape_chars s) = Some s.
Proof.
  induction s as [| c s IH]; intros fuel Hfuel.
  - destruct fuel; reflexivity.
  - cbn [escape_chars] in *. rewrite append_length in Hfuel.
    pose proof (escape_char_length c).
    destruct fuel as [| fuel]; [lia |].
    rewrite unescape_step, IH by lia. reflexivity.
Qed.

Lemma escapeXml_well_escaped (s : string) : well_escaped (escapeXml s) = true.
Proof.
  unfold well_escaped. rewrite escapeXml_chars, unescape_chars by lia.
  apply bool_decide_eq_true. eauto.
Qed.

Lemma string_forall_app P (a b : string) :
  string_forall P (a +:+ b) = string_forall P a && string_forall P b.
Proof.
  induction a as [| x a IH]; [reflexivity |].
  rewrite append_cons. cbn [string_forall]. rewrite IH, andb_assoc. reflexivity.
Qed.

(** No [<], [>], double or single quote is left in an escaped text. *)
Lemma escapeXml_no_markup (s : string) :
  string_forall (fun c => negb (markup c)) (escapeXml s) = true.
Proof.
  rewrite escapeXml_chars. induction s as [| c s IH]; [reflexivity |].
  cbn [escape_chars]. rewrite string_forall_app, IH, andb_true_r.
  destruct c as [[] [] [] [] [] [] [] []]; reflexivity.
Qed.

(** ** The batch planner *)

Lemma take_drop_middle {A} (l : list A) (n1 n2 : nat) :
  (n1 <= n2)%nat -> take (n2 - n1) (drop n1 l) ++ drop n2 l = drop n1 l.
Proof.
  intros H. replace n2 with (n1 + (n2 - n1))%nat at 2 by lia.
  rewrite <- drop_drop. apply take_drop.
Qed.

Section Planner.
Variable endpoints : list string.
Variable b : Q.
Hypothesis Hb : (1 <= b)%Q.

Local Abbreviation L := (inject_Z (Z.of_nat (length endpoints))).
Local Abbreviation fl q := (Z.to_nat (Qfloor q)).

Lemma slice_index_fin (q : Q) :
  (0 <= q)%Q ->
  JS.slice_index (length endpoints) (JS.Fin q)
  = Z.to_nat (Z.min (Qfloor q) (Z.of_nat (length endpoints))).
Proof.
  intros H. unfold JS.slice_index. rewrite (Qtrunc_nonneg q H).
  pose proof (Qfloor_nonneg q H).
  destruct (Z.ltb_spec (Qfloor q) 0); [lia | reflexivity].
Qed.

Lemma slice_index_len :
  JS.slice_index (length endpoints) (JS.of_nat (length endpoints)) = length endpoints.
Proof.
  unfold JS.of_nat, JS.of_Z. rewrite slice_index_fin.
  - rewrite Qfloor_Z. lia.
  - rewrite <- (Zle_Qle 0). lia.
Qed.

Lemma Math_max_0 (q : Q) :
  (0 <= q)%Q -> exists s, JS.Math_max (JS.of_Z 0) (JS.Fin q) = JS.Fin s /\ (s == q)%Q.
Proof.
  intros H. unfold JS.Math_max, JS.of_Z. simpl.
  destruct (JS.Qltb (inject_Z 0) q) eqn:E.
  - exists q. split; [reflexivity | reflexivity].
  - exists (inject_Z 0). split; [reflexivity |].
    apply Qltb_ge in E. change (inject_Z 0) with 0%Q in *. lra.
Qed.

(** A call that leaves endpoints for later. *)
Lemma plan_more (q : Q) :
  (0 <= q)%Q -> (q + b < L)%Q ->
  exists c, (c == q + b)%Q
    /\ plan_nextCursor (plan endpoints (JS.Fin b) (JS.Fin q)) = Some (JS.Fin c)
    /\ plan_batch (plan endpoints (JS.Fin b) (JS.Fin q))
       = take (fl (q + b) - fl q) (drop (fl q) endpoints).
Proof.
  intros H0 Hlt. unfold plan.
  destruct (Math_max_0 q H0) as (s & -> & Hs). simpl.
  unfold JS.Math_min, JS.of_nat, JS.of_Z. simpl.
  assert (JS.Qltb (s + b) L = true) as E by (apply Qltb_lt; lra).
  rewrite E. simpl. rewrite E.
  exists (s + b)%Q. split; [lra |]. split; [reflexivity |].
  unfold JS.slice. rewrite !slice_index_fin by lra.
  rewrite (Qfloor_comp s q Hs), (Qfloor_comp (s + b) (q + b)) by lra.
  assert (Qfloor (q + b) <= Z.of_nat (length endpoints)).
  { rewrite <- (Qfloor_Z (Z.of_nat (length endpoints))). apply Qfloor_resp_le. lra. }
  assert (Qfloor q <= Qfloor (q + b)) by (apply Qfloor_resp_le; lra).
  rewrite !Z.min_l by lia. reflexivity.
Qed.

(** The last call. *)
Lemma plan_last (q : Q) :
  (0 <= q)%Q -> (L <= q + b)%Q ->
  plan_nextCursor (plan endpoints (JS.Fin b) (JS.Fin q)) = None
  /\ plan_batch (plan endpoints (JS.Fin b) (JS.Fin q)) = drop (fl q) endpoints.
Proof.
  intros H0 Hge. unfold plan.
  destruct (Math_max_0 q H0) as (s & -> & Hs). simpl.
  unfold JS.Math_min, JS.of_nat, JS.of_Z. simpl.
  assert (JS.Qltb (s + b) L = false) as E by (apply Qltb_ge; lra).
  rewrite E. simpl.
  assert (JS.Qltb L L = false) as E' by (apply Qltb_ge; lra).
  rewrite E'. split; [reflexivity |].
  unfold JS.slice. fold (JS.of_Z (Z.of_nat (length endpoints))).
  fold (JS.of_nat (length endpoints)). rewrite slice_index_len.
  rewrite slice_index_fin by lra. rewrite (Qfloor_comp s q Hs).
  pose proof (Qfloor_nonneg q H0).
  destruct (Z.le_ge_cases (Qfloor q) (Z.of_nat (length endpoints))).
  - rewrite Z.min_l by lia. apply take_ge. rewrite length_drop. lia.
  - rewrite Z.min_r by lia. rewrite Nat2Z.id, Nat.sub_diag. simpl.
    symmetry. apply drop_ge. lia.
Qed.

(** The number of calls still to make from cursor [q]. *)
Local Abbreviation calls q := (Z.to_nat (Qceiling ((L - q) / b))).

Lemma calls_last (q : Q) : (q < L)%Q -> (L <= q + b)%Q -> calls q = 1%nat.
Proof.
  intros H1 H2. rewrite (Qceiling_unique _ 1); [reflexivity | |].
  - change (inject_Z (1 - 1)) with 0%Q. apply Qlt_shift_div_l; lra.
  - change (inject_Z 1) with 1%Q. apply Qle_shift_div_r; lra.
Qed.

Lemma calls_more (q c : Q) :
  (c == q + b)%Q -> (c < L)%Q -> calls q = S (calls c).
Proof.
  intros Hc Hlt.
  assert ((L - c) / b == (L - q) / b - 1)%Q as E by (rewrite Hc; field; lra).
  rewrite (Qceiling_comp _ _ E), Qceiling_pred.
  assert (0 < Qceiling ((L - q) / b - 1)).
  { rewrite <- (Qceiling_comp _ _ E). apply Z.lt_le_trans with (Qceiling ((L - c) / b)).
    2: lia.
    rewrite Zlt_Qlt. eapply Qlt_le_trans; [| apply Qle_ceiling].
    change (inject_Z 0) with 0%Q. apply Qlt_shift_div_l; lra. }
  rewrite Qceiling_pred in *. lia.
Qed.

Lemma paginate_S (fuel : nat) (budget cursor : JS.num) :
  paginate (S fuel) endpoints budget cursor
  = match plan_nextCursor (plan endpoints budget cursor) with
    | None => ([plan_batch (plan endpoints budget cursor)], None)
    | Some c =>
        let '(bs, rest) := paginate fuel endpoints budget c in
        (plan_batch (plan endpoints budget cursor) :: bs, rest)
    end.
Proof. reflexivity. Qed.

Lemma paginate_from (fuel : nat) : forall q : Q,
  (0 <= q)%Q -> (q < L)%Q -> (calls q <= fuel)%nat ->
  exists bs, paginate fuel endpoints (JS.Fin b) (JS.Fin q) = (bs, None)
    /\ length bs = calls q
    /\ concat bs = drop (fl q) endpoints.
Proof.
  induction fuel as [| fuel IH]; intros q H0 Hlt Hfuel.
  - destruct (Qlt_le_dec (q + b) L) as [Hm | Hl].
    + destruct (plan_more q H0 Hm) as (c & Hc & _).
      rewrite (calls_more q c) in Hfuel by (try lra; assumption). lia.
    + rewrite calls_last in Hfuel by assumption. lia.
  - rewrite paginate_S. destruct (Qlt_le_dec (q + b) L) as [Hm | Hl].
    + destruct (plan_more q H0 Hm) as (c & Hc & -> & ->).
      rewrite (calls_more q c) in * by (try lra; assumption).
      destruct (IH c) as (bs & -> & Hlen & Hcat); [lra | lra | lia |].
      eexists. split; [reflexivity |]. split; [cbn [length]; lia |].
      cbn [concat]. rewrite Hcat, (Qfloor_comp c (q + b) Hc).
      assert (Qfloor q <= Qfloor (q + b)) by (apply Qfloor_resp_le; lra).
      pose proof (Qfloor_nonneg q H0).
      apply take_drop_middle. lia.
    + destruct (plan_last q H0 Hl) as (-> & ->).
      eexists. split; [reflexivity |]. rewrite calls_last by assumption.
      split; [reflexivity |]. cbn [concat]. apply app_nil_r.
Qed.

Lemma paginate_early (fuel : nat) : forall q : Q,
  (0 <= q)%Q -> (q < L)%Q -> (fuel < calls q)%nat ->
  (paginate fuel endpoints (JS.Fin b) (JS.Fin q)).2 <> None.
Proof.
  induction fuel as [| fuel IH]; intros q H0 Hlt Hfuel; [discriminate |].
  rewrite paginate_S. destruct (Qlt_le_dec (q + b) L) as [Hm | Hl].
  - destruct (plan_more q H0 Hm) as (c & Hc & -> & _).
    rewrite (calls_more q c) in * by (try lra; assumption).
    specialize (IH c). destruct (paginate fuel endpoints (JS.Fin b) (JS.Fin c)).
    simpl in *. apply IH; [lra | lra | lia].
  - rewrite calls_last in Hfuel by assumption. lia.
Qed.
End Planner.


(** ** The worker pool *)

Section RunPoolFacts.
Context {T Susp R K : Type}.
Variable items : list T.
Variable fn : task T Susp R.
Variable net : network.
Variable tag_t : T -> K.
Variable tag_s : Susp -> K.
Variable tag_r : R -> K.
Variable ev : T -> event.

(** [fn] sends one request when it starts and has no other effect. *)
Hypothesis start_spec : forall item w, exists s,
  start fn item w
  = (s, {| kv := kv w; clock := clock w; trace := trace w ++ [ev item] |})
  /\ tag_s s = tag_t item.
Hypothesis finish_spec : forall s r w, exists x,
  finish fn s r w = (x, w) /\ tag_r x = tag_s s.

Local Abbreviation pool_inv := (pool_inv items tag_t tag_s tag_r ev).
Local Abbreviation exhausted := (exhausted items).

Lemma pull_inv w0 p w :
  pool_inv w0 p w ->
  exists p' w', pull items fn p w = (p', w')
    /\ pool_inv w0 p' w' /\ exhausted p' /\ results p' = results p.
Proof.
  intros [Hkv Htr Htg]. unfold pull.
  destruct (items !! i p) as [item |] eqn:E.
  - destruct (start_spec item w) as (s & Hs & Htag).
    unfold bind. rewrite Hs. eexists _, _. split; [reflexivity |].
    split; [| split; [| reflexivity]].
    + split; simpl.
      * exact Hkv.
      * rewrite Htr, (take_S_r _ _ _ E), map_app, <- app_assoc. reflexivity.
      * rewrite (take_S_r _ _ _ E), !map_app, app_assoc, Htg. simpl.
        rewrite Htag. reflexivity.
    + intros H. simpl in H. destruct (inflight p); discriminate.
  - apply lookup_ge_None in E.
    eexists _, _. split; [reflexivity |].
    split; [| split; [| reflexivity]].
    + split; simpl.
      * exact Hkv.
      * rewrite Htr, !take_ge by lia. reflexivity.
      * rewrite Htg, !take_ge by lia. reflexivity.
    + intros _. simpl. lia.
Qed.

Lemma spawn_inv n : forall w0 p w,
  pool_inv w0 p w -> (0 < n)%nat ->
  exists p' w', spawn items fn n p w = (p', w')
    /\ pool_inv w0 p' w' /\ exhausted p' /\ results p' = results p.
Proof.
  induction n as [| n IH]; intros w0 p w Hinv Hn; [lia |].
  simpl. unfold bind.
  destruct (pull_inv w0 p w Hinv) as (p1 & w1 & -> & Hinv1 & Hex1 & Hr1).
  destruct n as [| n'].
  - eexists _, _. split; [reflexivity |]. auto.
  - destruct (IH w0 p1 w1 Hinv1) as (p2 & w2 & E & ? & ? & ?); [lia |].
    rewrite E. eexists _, _. split; [reflexivity |].
    split; [assumption |]. split; [assumption | congruence].
Qed.

Lemma settle_inv w0 step p w :
  pool_inv w0 p w -> inflight p <> [] ->
  exists p' w', settle items fn net step p w = (p', w')
    /\ pool_inv w0 p' w' /\ exhausted p'
    /\ length (results p') = S (length (results p)).
Proof.
  intros [Hkv Htr Htg] Hne. unfold settle.
  assert (pick (net step) mod length (inflight p) < length (inflight p))%nat as Hk.
  { apply Nat.mod_upper_bound. destruct (inflight p); [congruence | discriminate]. }
  destruct (lookup_lt_is_Some_2 _ _ Hk) as [s Es]. rewrite Es.
  unfold bind at 1. unfold advance at 1.
  set (w1 := {| kv := kv w; clock := _; trace := trace w |}).
  unfold bind at 1.
  destruct (finish_spec s (reply (net step)) w1) as (x & -> & Htag).
  set (p1 := {| i := i p; results := results p ++ [x]; inflight := _ |}).
  destruct (pull_inv w0 p1 w1) as (p2 & w2 & E & Hinv & Hex & Hres).
  - split; simpl; [exact Hkv | exact Htr |].
    rewrite map_app, <- Htg, <- app_assoc. apply Permutation_app_head.
    simpl. rewrite Htag.
    change (tag_s s :: map tag_s (delete (pick (net step) mod length (inflight p))%nat (inflight p)))
      with (map tag_s (s :: delete (pick (net step) mod length (inflight p))%nat (inflight p))).
    apply Permutation_map. symmetry. apply delete_Permutation. exact Es.
  - rewrite E. eexists _, _. split; [reflexivity |].
    split; [assumption |]. split; [assumption |].
    rewrite Hres. simpl. rewrite length_app. simpl. lia.
Qed.

Lemma inv_count w0 p w :
  pool_inv w0 p w ->
  (length (results p) + length (inflight p) <= length items)%nat.
Proof.
  intros [_ _ Htg]. apply Permutation_length in Htg.
  rewrite length_app, !length_map, length_take in Htg. lia.
Qed.

Lemma drain_inv fuel : forall w0 step p w,
  pool_inv w0 p w -> exhausted p ->
  (length items <= length (results p) + fuel)%nat ->
  exists p' w', drain items fn net fuel step p w = (p', w')
    /\ pool_inv w0 p' w' /\ exhausted p' /\ inflight p' = [].
Proof.
  induction fuel as [| fuel IH]; intros w0 step p w Hinv Hex Hfuel.
  - simpl. eexists _, _. split; [reflexivity |].
    split; [assumption |]. split; [assumption |].
    pose proof (inv_count w0 p w Hinv).
    destruct (inflight p); [reflexivity | simpl in *; lia].
  - simpl. destruct (inflight p) eqn:E.
    + eexists _, _. split; [reflexivity |]. auto.
    + unfold bind.
      destruct (settle_inv w0 step p w Hinv) as (p1 & w1 & -> & Hinv1 & Hex1 & Hlen);
        [congruence |].
      apply IH; [assumption | assumption | lia].
Qed.

Lemma run_pool_complete size w :
  exists p w', run_pool items fn net size w = (p, w')
    /\ inflight p = []
    /\ map tag_r (results p) ≡ₚ map tag_t (taken items size)
    /\ kv w' = kv w
    /\ trace w' = trace w ++ map ev (taken items size).
Proof.
  unfold run_pool, taken.
  set (p0 := {| i := 0; results := []; inflight := [] |}).
  assert (pool_inv w p0 w) as H0.
  { split; simpl; [reflexivity | | reflexivity]. symmetry. apply app_nil_r. }
  unfold bind. destruct (workers items size) as [| n] eqn:En.
  - simpl. assert (drain items fn net (length items) 0 p0 w = (p0, w)) as ->.
    { destruct (length items); reflexivity. }
    eexists _, _. split; [reflexivity |]. simpl.
    rewrite app_nil_r. auto.
  - destruct (spawn_inv (S n) w p0 w H0) as (p1 & w1 & -> & Hinv1 & Hex1 & Hr1); [lia |].
    destruct (drain_inv (length items) w 0 p1 w1 Hinv1 Hex1) as
      (p2 & w2 & -> & [Hkv Htr Htg] & Hex2 & Hdone); [lia |].
    eexists _, _. split; [reflexivity |]. split; [assumption |].
    specialize (Hex2 Hdone). rewrite take_ge in Htr, Htg by lia.
    rewrite Hdone in Htg. simpl in Htg. rewrite app_nil_r in Htg. auto.
Qed.
End RunPoolFacts.

Lemma to_length_pos (q : Q) : (1 <= q)%Q -> (0 < JS.to_length (JS.Fin q))%nat.
Proof.
  intros H. unfold JS.to_length. rewrite Qtrunc_nonneg by lra.
  assert (1 <= Qfloor q) by (rewrite <- (Qfloor_Z 1); apply Qfloor_resp_le; exact H).
  lia.
Qed.

(** A pool asked for at least one worker takes every item. *)
Lemma taken_all {T} (items : list T) (size : JS.num) :
  JS.leb (JS.of_Z 1) size = true -> taken items size = items.
Proof.
  intros H. unfold taken. destruct (workers items size) eqn:E; [| reflexivity].
  destruct items as [| x items]; [reflexivity | exfalso].
  unfold workers in E.
  assert (1 <= inject_Z (Z.of_nat (length (x :: items))))%Q as Hl.
  { rewrite <- (Zle_Qle 1). simpl. lia. }
  destruct size as [| | | q]; try discriminate.
  - change (JS.Math_min JS.PosInf (JS.of_nat (length (x :: items))))
      with (JS.Fin (inject_Z (Z.of_nat (length (x :: items))))) in E.
    pose proof (to_length_pos _ Hl) as Hp. rewrite E in Hp. lia.
  - apply Qle_bool_iff in H. change (inject_Z 1) with 1%Q in H.
    unfold JS.Math_min, JS.of_nat, JS.of_Z in E. cbn [JS.is_nan orb JS.ltb] in E.
    destruct (JS.Qltb _ q).
    + pose proof (to_length_pos _ Hl) as Hp. rewrite E in Hp. lia.
    + pose proof (to_length_pos _ H) as Hp. rewrite E in Hp. lia.
Qed.

(** A pool without a worker takes nothing. *)
Lemma taken_nan {T} (items : list T) : taken items JS.NaN = [].
Proof. reflexivity. Qed.

Section PingPool.
Variable body : string.
Variable verbose : bool.

Lemma ping_start (url : string) (w : world) : exists s,
  start (pingWithTimeout body verbose) url w
  = (s, {| kv := kv w; clock := clock w; trace := trace w ++ [PingSent url body] |})
  /\ s.1 = url.
Proof. exists (url, clock w). split; reflexivity. Qed.

Lemma ping_finish (s : string * Z) (r : response) (w : world) : exists x,
  finish (pingWithTimeout body verbose) s r w = (x, w) /\ PingResult.url x = s.1.
Proof. destruct s as [url started], r; eexists; split; reflexivity. Qed.

(** The pool of [doPing]: it completes, the store is untouched, every URL
    taken is sent once, in order, and has one row. *)
Lemma ping_pool (batch : list string) (net : network) (size : JS.num) (w : world) :
  exists p w',
    run_pool batch (pingWithTimeout body verbose) net size w = (p, w')
    /\ inflight p = []
    /\ map PingResult.url (results p) ≡ₚ taken batch size
    /\ kv w' = kv w
    /\ trace w' = trace w ++ map (fun u => PingSent u body) (taken batch size).
Proof.
  destruct (run_pool_complete batch (pingWithTimeout body verbose) net
              (fun u => u) fst PingResult.url (fun u => PingSent u body)
              ping_start ping_finish size w)
    as (p & w' & E & Hdone & Htags & Hkv & Htr).
  exists p, w'. rewrite map_id in Htags. auto.
Qed.
End PingPool.

(** ** The orchestrator *)

Lemma kv_get_run (key : string) (w : world) :
  kv_get key w
  = (kv_read w key, {| kv := kv w; clock := clock w; trace := trace w ++ [KvGet key] |}).
Proof. reflexivity. Qed.

Lemma kv_put_run (key : string) (v : kvval) (ttl : option Z) (w : world) :
  kv_put key v ttl w
  = (tt, {| kv := <[key := {| value := v;
                              expires := (fun s => clock w + s * 1000) <$> ttl |}]> (kv w);
            clock := clock w;
            trace := trace w ++ [KvPut key v ttl] |}).
Proof. reflexivity. Qed.

Section DoPing.
Variable env : RuntimeEnv.
Variable payload : PingPayload.
Variable opts : PingOpts.
Variable net : network.

Local Abbreviation dryRun := (default false (o_dryRun opts)).
Local Abbreviation only := (default "all" (o_only opts)).

Local Abbreviation run_endpoints := (run_endpoints env payload opts).
Local Abbreviation run_batch := (run_batch env payload opts).
Local Abbreviation run_body := (run_body env payload).
Local Abbreviation run_pinged := (run_pinged env payload opts).
Local Abbreviation summary_value := (summary_value env payload).

Lemma doPing_skipped (w : world) :
  dryRun = false -> text_truthy (kv_read w RL_KEY) = true ->
  doPing env payload opts net w
  = (Skipped "rate-limited (<=1/hour)",
     {| kv := kv w; clock := clock w; trace := trace w ++ [KvGet RL_KEY] |}).
Proof.
  intros Hdry Hrl. unfold doPing. rewrite Hdry. unfold bind at 1.
  unfold bind at 1. rewrite kv_get_run. unfold ret at 1. rewrite Hrl. reflexivity.
Qed.

Lemma doPing_dry (w : world) :
  dryRun = true ->
  exists raw w',
    doPing env payload opts net w
    = (Done (report_of env payload opts (run_endpoints w) (filter_only only raw)), w')
    /\ map PingResult.url raw ≡ₚ run_pinged w
    /\ kv w' = kv w
    /\ trace w' = trace w ++ [KvGet ENDPOINTS_KEY]
                  ++ map (fun u => PingSent u run_body) (run_pinged w).
Proof.
  intros Hdry. unfold doPing. rewrite Hdry. unfold bind at 1. unfold ret at 1.
  unfold bind at 1. rewrite kv_get_run.
  set (w1 := {| kv := kv w; clock := clock w; trace := _ |}).
  unfold bind at 1. unfold ret at 1. unfold bind at 1.
  fold (run_endpoints w). fold (run_batch w). fold run_body.
  destruct (ping_pool run_body (default false (o_verbose opts)) (run_batch w) net
              (max_concurrency env opts) w1) as (p & w2 & E & _ & Htags & Hkv & Htr).
  unfold runPool, bind at 1. rewrite E. unfold ret at 1.
  exists (results p), w2. split; [reflexivity |].
  split; [exact Htags |]. split; [exact Hkv |].
  rewrite Htr. unfold w1. simpl. rewrite <- app_assoc. reflexivity.
Qed.

Lemma doPing_real (w : world) :
  dryRun = false -> text_truthy (kv_read w RL_KEY) = false ->
  exists raw w',
    doPing env payload opts net w
    = (Done (report_of env payload opts (run_endpoints w) (filter_only only raw)), w')
    /\ map PingResult.url raw ≡ₚ run_pinged w
    /\ kv w'
       = <[LAST_RESULT_KEY :=
             {| value := summary_value (clock w') (filter_only only raw);
                expires := Some (clock w' + WEEK_TTL * 1000) |}]>
           (<[RL_KEY := {| value := rl_value w;
                           expires := Some (clock w + HOUR * 1000) |}]> (kv w))
    /\ trace w'
       = trace w ++ [KvGet RL_KEY; KvGet ENDPOINTS_KEY;
                     KvPut RL_KEY (rl_value w) (Some HOUR)]
         ++ map (fun u => PingSent u run_body) (run_pinged w)
         ++ [KvPut LAST_RESULT_KEY (summary_value (clock w') (filter_only only raw))
                   (Some WEEK_TTL)].
Proof.
  intros Hdry Hrl. unfold doPing. rewrite Hdry. unfold bind at 1.
  unfold bind at 1. rewrite kv_get_run. unfold ret at 1. rewrite Hrl.
  set (w1 := {| kv := kv w; clock := clock w; trace := _ |}).
  unfold bind at 1. rewrite kv_get_run.
  set (w2 := {| kv := kv w1; clock := clock w1; trace := _ |}).
  change (kv_read w1 ENDPOINTS_KEY) with (kv_read w ENDPOINTS_KEY).
  fold (run_endpoints w). fold (run_batch w). fold run_body.
  unfold bind at 1. unfold bind at 1. unfold Date_now at 1. rewrite kv_put_run.
  set (w3 := {| kv := _; clock := clock w2; trace := _ |}).
  destruct (ping_pool run_body (default false (o_verbose opts)) (run_batch w) net
              (max_concurrency env opts) w3) as (p & w4 & E & _ & Htags & Hkv & Htr).
  unfold bind at 1. unfold runPool, bind at 1. rewrite E. unfold ret at 1.
  unfold bind at 1. unfold bind at 1. unfold Date_now at 1. rewrite kv_put_run.
  unfold ret.
  eexists (results p), _. split; [reflexivity |].
  split; [exact Htags |]. simpl. rewrite Hkv, Htr. split; [reflexivity |].
  unfold w3, w2, w1. simpl. rewrite <- !app_assoc. reflexivity.
Qed.
End DoPing.


(** ** The clamps *)

Lemma clamp_numeric (x : JS.num) (hi : Z) :
  JS.is_nan x = false -> 1 <= hi ->
  exists q, JS.Math_max (JS.of_Z 1) (JS.Math_min x (JS.of_Z hi)) = JS.Fin q
    /\ (1 <= q)%Q /\ (q <= inject_Z hi)%Q.
Proof.
  intros Hx Hhi.
  assert (1 <= inject_Z hi)%Q as Hq by (rewrite <- (Zle_Qle 1); exact Hhi).
  unfold JS.Math_max, JS.Math_min, JS.of_Z. change (inject_Z 1) with 1%Q.
  destruct x as [| | | q]; try discriminate; cbn [JS.is_nan orb JS.ltb].
  - exists 1%Q. split; [reflexivity | lra].
  - cbn [JS.is_nan orb JS.ltb].
    destruct (JS.Qltb 1 (inject_Z hi)) eqn:E; [| apply Qltb_ge in E];
      eexists; (split; [reflexivity | lra]).
  - destruct (JS.Qltb (inject_Z hi) q) eqn:E; cbn [JS.is_nan orb JS.ltb].
    + destruct (JS.Qltb 1 (inject_Z hi)) eqn:E'; [| apply Qltb_ge in E'];
        eexists; (split; [reflexivity | lra]).
    + apply Qltb_ge in E.
      destruct (JS.Qltb 1 q) eqn:E'; [apply Qltb_lt in E' | apply Qltb_ge in E'];
        eexists; (split; [reflexivity | lra]).
Qed.

(** A numeric [SUBREQ_BUDGET] (or none) is clamped into [1, 1000]. *)
Lemma subreq_budget_clamped (env : RuntimeEnv) :
  JS.is_nan (Number_or (SUBREQ_BUDGET env) 45) = false ->
  exists b, subreq_budget env = JS.Fin b /\ (1 <= b)%Q /\ (b <= 1000)%Q.
Proof.
  intros H. destruct (clamp_numeric _ 1000 H) as (q & E & H1 & H2); [lia |].
  exists q. split; [exact E |]. change (inject_Z 1000) with 1000%Q in H2. lra.
Qed.

(** A numeric concurrency is clamped into [1, 6]. *)
Lemma max_concurrency_clamped (env : RuntimeEnv) (opts : PingOpts) :
  JS.is_nan (default (Number_or (PING_CONCURRENCY env) 6) (o_concurrency opts)) = false ->
  exists c, max_concurrency env opts = JS.Fin c /\ (1 <= c)%Q /\ (c <= 6)%Q.
Proof.
  intros H. unfold max_concurrency.
  assert (JS.is_nan (default (JS.Math_max (JS.of_Z 1)
            (JS.Math_min (Number_or (PING_CONCURRENCY env) 6) (JS.of_Z 10)))
            (o_concurrency opts)) = false) as Hc.
  { destruct (o_concurrency opts) as [c |]; simpl in *; [exact H |].
    destruct (clamp_numeric _ 10 H) as (q & -> & _); [lia | reflexivity]. }
  destruct (clamp_numeric _ 6 Hc) as (q & E & H1 & H2); [lia |].
  exists q. split; [exact E |]. change (inject_Z 6) with 6%Q in H2. lra.
Qed.

(** ** A cursor at or past the end *)

Section PastTheEnd.
Variable endpoints : list string.
Variable b : Q.
Hypothesis Hb : (1 <= b)%Q.
Variable cursor : JS.num.
Hypothesis Hcursor : JS.leb (JS.of_nat (length endpoints)) cursor = true.

Local Abbreviation len := (JS.of_nat (length endpoints)).
Local Abbreviation L := (inject_Z (Z.of_nat (length endpoints))).

Lemma L_nonneg : (0 <= L)%Q.
Proof. rewrite <- (Zle_Qle 0). lia. Qed.

Lemma start_past : 
  JS.Math_max (JS.of_Z 0) cursor = JS.PosInf
  \/ exists s, JS.Math_max (JS.of_Z 0) cursor = JS.Fin s /\ (L <= s)%Q.
Proof.
  pose proof L_nonneg as HL.
  destruct cursor as [| | | c]; try discriminate.
  - left. reflexivity.
  - right. apply Qle_bool_iff in Hcursor.
    unfold JS.Math_max, JS.of_Z. cbn [JS.is_nan orb JS.ltb].
    change (inject_Z 0) with 0%Q.
    destruct (JS.Qltb 0 c) eqn:E; [| apply Qltb_ge in E];
      eexists; (split; [reflexivity | lra]).
Qed.

Lemma plan_past :
  let p := plan endpoints (JS.Fin b) cursor in
  plan_batch p = [] /\ plan_nextCursor p = None /\ plan_end p = len
  /\ JS.leb (plan_end p) (plan_start p) = true
  /\ JS.ltb (plan_end p) (plan_start p) = JS.ltb len cursor.
Proof.
  pose proof L_nonneg as HL. unfold plan. cbn zeta.
  cbn [plan_batch plan_nextCursor plan_end plan_start].
  assert (JS.ltb len len = false) as Hll by (apply Qltb_ge; lra).
  destruct start_past as [Es | (s & Es & Hs)].
  - rewrite Es. change (JS.Math_min len (JS.add JS.PosInf (JS.Fin b))) with len.
    rewrite Hll. split; [| split; [reflexivity | split; [reflexivity |]]].
    + unfold JS.slice. cbn [JS.slice_index].
      rewrite (slice_index_len endpoints), Nat.sub_diag. reflexivity.
    + split; [reflexivity |].
      destruct cursor as [| | | c]; try discriminate; [reflexivity |].
      unfold JS.Math_max, JS.of_Z in Es. cbn [JS.is_nan orb JS.ltb] in Es.
      destruct (JS.Qltb (inject_Z 0) c); discriminate.
  - rewrite Es. cbn [JS.add].
    assert (JS.Math_min len (JS.Fin (s + b)) = len) as ->.
    { unfold JS.Math_min, JS.of_nat, JS.of_Z. cbn [JS.is_nan orb JS.ltb].
      assert (JS.Qltb (s + b) L = false) as -> by (apply Qltb_ge; lra). reflexivity. }
    rewrite Hll. split; [| split; [reflexivity | split; [reflexivity |]]].
    + unfold JS.slice. rewrite (slice_index_len endpoints).
      rewrite (slice_index_fin endpoints s) by lra.
      assert (Z.of_nat (length endpoints) <= Qfloor s).
      { rewrite <- (Qfloor_Z (Z.of_nat (length endpoints))). apply Qfloor_resp_le. exact Hs. }
      rewrite Z.min_r by lia. rewrite Nat2Z.id, Nat.sub_diag. reflexivity.
    + split; [apply Qle_bool_iff; exact Hs |].
      destruct cursor as [| | | c]; try discriminate.
      unfold JS.Math_max, JS.of_Z in Es. cbn [JS.is_nan orb JS.ltb] in Es.
      apply Qle_bool_iff in Hcursor.
      destruct (JS.Qltb (inject_Z 0) c) eqn:E; injection Es as <-; [reflexivity |].
      apply Qltb_ge in E. change (inject_Z 0) with 0%Q in *.
      unfold JS.of_nat, JS.of_Z. cbn [JS.ltb].
      assert (JS.Qltb L 0 = false) as -> by (apply Qltb_ge; lra).
      symmetry. apply Qltb_ge. lra.
Qed.
End PastTheEnd.

(** ** The manual trigger *)

Lemma fetch_post (request : Request) (env : RuntimeEnv) (net : network) (w : world) :
  authorised_post request env -> r_body request <> JsonNull ->
  fetch request env net w
  = let '(res, w1) := doPing env (r_json request) (fetch_opts request) net w in
    let dry := opt_eqb (searchParams_get (r_search request) "dry") "1" in
    (reply_of request res,
     {| kv := <[persisted_key dry :=
                  {| value := VResult (clock w1) None res;
                     expires := Some (clock w1 + persisted_ttl dry * 1000) |}]> (kv w1);
        clock := clock w1;
        trace := trace w1 ++ [KvPut (persisted_key dry) (VResult (clock w1) None res)
                                    (Some (persisted_ttl dry))] |}).
Proof.
  intros [Hm Ha] Hb. unfold fetch, fetch_opts, r_json. rewrite Hm, Ha.
  destruct (r_body request) as [| body]; [congruence |].
  change (String.eqb "POST" "GET") with false.
  change (String.eqb "POST" "POST") with true.
  cbn [andb negb truthy_opt opt_eqb orb]. rewrite String.eqb_refl.
  change (JS.truthy ("Bearer " +:+ XMLRPC_PING_SECRET env)) with true.
  cbn [andb negb orb]. unfold bind at 1.
  destruct (doPing env body _ net w) as [res w1].
  unfold bind at 1. unfold Date_now at 1.
  unfold reply_of, persisted_key, persisted_ttl.
  destruct (opt_eqb (searchParams_get (r_search request) "dry") "1");
    cbn [negb]; unfold bind at 1; rewrite kv_put_run; reflexivity.
Qed.

(** ** The cron trigger *)

Lemma detect_frame (env : RuntimeEnv) (api : api_reply) (w : world) :
  exists r evs,
    detect env api w = (r, {| kv := kv w; clock := clock w; trace := trace w ++ evs |})
    /\ Forall (fun e => is_detector_call e = true) evs.
Proof.
  assert (forall r : outcome (option string), (r, w) = (r, {| kv := kv w; clock := clock w; trace := trace w ++ [] |}))
    as Hnil by (intros r; rewrite app_nil_r; destruct w; reflexivity).
  unfold detect. destruct (String.eqb _ "cloudflare").
  - unfold latestCloudflareDeploy.
    destruct (id_of (CLOUDFLARE_API_TOKEN env)), (id_of (CLOUDFLARE_ACCOUNT_ID env)),
      (id_of (CLOUDFLARE_PAGES_PROJECT env));
      try (eexists _, []; split; [apply Hnil | constructor]).
    destruct api as [| [] [[sha | [| first rest]] |]];
      (eexists _, [_]; split; [reflexivity | repeat constructor]).
  - unfold latestGithubCommit.
    destruct (id_of (GITHUB_REPO env));
      try (eexists _, []; split; [apply Hnil | constructor]).
    destruct api as [| [] [[sha | ds] |]];
      (eexists _, [_]; split; [reflexivity | repeat constructor]).
Qed.

Lemma id_of_truthy (v : option string) (s : string) :
  id_of v = Some s -> JS.truthy s = true.
Proof.
  destruct v as [t |]; [| discriminate]. unfold id_of.
  destruct (JS.truthy t) eqn:E; [| discriminate]. intros [= <-]. exact E.
Qed.

(** The id a detector returns is not empty. *)
Lemma detect_truthy (env : RuntimeEnv) (api : api_reply) (w w1 : world) (id : string) :
  detect env api w = (Returned (Some id), w1) -> JS.truthy id = true.
Proof.
  unfold detect. destruct (String.eqb _ "cloudflare").
  - unfold latestCloudflareDeploy.
    destruct (id_of (CLOUDFLARE_API_TOKEN env)), (id_of (CLOUDFLARE_ACCOUNT_ID env)),
      (id_of (CLOUDFLARE_PAGES_PROJECT env)); try discriminate.
    destruct api as [| [] [[sha | [| first rest]] |]]; try discriminate.
    intros [= H _]. exact (id_of_truthy _ _ H).
  - unfold latestGithubCommit.
    destruct (id_of (GITHUB_REPO env)); try discriminate.
    destruct api as [| [] [[sha | ds] |]]; try discriminate.
    intros [= H _]. exact (id_of_truthy _ _ H).
Qed.

Lemma scheduled_unchanged (env : RuntimeEnv) (api : api_reply) (net : network)
    (w w1 : world) (id : string) :
  detect env api w = (Returned (Some id), w1) ->
  kv_read w LAST_KEY = Some (VText id) ->
  scheduled env api net w
  = (tt, {| kv := kv w1; clock := clock w1; trace := trace w1 ++ [KvGet LAST_KEY] |})
  /\ kv w1 = kv w.
Proof.
  intros Hd Hseen.
  destruct (detect_frame env api w) as (r & evs & E & _).
  rewrite Hd in E. injection E as Er Ew.
  unfold scheduled, bind at 1. rewrite Hd.
  rewrite (detect_truthy env api w w1 id Hd). cbn [negb].
  unfold bind at 1. rewrite kv_get_run.
  assert (kv_read w1 LAST_KEY = kv_read w LAST_KEY) as -> by (rewrite Ew; reflexivity).
  rewrite Hseen. cbn [text_is]. rewrite String.eqb_refl.
  split; [reflexivity | rewrite Ew; reflexivity].
Qed.

(** ** Claims *)

(** *** Rounding to binary64 *)

Section Binary64.
Local Open Scope Q_scope.

Lemma pow2_nonneg (k : Z) : (0 <= k)%Z -> JS64.pow2 k == inject_Z (2 ^ k).
Proof.
  intros Hk. unfold JS64.pow2. rewrite Zpower_Qpower by exact Hk. reflexivity.
Qed.

Lemma pow2_neg (k : Z) : (0 <= k)%Z -> JS64.pow2 (- k) == / inject_Z (2 ^ k).
Proof.
  intros Hk. unfold JS64.pow2. rewrite Qpower_opp, Zpower_Qpower by exact Hk. reflexivity.
Qed.

Lemma round_even_Z (x : Q) (z : Z) : x == inject_Z z -> JS64.round_even x = z.
Proof.
  intros Hx. unfold JS64.round_even.
  assert (Qfloor x = z) as -> by (rewrite Hx; apply Qfloor_Z).
  assert (JS.Qltb (x - inject_Z z) (1 # 2) = true) as -> by (apply Qltb_lt; lra).
  reflexivity.
Qed.

Lemma abs_Z (x : Q) (z : Z) : x == inject_Z z -> JS64.abs x == inject_Z (Z.abs z).
Proof.
  intros Hx. unfold JS64.abs. destruct (Qle_bool 0 x) eqn:E.
  - apply Qle_bool_iff in E. rewrite Hx in E. rewrite <- (Zle_Qle 0) in E.
    rewrite Z.abs_eq by exact E. exact Hx.
  - assert (~ 0 <= x) as E' by (rewrite <- Qle_bool_iff, E; discriminate).
    rewrite Hx in E'. rewrite <- (Zle_Qle 0) in E'.
    rewrite Z.abs_neq by lia. rewrite inject_Z_opp, Hx. reflexivity.
Qed.

Lemma round_even_between (x : Q) (lo hi : Z) :
  inject_Z lo <= x -> x <= inject_Z hi -> (lo <= JS64.round_even x <= hi)%Z.
Proof.
  intros Hlo Hhi. unfold JS64.round_even.
  pose proof (Qfloor_le x) as Hf. pose proof (Qlt_floor x) as Hf'.
  assert (lo <= Qfloor x)%Z as H1.
  { rewrite <- (Qfloor_Z lo). apply Qfloor_resp_le. exact Hlo. }
  assert (Qfloor x <= hi)%Z as H2.
  { rewrite <- (Qfloor_Z hi). apply Qfloor_resp_le. exact Hhi. }
  destruct (JS.Qltb (x - inject_Z (Qfloor x)) (1 # 2)) eqn:E; [lia |].
  apply Qltb_ge in E.
  assert (inject_Z (Qfloor x) < inject_Z hi) as H3 by lra.
  rewrite <- Zlt_Qlt in H3.
  destruct (JS.Qltb (1 # 2) (x - inject_Z (Qfloor x))); [lia |].
  destruct (Z.even (Qfloor x)); lia.
Qed.

Lemma ilog2_small (q : Q) : 0 < q -> q < inject_Z (2 ^ 53) -> (JS64.ilog2 q <= 52)%Z.
Proof.
  destruct q as [n d]. unfold Qlt. cbn [Qnum Qden inject_Z]. rewrite !Z.mul_1_r.
  intros Hpos Hlt. unfold JS64.ilog2. cbn [Qnum Qden].
  rewrite Z.abs_eq by lia.
  set (a := Z.log2 n). set (b := Z.log2 (Z.pos d)).
  assert (2 ^ a <= n)%Z as Ha by (apply Z.log2_spec; lia).
  assert (Z.pos d < 2 ^ (b + 1))%Z as Hb.
  { replace (b + 1)%Z with (Z.succ b) by lia. apply Z.log2_spec. lia. }
  assert (0 <= a)%Z as Ha0 by apply Z.log2_nonneg.
  assert (0 <= b)%Z as Hb0 by apply Z.log2_nonneg.
  assert (a - b <= 53)%Z as He0.
  { destruct (Z.le_gt_cases (a - b) 53) as [H | H]; [exact H | exfalso].
    assert (2 ^ (b + 54) <= 2 ^ a)%Z by (apply Z.pow_le_mono_r; lia).
    assert (2 ^ (b + 54) = 2 ^ 53 * 2 ^ (b + 1))%Z as E.
    { rewrite <- Z.pow_add_r by lia. f_equal. lia. }
    nia. }
  destruct (Qle_bool (JS64.pow2 (a - b)) (JS64.abs (n # d))) eqn:E; [| lia].
  destruct (Z.le_gt_cases (a - b) 52) as [H | H]; [exact H | exfalso].
  assert (a - b = 53)%Z as E53 by lia. rewrite E53 in E.
  apply Qle_bool_iff in E. unfold JS64.abs in E.
  assert (Qle_bool 0 (n # d) = true) as E0.
  { apply Qle_bool_iff. unfold Qle. cbn. lia. }
  rewrite E0 in E. rewrite pow2_nonneg in E by lia.
  unfold Qle in E. cbn [Qnum Qden inject_Z] in E. lia.
Qed.

(** Rounding keeps a positive number between the integers below 2^53 that
    enclose it. *)
Lemma round_between (q : Q) (lo hi : Z) :
  (0 < lo)%Z -> inject_Z lo <= q -> q <= inject_Z hi -> (hi < 2 ^ 53)%Z ->
  exists r, JS64.round q = JS.Fin r /\ inject_Z lo <= r /\ r <= inject_Z hi.
Proof.
  intros H0 Hlo Hhi H53.
  assert (0 < inject_Z lo) as H0'.
  { rewrite <- (Zlt_Qlt 0). exact H0. }
  assert (0 < q) as Hq by lra.
  unfold JS64.round.
  assert (Qeq_bool q 0 = false) as ->.
  { destruct (Qeq_bool q 0) eqn:E; [| reflexivity]. apply Qeq_bool_iff in E. lra. }
  assert (q < inject_Z (2 ^ 53)) as Hq53.
  { assert (inject_Z hi < inject_Z (2 ^ 53)) by (rewrite <- Zlt_Qlt; exact H53). lra. }
  pose proof (ilog2_small q Hq Hq53) as He.
  set (e := Z.max (JS64.ilog2 q) (-1022)).
  assert (e <= 52)%Z as He' by (unfold e; lia).
  set (k := (52 - e)%Z).
  replace (e - 52)%Z with (- k)%Z by (unfold k; lia).
  assert (0 <= k)%Z as Hk by (unfold k; lia).
  assert (0 < inject_Z (2 ^ k)) as Hpos.
  { rewrite <- (Zlt_Qlt 0). apply Z.pow_pos_nonneg; lia. }
  pose proof (pow2_neg k Hk) as Hulp.
  set (ulp := JS64.pow2 (- k)) in *.
  assert (0 < ulp) as Hupos by (rewrite Hulp; apply Qinv_lt_0_compat; exact Hpos).
  assert (q / ulp == q * inject_Z (2 ^ k)) as Hx.
  { rewrite Hulp. field. lra. }
  destruct (round_even_between (q / ulp) (lo * 2 ^ k) (hi * 2 ^ k)) as [Hm1 Hm2].
  { rewrite Hx, inject_Z_mult. apply Qmult_le_compat_r; lra. }
  { rewrite Hx, inject_Z_mult. apply Qmult_le_compat_r; lra. }
  set (m := JS64.round_even (q / ulp)) in *.
  assert (inject_Z lo <= inject_Z m * ulp) as Hr1.
  { rewrite Zle_Qle, inject_Z_mult in Hm1. rewrite Hulp.
    apply Qle_shift_div_l; [exact Hpos | exact Hm1]. }
  assert (inject_Z m * ulp <= inject_Z hi) as Hr2.
  { rewrite Zle_Qle, inject_Z_mult in Hm2. rewrite Hulp.
    apply Qle_shift_div_r; [exact Hpos | exact Hm2]. }
  assert (Qle_bool (JS64.pow2 1024) (JS64.abs (inject_Z m * ulp)) = false) as ->.
  { destruct (Qle_bool _ _) eqn:E; [| reflexivity]. exfalso.
    apply Qle_bool_iff in E. unfold JS64.abs in E.
    assert (Qle_bool 0 (inject_Z m * ulp) = true) as E0 by (apply Qle_bool_iff; lra).
    rewrite E0 in E. rewrite pow2_nonneg in E by lia.
    assert (inject_Z (2 ^ 1024) <= inject_Z hi) as E' by lra.
    rewrite <- Zle_Qle in E'.
    assert (2 ^ 53 < 2 ^ 1024)%Z by (apply Z.pow_lt_mono_r; lia). lia. }
  destruct (Qeq_bool (inject_Z m * ulp) q); eexists; (split; [reflexivity |]); split; assumption.
Qed.


(** A whole number below 2^53 is a binary64 number: rounding returns it. *)
Lemma round_whole (x : Q) (n : Z) :
  x == inject_Z n -> (0 <= n < 2 ^ 53)%Z -> JS64.round x = JS.Fin x.
Proof.
  intros Hx [H0 H53]. unfold JS64.round.
  destruct (Qeq_bool x 0) eqn:E0; [reflexivity |].
  assert (0 < n)%Z as Hn.
  { destruct (Z.eq_dec n 0%Z) as [-> | Hne]; [| lia].
    assert (Qeq_bool x 0 = true) as E by (apply Qeq_bool_iff; exact Hx). congruence. }
  assert (0 < x) as Hpos.
  { rewrite Hx. rewrite <- (Zlt_Qlt 0). exact Hn. }
  assert (x < inject_Z (2 ^ 53)) as Hlt.
  { rewrite Hx. rewrite <- Zlt_Qlt. exact H53. }
  pose proof (ilog2_small x Hpos Hlt) as He.
  set (e := Z.max (JS64.ilog2 x) (-1022)).
  assert (e <= 52)%Z as He' by (unfold e; lia).
  set (k := (52 - e)%Z).
  replace (e - 52)%Z with (- k)%Z by (unfold k; lia).
  assert (0 <= k)%Z as Hk by (unfold k; lia).
  assert (0 < inject_Z (2 ^ k)) as Hkpos.
  { rewrite <- (Zlt_Qlt 0). apply Z.pow_pos_nonneg; lia. }
  pose proof (pow2_neg k Hk) as Hulp.
  set (ulp := JS64.pow2 (- k)) in *.
  assert (x / ulp == inject_Z (n * 2 ^ k)) as Hm.
  { rewrite Hulp, Hx, inject_Z_mult. field. lra. }
  rewrite (round_even_Z _ _ Hm).
  assert (inject_Z (n * 2 ^ k) * ulp == x) as Hr.
  { rewrite Hulp, Hx, inject_Z_mult. field. lra. }
  assert (Qle_bool (JS64.pow2 1024) (JS64.abs (inject_Z (n * 2 ^ k) * ulp)) = false) as ->.
  { destruct (Qle_bool _ _) eqn:E; [| reflexivity]. exfalso.
    apply Qle_bool_iff in E.
    rewrite (abs_Z _ n) in E by (rewrite Hr; exact Hx).
    rewrite pow2_nonneg in E by lia. rewrite <- Zle_Qle in E.
    assert (2 ^ 53 < 2 ^ 1024)%Z by (apply Z.pow_lt_mono_r; lia). lia. }
  assert (Qeq_bool (inject_Z (n * 2 ^ k) * ulp) x = true) as ->
    by (apply Qeq_bool_iff; exact Hr).
  reflexivity.
Qed.

(** So the sum of two numbers is exact when it is a whole number below
    2^53. *)
Lemma add64_whole (x y : Q) (n : Z) :
  x + y == inject_Z n -> (0 <= n < 2 ^ 53)%Z ->
  JS64.add (JS.Fin x) (JS.Fin y) = JS.add (JS.Fin x) (JS.Fin y).
Proof.
  intros Hs Hn. unfold JS64.add. cbn [JS.add JS64.to64]. exact (round_whole _ n Hs Hn).
Qed.

End Binary64.

(** [Number] at its edges: a literal beyond the range is an infinity, one
    below the smallest binary64 number is 0, 2^53 + 1 is read as 2^53, the
    Number read for 1.1 is above 11/10, and the no-break space is trimmed. *)
Lemma Number_rounded :
  JS64.Number "1e400" = JS.PosInf
  /\ JS64.Number "-1e400" = JS.NegInf
  /\ JS.leb (JS.of_Z 0) (JS64.Number "1e-400") = true
  /\ JS.leb (JS64.Number "1e-400") (JS.of_Z 0) = true
  /\ JS64.Number "9007199254740993" = JS.of_Z 9007199254740992
  /\ JS.ltb (JS.Number "1.1") (JS64.Number "1.1") = true
  /\ JS.Number (String (ascii_of_nat 160) "42 ") = JS.of_Z 42.
Proof. vm_compute. repeat split. Qed.

(** *** Pagination with rounded sums *)

Section Planner64.
Variable endpoints : list string.
Variable b : Q.
Hypothesis Hb : (1 <= b)%Q.
Hypothesis Hb' : (b <= 1000)%Q.
Hypothesis Hsize : (Z.of_nat (length endpoints) < 2 ^ 32)%Z.

Local Abbreviation L := (inject_Z (Z.of_nat (length endpoints))).
Local Abbreviation fl q := (Z.to_nat (Qfloor q)).

(** The rounded sum of a call from cursor [q] is at least the whole number
    after [q], and at most that number plus the budget rounded up. *)
Lemma plan64_sum (q : Q) :
  (0 <= q)%Q -> (q < L)%Q ->
  exists s r, JS.Math_max (JS.of_Z 0) (JS.Fin q) = JS.Fin s /\ (s == q)%Q
    /\ JS64.add (JS.Fin s) (JS.Fin b) = JS.Fin r
    /\ (inject_Z (Qfloor q + 1) <= r)%Q
    /\ (r <= inject_Z (Qfloor q + 1 + Qceiling b))%Q.
Proof.
  intros H0 Hlt. destruct (Math_max_0 q H0) as (s & Hs & Hsq).
  pose proof (Qfloor_le q) as Hf. pose proof (Qlt_floor q) as Hf'.
  pose proof (Qfloor_nonneg q H0) as Hf0.
  pose proof (Qle_ceiling b) as Hc.
  assert (Qceiling b <= 1000)%Z as Hc'.
  { rewrite <- (Qceiling_Z 1000). apply Qceiling_resp_le. exact Hb'. }
  assert (Qfloor q <= Z.of_nat (length endpoints))%Z as Hfl.
  { rewrite <- (Qfloor_Z (Z.of_nat (length endpoints))). apply Qfloor_resp_le. lra. }
  rewrite !inject_Z_plus in Hf'. change (inject_Z 1) with 1%Q in Hf'.
  destruct (round_between (s + b) (Qfloor q + 1) (Qfloor q + 1 + Qceiling b))
    as (r & Hr & Hlo & Hhi).
  - lia.
  - rewrite inject_Z_plus. change (inject_Z 1) with 1%Q. lra.
  - rewrite !inject_Z_plus. change (inject_Z 1) with 1%Q. lra.
  - assert (2 ^ 32 + 1 + 1000 < 2 ^ 53)%Z by reflexivity. lia.
  - exists s, r. split; [exact Hs |]. split; [exact Hsq |].
    split; [| split; assumption].
    unfold JS64.add. cbn [JS.add JS64.to64]. exact Hr.
Qed.

(** A call from a cursor inside the list: it leaves endpoints for a later
    call, from a cursor past the next whole number, or it is the last. *)
Lemma plan64_call (q : Q) :
  (0 <= q)%Q -> (q < L)%Q ->
  let p := plan64 endpoints (JS.Fin b) (JS.Fin q) in
  (exists r, plan_nextCursor p = Some (JS.Fin r)
     /\ (inject_Z (Qfloor q + 1) <= r)%Q /\ (r < L)%Q
     /\ plan_batch p = take (fl r - fl q) (drop (fl q) endpoints))
  \/ (plan_nextCursor p = None /\ plan_batch p = drop (fl q) endpoints).
Proof.
  intros H0 Hlt p. unfold p, plan64. cbv zeta.
  destruct (plan64_sum q H0 Hlt) as (s & r & -> & Hsq & -> & Hlo & _).
  pose proof (Qfloor_nonneg q H0) as Hf0.
  assert (0 <= r)%Q as Hr0.
  { assert (inject_Z 0 <= inject_Z (Qfloor q + 1))%Q by (rewrite <- Zle_Qle; lia).
    change (inject_Z 0) with 0%Q in *. lra. }
  cbn [plan_nextCursor plan_batch].
  unfold JS.Math_min, JS.of_nat, JS.of_Z. cbn [JS.is_nan orb JS.ltb].
  destruct (JS.Qltb r L) eqn:E.
  - left. cbn [JS.ltb]. rewrite E. apply Qltb_lt in E.
    exists r. split; [reflexivity |]. split; [exact Hlo |]. split; [exact E |].
    unfold JS.slice. rewrite !slice_index_fin by lra.
    rewrite (Qfloor_comp s q Hsq).
    assert (Qfloor r <= Z.of_nat (length endpoints))%Z.
    { rewrite <- (Qfloor_Z (Z.of_nat (length endpoints))). apply Qfloor_resp_le. lra. }
    assert (Qfloor q <= Z.of_nat (length endpoints))%Z.
    { rewrite <- (Qfloor_Z (Z.of_nat (length endpoints))). apply Qfloor_resp_le. lra. }
    rewrite !Z.min_l by lia. reflexivity.
  - right. cbn [JS.ltb].
    assert (JS.Qltb L L = false) as E' by (apply Qltb_ge; lra).
    rewrite E'. split; [reflexivity |].
    unfold JS.slice. fold (JS.of_Z (Z.of_nat (length endpoints))).
    fold (JS.of_nat (length endpoints)). rewrite slice_index_len.
    rewrite slice_index_fin by lra. rewrite (Qfloor_comp s q Hsq).
    assert (Qfloor q <= Z.of_nat (length endpoints))%Z.
    { rewrite <- (Qfloor_Z (Z.of_nat (length endpoints))). apply Qfloor_resp_le. lra. }
    rewrite Z.min_l by lia. apply take_ge. rewrite length_drop. lia.
Qed.

Lemma paginate64_S (fuel : nat) (budget cursor : JS.num) :
  paginate64 (S fuel) endpoints budget cursor
  = match plan_nextCursor (plan64 endpoints budget cursor) with
    | None => ([plan_batch (plan64 endpoints budget cursor)], None)
    | Some c =>
        let '(bs, rest) := paginate64 fuel endpoints budget c in
        (plan_batch (plan64 endpoints budget cursor) :: bs, rest)
    end.
Proof. reflexivity. Qed.

(** From a cursor inside the list the calls end, each with a batch that is
    not empty, and their batches are the rest of the list. *)
Lemma paginate64_from (m : nat) : forall q : Q,
  (0 <= q)%Q -> (q < L)%Q -> (length endpoints - fl q <= m)%nat ->
  exists bs,
    (1 <= length bs <= length endpoints - fl q)%nat
    /\ (forall fuel, (length bs <= fuel)%nat ->
          paginate64 fuel endpoints (JS.Fin b) (JS.Fin q) = (bs, None))
    /\ (forall fuel, (fuel < length bs)%nat ->
          (paginate64 fuel endpoints (JS.Fin b) (JS.Fin q)).2 <> None)
    /\ concat bs = drop (fl q) endpoints
    /\ Forall (fun batch => batch <> []) bs.
Proof.
  induction m as [| m IH]; intros q H0 Hlt Hm.
  - exfalso.
    pose proof (Qfloor_nonneg q H0) as Hf0. pose proof (Qfloor_le q) as Hf.
    assert (inject_Z (Qfloor q) < L)%Q as Hfl by lra.
    rewrite <- Zlt_Qlt in Hfl. lia.
  - pose proof (Qfloor_nonneg q H0) as Hf0. pose proof (Qfloor_le q) as Hf.
    assert (Qfloor q < Z.of_nat (length endpoints))%Z as Hfl.
    { rewrite Zlt_Qlt. lra. }
    assert (drop (fl q) endpoints <> []) as Hrest.
    { intros E. apply (f_equal length) in E. rewrite length_drop in E. cbn in E. lia. }
    destruct (plan64_call q H0 Hlt) as [(r & Hn & Hlo & Hr & Hbatch) | (Hn & Hbatch)].
    + assert (0 <= r)%Q as Hr0.
      { assert (inject_Z 0 <= inject_Z (Qfloor q + 1))%Q by (rewrite <- Zle_Qle; lia).
        change (inject_Z 0) with 0%Q in *. lra. }
      assert (Qfloor q + 1 <= Qfloor r)%Z as Hstep.
      { rewrite <- (Qfloor_Z (Qfloor q + 1)). apply Qfloor_resp_le. exact Hlo. }
      assert (Qfloor r < Z.of_nat (length endpoints))%Z as Hrl.
      { pose proof (Qfloor_le r). rewrite Zlt_Qlt. lra. }
      destruct (IH r Hr0 Hr) as (bs & Hlen & Hrun & Hearly & Hcat & Hne); [lia |].
      exists (plan_batch (plan64 endpoints (JS.Fin b) (JS.Fin q)) :: bs).
      cbn [length]. split; [lia |]. split; [| split; [| split]].
      * intros [| fuel] Hfuel; [lia |]. rewrite paginate64_S, Hn, Hrun by lia. reflexivity.
      * intros [| fuel] Hfuel; [discriminate |]. rewrite paginate64_S, Hn.
        specialize (Hearly fuel ltac:(lia)).
        destruct (paginate64 fuel endpoints (JS.Fin b) (JS.Fin r)). exact Hearly.
      * cbn [concat]. rewrite Hcat, Hbatch. apply take_drop_middle. lia.
      * constructor; [| exact Hne]. rewrite Hbatch. intros E.
        apply (f_equal length) in E. rewrite length_take, length_drop in E. cbn in E. lia.
    + exists [plan_batch (plan64 endpoints (JS.Fin b) (JS.Fin q))].
      cbn [length]. split; [lia |]. split; [| split; [| split]].
      * intros [| fuel] Hfuel; [lia |]. rewrite paginate64_S, Hn. reflexivity.
      * intros fuel Hfuel. assert (fuel = O) as -> by lia. discriminate.
      * cbn [concat]. rewrite Hbatch. apply app_nil_r.
      * constructor; [| constructor]. rewrite Hbatch. exact Hrest.
Qed.

End Planner64.

(** With a whole budget and cursor the rounded sums are the exact ones. *)
Lemma plan64_whole (endpoints : list string) (b q : Q) (B k : Z) :
  (b == inject_Z B)%Q -> (q == inject_Z k)%Q -> (0 <= k)%Z -> (0 <= B)%Z ->
  (k + B < 2 ^ 53)%Z ->
  plan64 endpoints (JS.Fin b) (JS.Fin q) = plan endpoints (JS.Fin b) (JS.Fin q).
Proof.
  intros HB Hk H0 HB0 H53. unfold plan64, plan.
  assert (JS64.add (JS.Math_max (JS.of_Z 0) (JS.Fin q)) (JS.Fin b)
          = JS.add (JS.Math_max (JS.of_Z 0) (JS.Fin q)) (JS.Fin b)) as ->; [| reflexivity].
  unfold JS.Math_max, JS.of_Z. cbn [JS.is_nan orb JS.ltb].
  destruct (JS.Qltb (inject_Z 0) q) eqn:E.
  - apply (add64_whole q b (k + B)); [| lia]. rewrite inject_Z_plus, HB, Hk. reflexivity.
  - apply (add64_whole (inject_Z 0) b B); [| lia]. rewrite HB.
    change (inject_Z 0) with 0%Q. lra.
Qed.

Lemma paginate64_whole (endpoints : list string) (b : Q) (B : Z) (fuel : nat) :
  (b == inject_Z B)%Q -> (0 <= B)%Z -> (Z.of_nat (length endpoints) + B < 2 ^ 53)%Z ->
  forall (q : Q) (k : Z), (q == inject_Z k)%Q -> (0 <= k <= Z.of_nat (length endpoints))%Z ->
  paginate64 fuel endpoints (JS.Fin b) (JS.Fin q)
  = paginate fuel endpoints (JS.Fin b) (JS.Fin q).
Proof.
  intros HB HB0 H53. induction fuel as [| fuel IH]; intros q k Hk Hkl; [reflexivity |].
  cbn [paginate64 paginate]. rewrite (plan64_whole endpoints b q B k) by (try assumption; lia).
  destruct (plan_nextCursor (plan endpoints (JS.Fin b) (JS.Fin q))) as [c |] eqn:E;
    [| reflexivity].
  assert (exists (q' : Q) (k' : Z), c = JS.Fin q' /\ (q' == inject_Z k')%Q
                     /\ (0 <= k' <= Z.of_nat (length endpoints))%Z)
    as (q' & k' & -> & Hk' & Hkl').
  { unfold plan in E. cbn [plan_nextCursor] in E.
    unfold JS.Math_max, JS.Math_min, JS.of_nat, JS.of_Z in E.
    cbn [JS.is_nan orb JS.ltb JS.add] in E.
    destruct (JS.Qltb (inject_Z 0) q) eqn:E0; cbn [JS.add JS.is_nan orb JS.ltb] in E.
    - destruct (JS.Qltb (q + b) (inject_Z (Z.of_nat (length endpoints)))) eqn:El;
        cbn [JS.ltb] in E.
      + rewrite El in E. injection E as <-. exists (q + b)%Q, (k + B)%Z.
        split; [reflexivity |]. apply Qltb_lt in El.
        assert (q + b == inject_Z (k + B))%Q as Hs
          by (rewrite inject_Z_plus, HB, Hk; reflexivity).
        split; [exact Hs |]. rewrite Hs in El. rewrite <- Zlt_Qlt in El. lia.
      + rewrite (proj2 (Qltb_ge _ _) (Qle_refl _)) in E. discriminate E.
    - destruct (JS.Qltb (inject_Z 0 + b) (inject_Z (Z.of_nat (length endpoints)))) eqn:El;
        cbn [JS.ltb] in E.
      + rewrite El in E. injection E as <-. exists (inject_Z 0 + b)%Q, B.
        split; [reflexivity |]. apply Qltb_lt in El.
        assert (inject_Z 0 + b == inject_Z B)%Q as Hs
          by (rewrite HB; change (inject_Z 0) with 0%Q; lra).
        split; [exact Hs |]. rewrite Hs in El. rewrite <- Zlt_Qlt in El. lia.
      + rewrite (proj2 (Qltb_ge _ _) (Qle_refl _)) in E. discriminate E. }
  rewrite (IH q' k') by assumption. reflexivity.
Qed.

(** C1, amended: for a non-empty endpoint list (a JavaScript array: fewer
    than 2^32 entries) and a clamped budget [b] that is a number, calling
    the planner - its sums rounded to binary64, as the engine adds - with
    cursor 0 and then with each [nextCursor] returned ends with
    [nextCursor = null], after as many calls as there are batches and not
    before; no batch is empty, so there are at most as many calls as
    endpoints, and the batches, put end to end, are the endpoint list: each
    endpoint is in exactly one batch.  When the budget is a whole number
    there are [ceil(len / b)] calls, and they are the calls of the planner
    with exact sums, which [doPing] embeds. *)
Theorem C1_pagination_covers_once (endpoints : list string) (b : Q) :
  endpoints <> [] -> (Z.of_nat (length endpoints) < 2 ^ 32)%Z ->
  (1 <= b)%Q -> (b <= 1000)%Q ->
  exists bs : list (list string),
    (forall fuel, (length bs <= fuel)%nat ->
       paginate64 fuel endpoints (JS.Fin b) (JS.of_Z 0) = (bs, None))
    /\ (forall fuel, (fuel < length bs)%nat ->
          (paginate64 fuel endpoints (JS.Fin b) (JS.of_Z 0)).2 <> None)
    /\ concat bs = endpoints
    /\ Forall (fun batch => batch <> []) bs
    /\ (length bs <= length endpoints)%nat
    /\ (forall B : Z, (b == inject_Z B)%Q ->
          length bs = Z.to_nat (Qceiling (inject_Z (Z.of_nat (length endpoints)) / b))
          /\ forall fuel, paginate64 fuel endpoints (JS.Fin b) (JS.of_Z 0)
                          = paginate fuel endpoints (JS.Fin b) (JS.of_Z 0)).
Proof.
  intros Hne Hsize Hb Hb'.
  assert (0 < inject_Z (Z.of_nat (length endpoints)))%Q as Hlen.
  { rewrite <- (Zlt_Qlt 0). destruct endpoints; [congruence | simpl; lia]. }
  destruct (paginate64_from endpoints b Hb Hb' Hsize (length endpoints) (inject_Z 0))
    as (bs & Hn & Hrun & Hearly & Hcat & Hbs);
    [change (inject_Z 0) with 0%Q; lra | exact Hlen | lia |].
  rewrite Qfloor_Z in Hn, Hcat. cbn in Hcat.
  exists bs. split; [exact Hrun |]. split; [exact Hearly |]. split; [exact Hcat |].
  split; [exact Hbs |]. split; [cbn in Hn; lia |].
  intros B HB.
  assert (1 <= B <= 1000)%Z as HB'.
  { rewrite HB in Hb, Hb'. unfold Qle in Hb, Hb'. cbn in Hb, Hb'. lia. }
  assert (forall fuel, paginate64 fuel endpoints (JS.Fin b) (JS.of_Z 0)
                       = paginate fuel endpoints (JS.Fin b) (JS.of_Z 0)) as H64.
  { intros fuel.
    assert (2 ^ 32 + 1000 < 2 ^ 53)%Z by reflexivity.
    apply (paginate64_whole endpoints b B fuel HB ltac:(lia) ltac:(lia) (inject_Z 0) 0%Z);
      [reflexivity | lia]. }
  split; [| exact H64].
  set (n := Z.to_nat (Qceiling (inject_Z (Z.of_nat (length endpoints)) / b))).
  assert (n = Z.to_nat (Qceiling ((inject_Z (Z.of_nat (length endpoints)) - inject_Z 0) / b)))
    as En.
  { unfold n. f_equal. apply Qceiling_comp. change (inject_Z 0) with 0%Q. field.
    intros Hz. lra. }
  destruct (paginate_from endpoints b Hb (Nat.max n (length bs)) (inject_Z 0))
    as (bs' & E & Hl & _); [change (inject_Z 0) with 0%Q; lra | exact Hlen | lia |].
  fold (JS.of_Z 0) in E. rewrite <- H64, Hrun in E by lia. injection E as <-. lia.
Qed.

(** C1 at five endpoints and a budget of two: three calls. *)
Lemma C1_witness :
  let endpoints := ["a"; "b"; "c"; "d"; "e"] in
  exists bs : list (list string),
    paginate64 3 endpoints (JS.Fin 2) (JS.of_Z 0) = (bs, None)
    /\ (paginate64 2 endpoints (JS.Fin 2) (JS.of_Z 0)).2 <> None
    /\ length bs = 3%nat
    /\ concat bs = endpoints
    /\ paginate64 3 endpoints (JS.Fin 2) (JS.of_Z 0)
       = paginate 3 endpoints (JS.Fin 2) (JS.of_Z 0).
Proof.
  destruct (C1_pagination_covers_once ["a"; "b"; "c"; "d"; "e"] 2)
    as (bs & Hrun & Hearly & Hcat & _ & _ & Hwhole).
  - discriminate.
  - reflexivity.
  - discriminate.
  - discriminate.
  - destruct (Hwhole 2%Z) as [Hn H64]; [reflexivity |].
    change (length bs = 3%nat) in Hn.
    exists bs. split; [apply Hrun; lia |]. split; [apply Hearly; lia |].
    split; [exact Hn |]. split; [exact Hcat | apply H64].
Defined.

(** C1 as stated fails for a budget that is not an integer: with
    [SUBREQ_BUDGET = "1.1"] the clamped budget is the binary64 number 1.1,
    for eleven endpoints [ceil(11 / 1.1)] is 10, and the tenth call ends at
    the sum 10.999999999999998, below 11: it returns a [nextCursor], and the
    list is covered at the eleventh call.  It fails for a budget that is not
    a number too: with [SUBREQ_BUDGET = "abc"] the first call plans nothing
    and returns no [nextCursor]. *)
Lemma C1_counterexample :
  let b := JS64.to64 (subreq_budget (env_tuned (Some "1.1") None)) in
  (exists q, b = JS.Fin q /\ (1 <= q)%Q /\ (q <= 1000)%Q
     /\ Z.to_nat (Qceiling (inject_Z (Z.of_nat (length eleven_endpoints)) / q)) = 10%nat)
  /\ (paginate64 10 eleven_endpoints b (JS.of_Z 0)).2 <> None
  /\ (exists bs, paginate64 11 eleven_endpoints b (JS.of_Z 0) = (bs, None)
        /\ length bs = 11%nat /\ concat bs = eleven_endpoints)
  /\ paginate64 1 eleven_endpoints
       (JS64.to64 (subreq_budget (env_tuned (Some "abc") None))) (JS.of_Z 0)
     = ([[]], None).
Proof.
  split; [eexists; split; [vm_compute; reflexivity |]; vm_compute; repeat split; discriminate |].
  split; [vm_compute; discriminate |].
  split; [eexists; split; [vm_compute; reflexivity |]; vm_compute; split; reflexivity |].
  vm_compute. reflexivity.
Qed.

(** A pool whose size is not a number starts no worker: it returns no row
    and sends nothing, whatever the items. *)
Lemma runPool_NaN {T Susp R : Type} (items : list T) (fn : task T Susp R) (net : network)
    (w : world) :
  runPool items fn net JS.NaN w = ([], w).
Proof.
  unfold runPool, run_pool, workers, bind. cbn [JS.Math_min JS.to_length spawn ret].
  destruct items; reflexivity.
Qed.

(** C9 at the failing input: with [PING_CONCURRENCY = "many"] the
    concurrency [doPing] hands to the pool is NaN, and a pool of that size
    returns no row and sends nothing, whatever the slice; so the dry run over
    ten endpoints plans the slice of these ten URLs and its report has an
    outcome for none of them, and none was pinged. *)
Theorem C9_no_worker_omits_every_url :
  let env := env_tuned None (Some "many") in
  let opts := {| o_dryRun := Some true; o_concurrency := None; o_timeoutMs := None;
                 o_limit := None; o_verbose := None; o_only := None; o_cursor := None |} in
  max_concurrency env opts = JS.NaN
  /\ run_batch env (payload_with ten_endpoints) opts w0 = ten_endpoints
  /\ (forall (batch : list string) (body : string) (verbose : bool) (net : network)
        (w : world),
        runPool batch (pingWithTimeout body verbose) net JS.NaN w = ([], w))
  /\ exists r w',
       doPing env (payload_with ten_endpoints) opts all_ok w0 = (Done r, w')
       /\ Totals.batchCount (Report.totals r) = 10%nat
       /\ Report.summary r = []
       /\ Report.nextCursor r = None
       /\ Forall (fun u => u ∉ map PingResult.url (Report.summary r)) ten_endpoints
       /\ filter (fun e => is_ping e) (trace w') = [].
Proof.
  split; [reflexivity |]. split; [vm_compute; reflexivity |].
  split; [intros; apply runPool_NaN |].
  eexists _, _. split; [vm_compute; reflexivity |].
  cbn [Report.totals Report.summary Report.nextCursor Totals.batchCount].
  split; [reflexivity |]. split; [reflexivity |]. split; [reflexivity |].
  split; [| reflexivity].
  apply Forall_forall. intros u _ H. cbn in H. inversion H.
Qed.

(** *** The request body, read back *)

Lemma count_chars_app (P : ascii -> bool) (a b : string) :
  count_chars P (a +:+ b) = (count_chars P a + count_chars P b)%nat.
Proof.
  induction a as [| x a IH]; [reflexivity |].
  rewrite append_cons. cbn [count_chars]. rewrite IH. lia.
Qed.

Lemma strip_prefix_app (p s : string) : strip_prefix p (p +:+ s) = Some s.
Proof.
  induction p as [| c p IH]; [destruct s; reflexivity |].
  rewrite append_cons. cbn [strip_prefix]. rewrite Ascii.eqb_refl. exact IH.
Qed.

Lemma string_forall_impl (P Q : ascii -> bool) (s : string) :
  (forall c, P c = true -> Q c = true) ->
  string_forall P s = true -> string_forall Q s = true.
Proof.
  intros H. induction s as [| c s IH]; [reflexivity |].
  cbn [string_forall]. intros [Hc Hs]%andb_true_iff.
  rewrite (H c Hc), (IH Hs). reflexivity.
Qed.

Lemma up_to_tag_app (a r : string) :
  string_forall (fun c => negb (Ascii.eqb c c_lt)) a = true ->
  up_to_tag (a +:+ String c_lt r) = (a, String c_lt r).
Proof.
  induction a as [| c a IH]; intros H.
  - rewrite append_nil. cbn [up_to_tag]. rewrite Ascii.eqb_refl. reflexivity.
  - cbn [string_forall] in H. apply andb_true_iff in H as [Hc Ha].
    rewrite append_cons. cbn [up_to_tag].
    apply negb_true_iff in Hc. rewrite Hc, (IH Ha). reflexivity.
Qed.

Lemma markup_no_tag (s : string) :
  string_forall (fun c => negb (markup c)) s = true ->
  string_forall (fun c => negb (Ascii.eqb c c_lt)) s = true.
Proof.
  apply string_forall_impl. intros c. unfold markup.
  destruct (Ascii.eqb c c_lt); [discriminate | reflexivity].
Qed.

Lemma reserved_no_markup (s : string) :
  string_forall (fun c => negb (reserved c)) s = true ->
  string_forall (fun c => negb (markup c)) s = true.
Proof.
  apply string_forall_impl. intros c. unfold reserved, markup.
  destruct (Ascii.eqb c c_amp), (Ascii.eqb c c_lt), (Ascii.eqb c c_gt),
    (Ascii.eqb c c_quot), (Ascii.eqb c c_apos); try discriminate; reflexivity.
Qed.

Lemma paramXml_cons (p : string) (params : list string) (t : string) :
  paramXml (p :: params) +:+ t
  = param_open +:+ escapeXml p
    +:+ String c_lt ("/string></value></param>" +:+ paramXml params +:+ t).
Proof.
  unfold paramXml. cbn [map join fold_right].
  rewrite !append_assoc. reflexivity.
Qed.

Lemma read_params_xml (params : list string) : forall fuel,
  (length params < fuel)%nat ->
  read_params fuel (paramXml params +:+ xml_tail) = Some params.
Proof.
  induction params as [| p params IH]; intros fuel Hfuel.
  - destruct fuel as [| fuel]; [lia | reflexivity].
  - destruct fuel as [| fuel]; [lia |]. cbn [length] in Hfuel.
    rewrite paramXml_cons. cbn [read_params].
    rewrite strip_prefix_app.
    rewrite up_to_tag_app by (apply markup_no_tag, escapeXml_no_markup).
    rewrite escapeXml_chars, unescape_chars by lia.
    cbn [mbind option_bind].
    rewrite <- append_cons. change (String c_lt "/string></value></param>") with param_close.
    rewrite strip_prefix_app. cbn [mbind option_bind].
    rewrite IH by lia. reflexivity.
Qed.

Lemma paramXml_length (params : list string) (t : string) :
  (length params <= String.length (paramXml params +:+ t))%nat.
Proof.
  induction params as [| p params IH]; [cbn; lia |].
  rewrite paramXml_cons, !append_length. cbn [length String.length].
  rewrite append_length. lia.
Qed.

Lemma read_call_xml (method : string) (params : list string) :
  string_forall (fun c => negb (reserved c)) method = true ->
  read_call (xmlRpc method params) = Some (method, params).
Proof.
  intros Hm. unfold read_call, xmlRpc.
  rewrite strip_prefix_app. cbn [mbind option_bind].
  change (xml_mid +:+ paramXml params +:+ xml_tail)
    with (String c_lt ("/methodName>
  <params>" +:+ paramXml params +:+ xml_tail)).
  rewrite up_to_tag_app by (apply markup_no_tag, reserved_no_markup, Hm).
  rewrite Hm.
  change (String c_lt ("/methodName>
  <params>" +:+ paramXml params +:+ xml_tail))
    with (xml_mid +:+ paramXml params +:+ xml_tail).
  rewrite strip_prefix_app. cbn [mbind option_bind].
  rewrite read_params_xml by (pose proof (paramXml_length params xml_tail); lia).
  reflexivity.
Qed.

Lemma count_none (c : ascii) (s : string) :
  markup c = true -> string_forall (fun x => negb (markup x)) s = true ->
  count_chars (Ascii.eqb c) s = O.
Proof.
  intros Hc. induction s as [| x s IH]; [reflexivity |].
  cbn [string_forall count_chars]. intros [Hx Hs]%andb_true_iff.
  rewrite (IH Hs). destruct (Ascii.eqb_spec c x) as [<- | _]; [| reflexivity].
  rewrite Hc in Hx. discriminate Hx.
Qed.

Lemma count_paramXml (c : ascii) (params : list string) :
  markup c = true ->
  count_chars (Ascii.eqb c) (paramXml params)
  = (length params * count_chars (Ascii.eqb c) (param_open +:+ param_close))%nat.
Proof.
  intros Hc. induction params as [| p params IH]; [reflexivity |].
  change (paramXml (p :: params))
    with ((param_open +:+ escapeXml p +:+ param_close) +:+ paramXml params).
  cbn [length].
  rewrite !count_chars_app, IH, (count_none c (escapeXml p) Hc (escapeXml_no_markup p)).
  rewrite !count_chars_app. lia.
Qed.

(** C4, amended: for every method name and parameters, the request body
    is the fixed markup around the method name, embedded as it is, and then
    a text that reads back as the parameters: for each one in turn the opening
    markup, a text without a bare reserved character that stands for the
    parameter, and the closing markup; that text holds no [<], [>], double
    or single quote but those of the fixed markup.  When the method name
    holds none of the five reserved characters (as the two names [doPing]
    uses), the whole body reads back as the call and holds no [<], [>],
    double or single quote but those of the fixed markup.  Escaping knows
    nothing of entities already there: an ["&amp;"] in a parameter is sent
    as ["&amp;amp;"]. *)
Theorem C4_parameters_escaped (method : string) (params : list string) :
  (exists rest : string,
     xmlRpc method params = xml_head +:+ method +:+ xml_mid +:+ rest
     /\ read_params (S (String.length rest)) rest = Some params
     /\ forall c, markup c = true ->
          count_chars (Ascii.eqb c) rest
          = (count_chars (Ascii.eqb c) xml_tail
             + length params * count_chars (Ascii.eqb c) (param_open +:+ param_close))%nat)
  /\ (string_forall (fun c => negb (reserved c)) method = true ->
      read_call (xmlRpc method params) = Some (method, params)
      /\ forall c, markup c = true ->
           count_chars (Ascii.eqb c) (xmlRpc method params)
           = (count_chars (Ascii.eqb c) (xmlRpc "" [])
              + length params * count_chars (Ascii.eqb c) (param_open +:+ param_close))%nat)
  /\ (forall a b : string,
        xmlRpc method [a +:+ "&amp;" +:+ b]
        = xml_head +:+ method +:+ xml_mid +:+ param_open
          +:+ escapeXml a +:+ "&amp;amp;" +:+ escapeXml b +:+ param_close +:+ xml_tail).
Proof.
  split; [| split].
  - exists (paramXml params +:+ xml_tail). split; [reflexivity |]. split.
    + apply read_params_xml. pose proof (paramXml_length params xml_tail). lia.
    + intros c Hc. rewrite count_chars_app, (count_paramXml c params Hc). lia.
  - intros Hm. split; [exact (read_call_xml method params Hm) |].
    intros c Hc. unfold xmlRpc.
    rewrite !count_chars_app, (count_paramXml c params Hc).
    rewrite (count_none c method Hc (reserved_no_markup method Hm)).
    change (paramXml []) with "". rewrite !count_chars_app.
    change (count_chars (Ascii.eqb c) "") with O. lia.
  - intros a b. unfold xmlRpc, paramXml. cbn [map join fold_right].
    rewrite !escapeXml_app, !append_assoc. reflexivity.
Qed.

(** C4 at the extended ping, with parameters that hold the five characters. *)
Lemma C4_witness :
  let method := "weblogUpdates.extendedPing" in
  let params := ["Tom & Jerry's <blog>"; "https://example.org/?a=1&amp;b=" +:+ String c_quot "2"] in
  string_forall (fun c => negb (reserved c)) method = true
  /\ read_call (xmlRpc method params) = Some (method, params)
  /\ forall c, markup c = true ->
       count_chars (Ascii.eqb c) (xmlRpc method params)
       = (count_chars (Ascii.eqb c) (xmlRpc "" [])
          + length params * count_chars (Ascii.eqb c) (param_open +:+ param_close))%nat.
Proof.
  split; [reflexivity |].
  apply (C4_parameters_escaped "weblogUpdates.extendedPing"
           ["Tom & Jerry's <blog>";
            "https://example.org/?a=1&amp;b=" +:+ String c_quot "2"]).
  reflexivity.
Defined.

(** C4 as stated fails for a method name that holds a reserved character:
    the name is embedded as it is, so the body of a call of ["a<b"] holds one
    [<] more than the fixed markup has, outside any parameter, and does not
    read back as a call. *)
Lemma C4_counterexample :
  xmlRpc "a<b" ["x"]
  = xml_head +:+ "a<b" +:+ xml_mid +:+ param_open +:+ "x" +:+ param_close +:+ xml_tail
  /\ count_chars (Ascii.eqb c_lt) (xmlRpc "a<b" ["x"])
     = S (count_chars (Ascii.eqb c_lt) (xmlRpc "" [])
          + 1 * count_chars (Ascii.eqb c_lt) (param_open +:+ param_close))
  /\ read_call (xmlRpc "a<b" ["x"]) = None.
Proof. split; [reflexivity |]. split; vm_compute; reflexivity. Qed.

Lemma filter_pings (body : string) (urls : list string) (rest : list event) :
  filter (fun e => is_ping e) (map (fun u => PingSent u body) urls ++ rest)
  = map (fun u => PingSent u body) urls ++ filter (fun e => is_ping e) rest.
Proof.
  induction urls as [| u urls IH]; [reflexivity |].
  cbn [map app]. rewrite filter_cons_True by exact I. rewrite IH. reflexivity.
Qed.

(** C5: a real run that passes the rate-limit check writes the rate-limit
    record, with its one-hour expiry, before it sends its first ping: the
    effects of the run are some reads, then that write, then the rest, and
    every ping of the run is in the rest.  (Each [await] of the handler is a
    sequencing point of the model: the write has returned when the pool
    starts.) *)
Theorem C5_lock_written_before_pings (env : RuntimeEnv) (payload : PingPayload)
    (opts : PingOpts) (net : network) (w : world) :
  default false (o_dryRun opts) = false ->
  text_truthy (kv_read w RL_KEY) = false ->
  exists res w' pre post,
    doPing env payload opts net w = (res, w')
    /\ status res = "done"
    /\ trace w' = trace w ++ pre ++ KvPut RL_KEY (rl_value w) (Some HOUR) :: post
    /\ Forall (fun e => is_ping e = false) pre
    /\ filter (fun e => is_ping e) post
       = map (fun u => PingSent u (run_body env payload)) (run_pinged env payload opts w)
    /\ kv w' !! RL_KEY
       = Some {| value := rl_value w; expires := Some (clock w + HOUR * 1000)%Z |}.
Proof.
  intros Hdry Hrl.
  destruct (doPing_real env payload opts net w Hdry Hrl) as (raw & w' & E & _ & Hkv & Htr).
  eexists _, w', [KvGet RL_KEY; KvGet ENDPOINTS_KEY], _.
  split; [exact E |]. split; [reflexivity |].
  split; [exact Htr |]. split; [repeat constructor |].
  split.
  - rewrite filter_pings. cbn. rewrite app_nil_r. reflexivity.
  - rewrite Hkv. rewrite lookup_insert_ne by discriminate.
    apply lookup_insert_eq.
Qed.

(** C5 at a real run over ten endpoints from an empty store. *)
Lemma C5_witness :
  exists res w' pre post,
    doPing env0 (payload_with ten_endpoints) no_opts three_fail w0 = (res, w')
    /\ status res = "done"
    /\ trace w' = trace w0 ++ pre ++ KvPut RL_KEY (rl_value w0) (Some HOUR) :: post
    /\ Forall (fun e => is_ping e = false) pre
    /\ filter (fun e => is_ping e) post
       = map (fun u => PingSent u (run_body env0 (payload_with ten_endpoints)))
             (run_pinged env0 (payload_with ten_endpoints) no_opts w0)
    /\ kv w' !! RL_KEY
       = Some {| value := rl_value w0; expires := Some (clock w0 + HOUR * 1000)%Z |}.
Proof.
  apply (C5_lock_written_before_pings env0 (payload_with ten_endpoints) no_opts three_fail w0).
  - reflexivity.
  - reflexivity.
Defined.

(** C8: a scheduled invocation whose detector returns the change id the
    store holds as last-seen marker ends there: the store is left as it
    was, and the invocation wrote nothing and sent no ping. *)
Theorem C8_unchanged_marker_no_effect (env : RuntimeEnv) (api : api_reply)
    (net : network) (w w1 : world) (id : string) :
  detect env api w = (Returned (Some id), w1) ->
  kv_read w LAST_KEY = Some (VText id) ->
  exists w' evs,
    scheduled env api net w = (tt, w')
    /\ kv w' = kv w
    /\ trace w' = trace w ++ evs
    /\ Forall (fun e => is_ping e = false /\ is_put e = false) evs.
Proof.
  intros Hd Hseen.
  destruct (scheduled_unchanged env api net w w1 id Hd Hseen) as [E Hkv].
  destruct (detect_frame env api w) as (r & evs & Ed & Hevs).
  rewrite Hd in Ed. injection Ed as _ Ew.
  eexists _, (evs ++ [KvGet LAST_KEY]). split; [exact E |].
  split; [exact Hkv |]. split.
  - cbn. rewrite Ew. cbn. rewrite app_assoc. reflexivity.
  - apply Forall_app. split.
    + eapply Forall_impl; [exact Hevs |]. intros [] He; try discriminate. split; reflexivity.
    + repeat constructor.
Qed.

(** C8 at a store whose marker is the commit the GitHub detector returns. *)
Lemma C8_witness :
  exists w' evs,
    scheduled env0 (ApiResponse true (Some (BranchInfo (Some "abc123")))) all_ok w_seen
    = (tt, w')
    /\ kv w' = kv w_seen
    /\ trace w' = trace w_seen ++ evs
    /\ Forall (fun e => is_ping e = false /\ is_put e = false) evs.
Proof.
  apply (C8_unchanged_marker_no_effect env0
           (ApiResponse true (Some (BranchInfo (Some "abc123")))) all_ok w_seen
           {| kv := kv w_seen; clock := clock w_seen;
              trace := [DetectorCall "https://api.github.com/repos/owner/site/branches/main"] |}
           "abc123").
  - reflexivity.
  - reflexivity.
Defined.



(** C6 at the failing input: for a dry run whose body is the JSON text
    null - with any query, environment, store and network - [safeJson]
    returns [null], the reading of [body.cursor] throws, and the handler
    ends there: no report is returned and the world is as it was, so the
    dry snapshot is not overwritten (a store without a snapshot is left
    without one). *)
Theorem C6_null_body_ends_the_dry_run :
  (forall (q : list (string * string)) (env : RuntimeEnv) (net : network) (w : world),
     let request := {| r_method := "POST"; r_pathname := "/";
                       r_search := ("dry", "1") :: q;
                       r_authorization := Some ("Bearer " +:+ XMLRPC_PING_SECRET env);
                       r_body := JsonNull |} in
     authorised_post request env
     /\ searchParams_get (r_search request) "dry" = Some "1"
     /\ fetch request env net w = (Uncaught, w))
  /\ (let request := {| r_method := "POST"; r_pathname := "/"; r_search := [("dry", "1")];
                        r_authorization := Some "Bearer s3cret"; r_body := JsonNull |} in
      fetch request env0 all_ok w0 = (Uncaught, w0)
      /\ kv_read w0 LAST_DRY_KEY = None
      /\ kv_read (fetch request env0 all_ok w0).2 LAST_DRY_KEY = None
      /\ forall res, fetch request env0 all_ok w0 <> (reply_of request res, w0)).
Proof.
  assert (forall (q : list (string * string)) (env : RuntimeEnv) (net : network) (w : world),
            fetch {| r_method := "POST"; r_pathname := "/"; r_search := ("dry", "1") :: q;
                     r_authorization := Some ("Bearer " +:+ XMLRPC_PING_SECRET env);
                     r_body := JsonNull |} env net w = (Uncaught, w)) as Hnull.
  { intros q env net w. unfold fetch. cbn [r_method r_pathname r_authorization r_body].
    change (String.eqb "POST" "GET") with false.
    change (String.eqb "POST" "POST") with true.
    cbn [andb negb truthy_opt opt_eqb orb]. rewrite String.eqb_refl.
    change (JS.truthy ("Bearer " +:+ XMLRPC_PING_SECRET env)) with true.
    reflexivity. }
  split.
  - intros q env net w request. split; [split; reflexivity |]. split; [reflexivity |].
    apply Hnull.
  - assert (fetch {| r_method := "POST"; r_pathname := "/"; r_search := [("dry", "1")];
                     r_authorization := Some "Bearer s3cret"; r_body := JsonNull |}
                  env0 all_ok w0 = (Uncaught, w0)) as E by exact (Hnull [] env0 all_ok w0).
    cbn zeta. rewrite E.
    split; [reflexivity |]. split; [reflexivity |]. split; [reflexivity |].
    intros res H. injection H as H. unfold reply_of in H. cbn in H. discriminate H.
Qed.

Lemma taken_nil {T} (size : JS.num) : taken (@nil T) size = [].
Proof. unfold taken. destruct (workers [] size); reflexivity. Qed.

(** A run that is not skipped: a dry run, or one that finds no rate-limit
    record. *)
Lemma doPing_done (env : RuntimeEnv) (payload : PingPayload) (opts : PingOpts)
    (net : network) (w : world) :
  default false (o_dryRun opts) = true \/ text_truthy (kv_read w RL_KEY) = false ->
  exists raw w' pre post,
    doPing env payload opts net w
    = (Done (report_of env payload opts (run_endpoints env payload opts w)
               (filter_only (default "all" (o_only opts)) raw)), w')
    /\ map PingResult.url raw ≡ₚ run_pinged env payload opts w
    /\ trace w'
       = trace w ++ pre
         ++ map (fun u => PingSent u (run_body env payload)) (run_pinged env payload opts w)
         ++ post
    /\ Forall (fun e => is_ping e = false) (pre ++ post).
Proof.
  intros H. destruct (default false (o_dryRun opts)) eqn:Hdry.
  - destruct (doPing_dry env payload opts net w Hdry) as (raw & w' & E & Hp & _ & Htr).
    exists raw, w', [KvGet ENDPOINTS_KEY], [].
    split; [exact E |]. split; [exact Hp |].
    split; [rewrite app_nil_r; exact Htr | repeat constructor].
  - destruct H as [H | H]; [discriminate |].
    destruct (doPing_real env payload opts net w Hdry H) as (raw & w' & E & Hp & _ & Htr).
    eexists raw, w', [_; _; _], [_].
    split; [exact E |]. split; [exact Hp |].
    split; [exact Htr | repeat constructor].
Qed.

(** With a numeric concurrency every URL of the batch is pinged. *)
Lemma numeric_concurrency_pings_the_batch (env : RuntimeEnv) (payload : PingPayload)
    (opts : PingOpts) (w : world) :
  JS.is_nan (default (Number_or (PING_CONCURRENCY env) 6) (o_concurrency opts)) = false ->
  run_pinged env payload opts w = run_batch env payload opts w.
Proof.
  intros H. destruct (max_concurrency_clamped env opts H) as (c & E & Hc & _).
  unfold run_pinged. rewrite E. apply taken_all. apply Qle_bool_iff. exact Hc.
Qed.

(** C10, amended: when the cursor is at or past the end of the endpoint list
    and the budget is a number, a run that is not skipped completes with
    status "done", an empty summary, [batchCount = 0], [nextCursor = null]
    and [batchEnd] equal to the length of the list, which is at most
    [batchStart] - strictly less exactly when the cursor is past the length;
    no ping is sent. *)
Theorem C10_cursor_at_or_past_the_end (env : RuntimeEnv) (payload : PingPayload)
    (opts : PingOpts) (net : network) (w : world) :
  let len := length (run_endpoints env payload opts w) in
  let cursor := default (JS.of_Z 0) (o_cursor opts) in
  default false (o_dryRun opts) = true \/ text_truthy (kv_read w RL_KEY) = false ->
  JS.is_nan (Number_or (SUBREQ_BUDGET env) 45) = false ->
  JS.leb (JS.of_nat len) cursor = true ->
  exists r w' evs,
    doPing env payload opts net w = (Done r, w')
    /\ Report.summary r = []
    /\ Report.nextCursor r = None
    /\ Totals.total (Report.totals r) = len
    /\ Totals.batchCount (Report.totals r) = 0%nat
    /\ Totals.batchEnd (Report.totals r) = JS.of_nat len
    /\ JS.leb (Totals.batchEnd (Report.totals r)) (Totals.batchStart (Report.totals r)) = true
    /\ JS.ltb (Totals.batchEnd (Report.totals r)) (Totals.batchStart (Report.totals r))
       = JS.ltb (JS.of_nat len) cursor
    /\ trace w' = trace w ++ evs
    /\ Forall (fun e => is_ping e = false) evs.
Proof.
  intros len cursor Hrun Hbudget Hcursor.
  destruct (subreq_budget_clamped env Hbudget) as (b & Eb & Hb & _).
  destruct (plan_past (run_endpoints env payload opts w) b Hb cursor Hcursor)
    as (Hbatch & Hnext & Hend & Hle & Hlt).
  rewrite <- Eb in Hbatch, Hnext, Hend, Hle, Hlt.
  destruct (doPing_done env payload opts net w Hrun) as (raw & w' & pre & post & E & Hp & Htr & Hev).
  assert (run_pinged env payload opts w = []) as Hnone.
  { unfold run_pinged, run_batch. fold cursor. rewrite Hbatch. apply taken_nil. }
  rewrite Hnone in Hp, Htr. apply Permutation_nil_r in Hp.
  apply map_eq_nil in Hp. subst raw.
  eexists _, w', (pre ++ post). split; [exact E |].
  cbn [report_of Report.summary Report.nextCursor Report.totals Totals.total
       Totals.batchCount Totals.batchEnd Totals.batchStart].
  fold cursor. rewrite Hbatch.
  split; [unfold filter_only; repeat destruct (String.eqb _ _); reflexivity |].
  split; [exact Hnext |]. split; [reflexivity |]. split; [reflexivity |].
  split; [exact Hend |]. split; [exact Hle |]. split; [exact Hlt |].
  split; [exact Htr | exact Hev].
Qed.

(** C10 at two endpoints and cursor five. *)
Lemma C10_witness :
  let payload := payload_with ["https://e0/"; "https://e1/"] in
  let opts := {| o_dryRun := Some true; o_concurrency := None; o_timeoutMs := None;
                 o_limit := None; o_verbose := None; o_only := None;
                 o_cursor := Some (JS.of_Z 5) |} in
  exists r w' evs,
    doPing env0 payload opts all_ok w0 = (Done r, w')
    /\ Report.summary r = []
    /\ Report.nextCursor r = None
    /\ Totals.total (Report.totals r) = 2%nat
    /\ Totals.batchCount (Report.totals r) = 0%nat
    /\ Totals.batchEnd (Report.totals r) = JS.of_nat 2
    /\ JS.leb (Totals.batchEnd (Report.totals r)) (Totals.batchStart (Report.totals r)) = true
    /\ JS.ltb (Totals.batchEnd (Report.totals r)) (Totals.batchStart (Report.totals r))
       = JS.ltb (JS.of_nat 2) (JS.of_Z 5)
    /\ trace w' = trace w0 ++ evs
    /\ Forall (fun e => is_ping e = false) evs.
Proof.
  apply (C10_cursor_at_or_past_the_end env0
           (payload_with ["https://e0/"; "https://e1/"])
           {| o_dryRun := Some true; o_concurrency := None; o_timeoutMs := None;
              o_limit := None; o_verbose := None; o_only := None;
              o_cursor := Some (JS.of_Z 5) |} all_ok w0).
  - left. reflexivity.
  - reflexivity.
  - reflexivity.
Defined.

(** C10 as stated fails when the cursor equals the length of the list: the
    run of two endpoints with cursor 2 reports [batchEnd = batchStart = 2],
    so [batchEnd] is not strictly less than [batchStart]. *)
Lemma C10_counterexample :
  let opts := {| o_dryRun := Some true; o_concurrency := None; o_timeoutMs := None;
                 o_limit := None; o_verbose := None; o_only := None;
                 o_cursor := Some (JS.of_Z 2) |} in
  exists r w',
    doPing env0 (payload_with ["https://e0/"; "https://e1/"]) opts all_ok w0 = (Done r, w')
    /\ JS.leb (JS.of_nat (Totals.total (Report.totals r))) (JS.of_Z 2) = true
    /\ Totals.batchEnd (Report.totals r) = JS.of_Z 2
    /\ Totals.batchStart (Report.totals r) = JS.of_Z 2
    /\ JS.ltb (Totals.batchEnd (Report.totals r)) (Totals.batchStart (Report.totals r)) = false.
Proof.
  eexists _, _. split; [vm_compute; reflexivity |]. vm_compute. repeat split.
Qed.

(** The skipped run of the manual trigger: [doPing] returns at the
    rate-limit check, and [fetch] then stores the skipped report under
    the last-real-result key. *)
Lemma fetch_rate_limited (request : Request) (env : RuntimeEnv) (net : network) (w : world) :
  authorised_post request env -> r_body request <> JsonNull ->
  opt_eqb (searchParams_get (r_search request) "dry") "1" = false ->
  text_truthy (kv_read w RL_KEY) = true ->
  let res := Skipped "rate-limited (<=1/hour)" in
  fetch request env net w
  = (reply_of request res,
     {| kv := <[LAST_RESULT_KEY := {| value := VResult (clock w) None res;
                                      expires := Some (clock w + WEEK_TTL * 1000)%Z |}]> (kv w);
        clock := clock w;
        trace := trace w ++ [KvGet RL_KEY;
                             KvPut LAST_RESULT_KEY (VResult (clock w) None res)
                                   (Some WEEK_TTL)] |}).
Proof.
  intros Hauth Hbody Hdry Hrl res. rewrite (fetch_post request env net w Hauth Hbody).
  rewrite doPing_skipped; [| cbn; exact Hdry | exact Hrl].
  rewrite Hdry. cbn [persisted_key persisted_ttl kv clock trace].
  rewrite <- app_assoc. reflexivity.
Qed.

(** C2 at the failing input: a manual real run that finds the rate-limit
    record of an earlier run returns status "skipped", and the
    last-real-result record, which held the rows of that earlier run, now
    holds the skipped report. *)
Theorem C2_skipped_run_overwrites_last_result :
  let request := post [] empty_payload in
  let res := Skipped "rate-limited (<=1/hour)" in
  exists w',
    text_truthy (kv_read w_locked RL_KEY) = true
    /\ fetch request env0 all_ok w_locked = (Json res, w')
    /\ status res = "skipped"
    /\ trace w' = [KvGet RL_KEY;
                   KvPut LAST_RESULT_KEY (VResult 1700000000000 None res) (Some WEEK_TTL)]
    /\ kv w' !! LAST_RESULT_KEY
       = Some {| value := VResult 1700000000000 None res;
                 expires := Some 1700604800000%Z |}
    /\ kv w' !! LAST_RESULT_KEY <> kv w_locked !! LAST_RESULT_KEY.
Proof.
  eexists. split; [reflexivity |].
  split; [apply (fetch_rate_limited (post [] empty_payload) env0 all_ok w_locked);
          [split; reflexivity | discriminate | reflexivity | reflexivity] |].
  split; [reflexivity |]. split; [reflexivity |].
  cbn [kv]. rewrite lookup_insert_eq. split; [reflexivity |].
  vm_compute. discriminate.
Qed.

(** Whatever the rows, the totals are counted on the filtered rows: with
    [only = "fail"] no success is left to count, with [only = "success"]
    no failure. *)
Lemma totals_follow_the_filter (env : RuntimeEnv) (payload : PingPayload)
    (opts : PingOpts) (endpoints : list string) (raw : list PingResult.t) :
  let totals only := Report.totals (report_of env payload opts endpoints (filter_only only raw)) in
  Totals.ok (totals "fail") = 0%nat
  /\ Totals.fail (totals "fail") = length (filter (fun r => negb (PingResult.ok r)) raw)
  /\ Totals.ok (totals "success") = length (filter (fun r => PingResult.ok r) raw)
  /\ Totals.fail (totals "success") = 0%nat
  /\ Totals.ok (totals "all") = length (filter (fun r => PingResult.ok r) raw)
  /\ Totals.fail (totals "all") = length (filter (fun r => negb (PingResult.ok r)) raw).
Proof.
  cbn [report_of Report.totals Totals.ok Totals.fail]. unfold filter_only.
  change (String.eqb "fail" "fail") with true.
  change (String.eqb "fail" "success") with false.
  change (String.eqb "success" "fail") with false.
  change (String.eqb "success" "success") with true.
  change (String.eqb "all" "fail") with false.
  change (String.eqb "all" "success") with false.
  cbn iota. rewrite !list_filter_filter.
  assert (forall P : PingResult.t -> Prop, (forall r, P r -> False) ->
          forall (D : forall r, Decision (P r)), length (filter P raw) = 0%nat) as Hnone.
  { intros P HP D. induction raw as [| r l IH]; [reflexivity |].
    rewrite filter_cons. destruct (decide (P r)) as [Hr | _]; [destruct (HP r Hr) | exact IH]. }
  assert (forall P Q : PingResult.t -> Prop, (forall r, P r <-> Q r) ->
          forall (DP : forall r, Decision (P r)) (DQ : forall r, Decision (Q r)),
            filter P raw = filter Q raw) as Hsame.
  { intros P Q HPQ DP DQ. apply list_filter_iff. exact HPQ. }
  split; [apply Hnone; intros r [H1 H2]; destruct (PingResult.ok r); auto |].
  split; [f_equal; apply Hsame; intros r; destruct (PingResult.ok r); cbn; tauto |].
  split; [f_equal; apply Hsame; intros r; destruct (PingResult.ok r); cbn; tauto |].
  split; [apply Hnone; intros r [H1 H2]; destruct (PingResult.ok r); auto |].
  split; reflexivity.
Qed.

(** C3 at the failing input: ten endpoints of which three answer 500 and
    seven 200.  Unfiltered, the totals are 7 and 3; with [only = "fail"]
    the summary holds the three failing rows but the totals say 0
    successes; with [only = "success"] they say 0 failures. *)
Theorem C3_totals_counted_after_the_filter :
  let run only :=
    (doPing env0 (payload_with ten_endpoints)
       {| o_dryRun := Some true; o_concurrency := None; o_timeoutMs := None;
          o_limit := None; o_verbose := None; o_only := Some only; o_cursor := None |}
       three_fail w0).1 in
  let totals res :=
    match res with
    | Done r => Some (Totals.total (Report.totals r), Totals.ok (Report.totals r),
                      Totals.fail (Report.totals r))
    | Skipped _ => None
    end in
  totals (run "all") = Some (10, 7, 3)%nat
  /\ totals (run "fail") = Some (10, 0, 3)%nat
  /\ totals (run "success") = Some (10, 7, 0)%nat
  /\ map PingResult.url (summary_of (run "fail")) = ["https://e2/"; "https://e5/"; "https://e7/"]
  /\ map PingResult.ok (summary_of (run "fail")) = [false; false; false].
Proof. vm_compute. repeat split. Qed.

(** C7 at the failing input: a [SUBREQ_BUDGET] and a [PING_CONCURRENCY]
    that are not numbers pass through both clamps as NaN; the report of the
    completed run carries NaN for both, neither is within its bounds, and
    although the list has ten endpoints the batch is empty and nothing is
    pinged. *)
Theorem C7_clamps_let_NaN_through :
  let env := env_tuned (Some "abc") (Some "many") in
  let opts := {| o_dryRun := Some true; o_concurrency := None; o_timeoutMs := None;
                 o_limit := None; o_verbose := None; o_only := None; o_cursor := None |} in
  exists r w',
    doPing env (payload_with ten_endpoints) opts all_ok w0 = (Done r, w')
    /\ Report.subrequestBudget r = JS.NaN
    /\ Report.concurrencyUsed r = JS.NaN
    /\ JS.leb (JS.of_Z 1) (Report.subrequestBudget r) = false
    /\ JS.leb (JS.of_Z 1) (Report.concurrencyUsed r) = false
    /\ Totals.total (Report.totals r) = 10%nat
    /\ Totals.batchCount (Report.totals r) = 0%nat
    /\ Report.summary r = []
    /\ trace w' = [KvGet ENDPOINTS_KEY].
Proof.
  eexists _, _. split; [vm_compute; reflexivity |]. vm_compute. repeat split.
Qed.

(** With a numeric budget alone, a [PING_CONCURRENCY] that is not a number
    leaves the pool without a worker: the batch of three is planned and none
    of its URLs is pinged. *)
Lemma no_worker_no_ping :
  let env := env_tuned (Some "3") (Some "many") in
  let opts := {| o_dryRun := Some true; o_concurrency := None; o_timeoutMs := None;
                 o_limit := None; o_verbose := None; o_only := None; o_cursor := None |} in
  exists r w',
    doPing env (payload_with ten_endpoints) opts all_ok w0 = (Done r, w')
    /\ Totals.batchCount (Report.totals r) = 3%nat
    /\ Report.summary r = []
    /\ Report.nextCursor r = Some (JS.of_Z 3)
    /\ trace w' = [KvGet ENDPOINTS_KEY].
Proof.
  eexists _, _. split; [vm_compute; reflexivity |]. vm_compute. repeat split.
Qed.

(** * Further properties *)

(** ** The planner at its edges *)

Lemma Qceiling_above (n : Z) (b : Q) : (inject_Z n < 1 + b)%Q -> n <= Qceiling b.
Proof.
  intros H. pose proof (Qle_ceiling b) as Hc.
  assert (inject_Z n < inject_Z (Qceiling b + 1))%Q as Hlt.
  { rewrite inject_Z_plus. change (inject_Z 1) with 1%Q. lra. }
  rewrite <- Zlt_Qlt in Hlt. lia.
Qed.

Lemma slice_length_le {A} (l : list A) (a b : JS.num) :
  (length (JS.slice l a b) <= JS.slice_index (length l) b - JS.slice_index (length l) a)%nat.
Proof. unfold JS.slice. rewrite length_take. lia. Qed.

Lemma slice_none {A} (l : list A) (a : JS.num) : JS.slice l a JS.NaN = [].
Proof. unfold JS.slice. cbn [JS.slice_index]. reflexivity. Qed.

(** A batch is never longer than the budget, rounded up. *)
Lemma plan_batch_length (endpoints : list string) (b : Q) (cursor : JS.num) :
  (1 <= b)%Q ->
  (length (plan_batch (plan endpoints (JS.Fin b) cursor)) <= Z.to_nat (Qceiling b))%nat.
Proof.
  intros Hb. unfold plan. cbn [plan_batch].
  assert (0 <= inject_Z (Z.of_nat (length endpoints)))%Q as HL
    by (rewrite <- (Zle_Qle 0); lia).
  assert (exists s, JS.Math_max (JS.of_Z 0) cursor = s
            /\ (s = JS.NaN \/ s = JS.PosInf \/ exists q, s = JS.Fin q /\ (0 <= q)%Q))
    as (s & -> & Hs).
  { eexists. split; [reflexivity |].
    destruct cursor as [| | | q]; [left | right; right | right; left | right; right];
      try reflexivity.
    - exists (inject_Z 0). split; [reflexivity | change (inject_Z 0) with 0%Q; lra].
    - unfold JS.Math_max, JS.of_Z. cbn [JS.is_nan orb JS.ltb].
      destruct (JS.Qltb (inject_Z 0) q) eqn:E; eexists; (split; [reflexivity |]).
      + apply Qltb_lt in E. change (inject_Z 0) with 0%Q in E. lra.
      + change (inject_Z 0) with 0%Q. lra. }
  destruct Hs as [-> | [-> | (q & -> & Hq)]].
  - change (JS.Math_min (JS.of_nat (length endpoints)) (JS.add JS.NaN (JS.Fin b)))
      with JS.NaN.
    rewrite slice_none. cbn [length]. lia.
  - etransitivity; [apply slice_length_le |].
    change (JS.Math_min (JS.of_nat (length endpoints)) (JS.add JS.PosInf (JS.Fin b)))
      with (JS.of_nat (length endpoints)).
    rewrite slice_index_len. cbn [JS.slice_index]. lia.
  - etransitivity; [apply slice_length_le |]. cbn [JS.add].
    rewrite (slice_index_fin endpoints q Hq).
    pose proof (Qfloor_nonneg q Hq) as Hfq.
    pose proof (Qfloor_le q) as Hf1. pose proof (Qlt_floor q) as Hf2.
    rewrite inject_Z_plus in Hf2. change (inject_Z 1) with 1%Q in Hf2.
    change (JS.Math_min (JS.of_nat (length endpoints)) (JS.Fin (q + b)))
      with (if JS.Qltb (q + b) (inject_Z (Z.of_nat (length endpoints)))
            then JS.Fin (q + b) else JS.of_nat (length endpoints)).
    destruct (JS.Qltb (q + b) (inject_Z (Z.of_nat (length endpoints)))) eqn:E.
    + rewrite (slice_index_fin endpoints (q + b)) by lra.
      pose proof (Qfloor_le (q + b)) as Hg.
      assert (Qfloor (q + b) - Qfloor q <= Qceiling b).
      { apply Qceiling_above. unfold Z.sub. rewrite inject_Z_plus, inject_Z_opp. lra. }
      lia.
    + apply Qltb_ge in E. rewrite slice_index_len.
      assert (Z.of_nat (length endpoints) - Qfloor q <= Qceiling b).
      { apply Qceiling_above. unfold Z.sub. rewrite inject_Z_plus, inject_Z_opp. lra. }
      lia.
Qed.

(** Without a numeric budget the batch is empty. *)
Lemma plan_batch_nan (endpoints : list string) (cursor : JS.num) :
  plan_batch (plan endpoints JS.NaN cursor) = []
  /\ plan_nextCursor (plan endpoints JS.NaN cursor) = None.
Proof.
  unfold plan. cbn [plan_batch plan_nextCursor].
  assert (JS.add (JS.Math_max (JS.of_Z 0) cursor) JS.NaN = JS.NaN) as ->.
  { destruct (JS.Math_max (JS.of_Z 0) cursor); reflexivity. }
  change (JS.Math_min (JS.of_nat (length endpoints)) JS.NaN) with JS.NaN.
  split; [apply slice_none | reflexivity].
Qed.

(** Both clamps give NaN or a number within their bounds. *)
Lemma clamp_cases (x : JS.num) (hi : Z) :
  1 <= hi ->
  JS.Math_max (JS.of_Z 1) (JS.Math_min x (JS.of_Z hi)) = JS.NaN
  \/ exists q, JS.Math_max (JS.of_Z 1) (JS.Math_min x (JS.of_Z hi)) = JS.Fin q
       /\ (1 <= q)%Q /\ (q <= inject_Z hi)%Q.
Proof.
  intros Hhi. destruct (JS.is_nan x) eqn:E.
  - left. destruct x; try discriminate. reflexivity.
  - right. apply clamp_numeric; assumption.
Qed.

Lemma run_batch_length (env : RuntimeEnv) (payload : PingPayload) (opts : PingOpts)
    (w : world) :
  (length (run_batch env payload opts w) <= 1000)%nat
  /\ forall b, subreq_budget env = JS.Fin b ->
       (length (run_batch env payload opts w) <= Z.to_nat (Qceiling b))%nat.
Proof.
  unfold run_batch.
  destruct (clamp_cases (Number_or (SUBREQ_BUDGET env) 45) 1000) as [E | (q & E & H1 & H2)];
    [lia | |]; fold (subreq_budget env) in E; rewrite E.
  - rewrite (proj1 (plan_batch_nan _ _)). split; [cbn; lia | discriminate].
  - pose proof (plan_batch_length (run_endpoints env payload opts w) q
                  (default (JS.of_Z 0) (o_cursor opts)) H1) as Hlen.
    split.
    + pose proof (Qceiling_resp_le _ _ H2) as Hc. rewrite Qceiling_Z in Hc. lia.
    + intros b [= <-]. exact Hlen.
Qed.

Lemma taken_length {T} (items : list T) (size : JS.num) :
  (length (taken items size) <= length items)%nat.
Proof. unfold taken. destruct (workers items size); cbn; lia. Qed.

Lemma filter_pings_only (body : string) (urls : list string) :
  filter (fun e => is_ping e) (map (fun u => PingSent u body) urls)
  = map (fun u => PingSent u body) urls.
Proof.
  pose proof (filter_pings body urls []) as H. rewrite !app_nil_r in H. exact H.
Qed.

Lemma filter_none (evs : list event) :
  Forall (fun e => is_ping e = false) evs -> filter (fun e => is_ping e) evs = [].
Proof.
  induction 1 as [| e evs He _ IH]; [reflexivity |].
  rewrite filter_cons_False by (rewrite He; exact id). exact IH.
Qed.

(** Every run of [doPing]: skipped at the rate-limit check, or done. *)
Lemma doPing_cases (env : RuntimeEnv) (payload : PingPayload) (opts : PingOpts)
    (net : network) (w : world) :
  exists res w' evs,
    doPing env payload opts net w = (res, w')
    /\ trace w' = trace w ++ evs
    /\ (filter (fun e => is_ping e) evs = []
        \/ filter (fun e => is_ping e) evs
           = map (fun u => PingSent u (run_body env payload)) (run_pinged env payload opts w)).
Proof.
  destruct (default false (o_dryRun opts)) eqn:Hdry;
    [| destruct (text_truthy (kv_read w RL_KEY)) eqn:Hrl].
  - destruct (doPing_done env payload opts net w (or_introl Hdry))
      as (raw & w' & pre & post & E & _ & Htr & Hev).
    eexists _, w', _. split; [exact E |]. split; [exact Htr |]. right.
    apply Forall_app in Hev as [Hpre Hpost].
    rewrite filter_app, (filter_none pre Hpre), filter_app, filter_pings_only,
      (filter_none post Hpost), app_nil_r. reflexivity.
  - rewrite (doPing_skipped env payload opts net w Hdry Hrl).
    eexists _, _, [KvGet RL_KEY]. split; [reflexivity |]. split; [reflexivity |].
    left. reflexivity.
  - destruct (doPing_done env payload opts net w (or_intror Hrl))
      as (raw & w' & pre & post & E & _ & Htr & Hev).
    eexists _, w', _. split; [exact E |]. split; [exact Htr |]. right.
    apply Forall_app in Hev as [Hpre Hpost].
    rewrite filter_app, (filter_none pre Hpre), filter_app, filter_pings_only,
      (filter_none post Hpost), app_nil_r. reflexivity.
Qed.

Lemma slice_index_le (len : nat) (a : JS.num) : (JS.slice_index len a <= len)%nat.
Proof.
  destruct a as [| | | q]; cbn [JS.slice_index]; try lia.
  cbv zeta. destruct (Z.ltb_spec (JS.Qtrunc q) 0); lia.
Qed.

(** With rounded sums too, the batch planned from a whole cursor is never
    longer than the budget, rounded up. *)
Lemma plan64_batch_length (endpoints : list string) (b : Q) (z : Z) :
  (1 <= b)%Q -> (b <= 1000)%Q -> (Z.of_nat (length endpoints) < 2 ^ 32)%Z ->
  (length (plan_batch (plan64 endpoints (JS.Fin b) (JS.of_Z z))) <= Z.to_nat (Qceiling b))%nat.
Proof.
  intros Hb Hb' Hsize. unfold plan64. cbv zeta. cbn [plan_batch].
  assert (exists z', JS.Math_max (JS.of_Z 0) (JS.of_Z z) = JS.of_Z z' /\ 0 <= z')
    as (z' & -> & Hz').
  { unfold JS.Math_max, JS.of_Z. cbn [JS.is_nan orb JS.ltb].
    destruct (JS.Qltb (inject_Z 0) (inject_Z z)) eqn:E.
    - exists z. split; [reflexivity |]. apply Qltb_lt in E. rewrite <- Zlt_Qlt in E. lia.
    - exists 0. split; [reflexivity | lia]. }
  etransitivity; [apply slice_length_le |].
  assert (JS.slice_index (length endpoints) (JS.of_Z z')
          = Z.to_nat (Z.min z' (Z.of_nat (length endpoints)))) as ->.
  { unfold JS.of_Z. rewrite slice_index_fin by (rewrite <- (Zle_Qle 0); exact Hz').
    rewrite Qfloor_Z. reflexivity. }
  pose proof (Qle_ceiling b) as Hc.
  assert (Qceiling b <= 1000) as Hc'.
  { rewrite <- (Qceiling_Z 1000). apply Qceiling_resp_le. exact Hb'. }
  destruct (Z.lt_ge_cases z' (Z.of_nat (length endpoints))) as [Hin | Hout].
  - destruct (round_between (inject_Z z' + b) (z' + 1) (z' + Qceiling b))
      as (r & Hr & Hlo & Hhi).
    + lia.
    + rewrite inject_Z_plus. change (inject_Z 1) with 1%Q. lra.
    + rewrite inject_Z_plus. lra.
    + assert (2 ^ 32 + 1000 < 2 ^ 53) by reflexivity. lia.
    + unfold JS64.add, JS.of_Z. cbn [JS.add JS64.to64]. rewrite Hr.
      assert (0 <= r)%Q as Hr0.
      { assert (inject_Z 0 <= inject_Z (z' + 1))%Q by (rewrite <- Zle_Qle; lia).
        change (inject_Z 0) with 0%Q in *. lra. }
      assert (Qfloor r <= z' + Qceiling b) as Hfr.
      { rewrite <- (Qfloor_Z (z' + Qceiling b)). apply Qfloor_resp_le. exact Hhi. }
      pose proof (Qfloor_nonneg r Hr0) as Hf0.
      unfold JS.Math_min, JS.of_nat, JS.of_Z. cbn [JS.is_nan orb JS.ltb].
      destruct (JS.Qltb r (inject_Z (Z.of_nat (length endpoints)))) eqn:E.
      * rewrite slice_index_fin by exact Hr0. lia.
      * apply Qltb_ge in E.
        assert (inject_Z (Z.of_nat (length endpoints)) <= inject_Z (z' + Qceiling b))%Q
          as Hl by lra.
        rewrite <- Zle_Qle in Hl.
        fold (JS.of_Z (Z.of_nat (length endpoints))). fold (JS.of_nat (length endpoints)).
        rewrite slice_index_len. lia.
  - pose proof (slice_index_le (length endpoints)
                  (JS.Math_min (JS.of_nat (length endpoints))
                     (JS64.add (JS.of_Z z') (JS.Fin b)))). lia.
Qed.

(** The hypothesis on the cursor of X1 is needed: with the cursor
    0.9999999999999999 and a budget of 45 the rounded sum is 46, and the
    slice from 0 to 46 holds 46 URLs. *)
Lemma rounded_sum_takes_one_more :
  let cursor := JS64.Number "0.9999999999999999" in
  length (plan_batch (plan64 (replicate 50 "u") (JS.of_Z 45) cursor)) = 46%nat
  /\ length (plan_batch (plan (replicate 50 "u") (JS.of_Z 45) cursor)) = 45%nat.
Proof. vm_compute. split; reflexivity. Qed.

(** X1: whatever the configuration, the store and the network, one
    invocation of [doPing] whose cursor is a whole number (0 when the caller
    gives none) sends at most 1000 pings, and at most its budget (rounded
    up) when the budget is a number.  So it is with the numbers of the
    engine, which holds the budget as a binary64 number and rounds the sum:
    the slice taken of the endpoint list (an array: fewer than 2^32
    entries) is no longer than the budget, rounded up. *)
Theorem doPing_sends_at_most_the_budget (env : RuntimeEnv) (payload : PingPayload)
    (opts : PingOpts) (net : network) (w : world) (z : Z) :
  default (JS.of_Z 0) (o_cursor opts) = JS.of_Z z ->
  (exists res w' evs,
     doPing env payload opts net w = (res, w')
     /\ trace w' = trace w ++ evs
     /\ (length (filter (fun e => is_ping e) evs) <= 1000)%nat
     /\ forall b, subreq_budget env = JS.Fin b ->
          (length (filter (fun e => is_ping e) evs) <= Z.to_nat (Qceiling b))%nat)
  /\ forall b, subreq_budget env = JS.Fin b ->
       Z.of_nat (length (run_endpoints env payload opts w)) < 2 ^ 32 ->
       exists b64, JS64.to64 (subreq_budget env) = JS.Fin b64
         /\ (length (plan_batch (plan64 (run_endpoints env payload opts w) (JS.Fin b64)
                                   (default (JS.of_Z 0) (o_cursor opts))))
             <= Z.to_nat (Qceiling b))%nat
         /\ Qceiling b <= 1000.
Proof.
  intros Hcursor. split.
  - destruct (doPing_cases env payload opts net w) as (res & w' & evs & E & Htr & Hp).
    exists res, w', evs. split; [exact E |]. split; [exact Htr |].
    destruct (run_batch_length env payload opts w) as [H1 H2].
    pose proof (taken_length (run_batch env payload opts w) (max_concurrency env opts)) as Ht.
    fold (run_pinged env payload opts w) in Ht.
    destruct Hp as [-> | ->].
    + split; [cbn; lia | intros b _; cbn; lia].
    + rewrite length_map. split; [lia |]. intros b Hb. specialize (H2 b Hb). lia.
  - intros b Hbudget Hsize. rewrite Hcursor, Hbudget. cbn [JS64.to64].
    assert (1 <= b /\ b <= 1000)%Q as [Hb Hb'].
    { destruct (clamp_cases (Number_or (SUBREQ_BUDGET env) 45) 1000) as [E | (q & E & H1 & H2)];
        [lia | |]; fold (subreq_budget env) in E; rewrite Hbudget in E; [discriminate |].
      injection E as ->. change (inject_Z 1000) with 1000%Q in H2. split; assumption. }
    pose proof (Qle_ceiling b) as Hc.
    assert (Qceiling b <= 1000) as Hc'.
    { rewrite <- (Qceiling_Z 1000). apply Qceiling_resp_le. exact Hb'. }
    destruct (round_between b 1 (Qceiling b)) as (b64 & Hr & Hlo & Hhi);
      [lia | exact Hb | exact Hc | lia |].
    exists b64. split; [exact Hr |]. split; [| exact Hc'].
    assert (b64 <= 1000)%Q as H64.
    { assert (inject_Z (Qceiling b) <= inject_Z 1000)%Q by (rewrite <- Zle_Qle; exact Hc').
      change (inject_Z 1000) with 1000%Q in *. lra. }
    assert (0 <= Qceiling b) as Hc0.
    { rewrite Zle_Qle. change (inject_Z 0) with 0%Q. lra. }
    etransitivity; [apply plan64_batch_length; assumption |].
    apply Z2Nat.inj_le.
    + rewrite <- (Qceiling_Z 0). apply Qceiling_resp_le. change (inject_Z 0) with 0%Q.
      change (inject_Z 1) with 1%Q in Hlo. lra.
    + lia.
    + rewrite <- (Qceiling_Z (Qceiling b)). apply Qceiling_resp_le. exact Hhi.
Qed.

Lemma doPing_budget_witness :
  let env := env_tuned (Some "1.1") None in
  let opts := {| o_dryRun := Some true; o_concurrency := None; o_timeoutMs := None;
                 o_limit := None; o_verbose := None; o_only := None;
                 o_cursor := Some (JS.of_Z 4) |} in
  (exists res w' evs,
     doPing env (payload_with ten_endpoints) opts three_fail w0 = (res, w')
     /\ trace w' = trace w0 ++ evs
     /\ (length (filter (fun e => is_ping e) evs) <= 1000)%nat
     /\ forall b, subreq_budget env = JS.Fin b ->
          (length (filter (fun e => is_ping e) evs) <= Z.to_nat (Qceiling b))%nat)
  /\ forall b, subreq_budget env = JS.Fin b ->
       Z.of_nat (length (run_endpoints env (payload_with ten_endpoints) opts w0)) < 2 ^ 32 ->
       exists b64, JS64.to64 (subreq_budget env) = JS.Fin b64
         /\ (length (plan_batch (plan64 (run_endpoints env (payload_with ten_endpoints) opts w0)
                                   (JS.Fin b64) (default (JS.of_Z 0) (o_cursor opts))))
             <= Z.to_nat (Qceiling b))%nat
         /\ Qceiling b <= 1000.
Proof.
  apply (doPing_sends_at_most_the_budget (env_tuned (Some "1.1") None)
           (payload_with ten_endpoints)
           {| o_dryRun := Some true; o_concurrency := None; o_timeoutMs := None;
              o_limit := None; o_verbose := None; o_only := None;
              o_cursor := Some (JS.of_Z 4) |} three_fail w0 4).
  reflexivity.
Defined.

(** X2: a cursor that is negative (or minus infinity) plans exactly what
    cursor 0 plans. *)
Theorem plan_negative_cursor_is_zero (endpoints : list string) (budget cursor : JS.num) :
  JS.leb cursor (JS.of_Z 0) = true ->
  plan endpoints budget cursor = plan endpoints budget (JS.of_Z 0).
Proof.
  intros H. unfold plan.
  assert (JS.Math_max (JS.of_Z 0) cursor = JS.Math_max (JS.of_Z 0) (JS.of_Z 0)) as ->;
    [| reflexivity].
  destruct cursor as [| | | q]; try discriminate; [reflexivity |].
  apply Qle_bool_iff in H. unfold JS.Math_max, JS.of_Z in *. cbn [JS.is_nan orb JS.ltb].
  assert (JS.Qltb (inject_Z 0) q = false) as -> by (apply Qltb_ge; exact H).
  reflexivity.
Qed.

Lemma plan_negative_cursor_witness :
  JS.leb (JS.Fin (-3)) (JS.of_Z 0) = true
  /\ plan ten_endpoints (JS.of_Z 4) (JS.Fin (-3)) = plan ten_endpoints (JS.of_Z 4) (JS.of_Z 0).
Proof.
  split; [reflexivity |].
  apply (plan_negative_cursor_is_zero ten_endpoints (JS.of_Z 4) (JS.Fin (-3))).
  reflexivity.
Defined.

(** X3: with a budget of at least the length of the list, the first call
    plans the whole list and leaves nothing to resume. *)
Theorem plan_whole_list_in_one_call (endpoints : list string) (b : Q) :
  (1 <= b)%Q -> (inject_Z (Z.of_nat (length endpoints)) <= b)%Q ->
  plan_batch (plan endpoints (JS.Fin b) (JS.of_Z 0)) = endpoints
  /\ plan_nextCursor (plan endpoints (JS.Fin b) (JS.of_Z 0)) = None.
Proof.
  intros Hb Hlen.
  destruct (plan_last endpoints b (inject_Z 0)) as [Hn Hbatch].
  - change (inject_Z 0) with 0%Q. lra.
  - change (inject_Z 0) with 0%Q. lra.
  - split; [| exact Hn]. fold (JS.of_Z 0) in Hbatch. rewrite Hbatch, Qfloor_Z. reflexivity.
Qed.

Lemma plan_whole_list_witness :
  (1 <= 45)%Q /\ (inject_Z (Z.of_nat (length minimal_endpoints)) <= 45)%Q
  /\ plan_batch (plan minimal_endpoints (JS.Fin 45) (JS.of_Z 0)) = minimal_endpoints
  /\ plan_nextCursor (plan minimal_endpoints (JS.Fin 45) (JS.of_Z 0)) = None.
Proof.
  split; [discriminate |]. split; [discriminate |].
  apply (plan_whole_list_in_one_call minimal_endpoints 45); discriminate.
Defined.

(** ** The pool, step by step *)

Section PoolSteps.
Context {T Susp R : Type}.
Variable items : list T.
Variable fn : task T Susp R.
Variable net : network.

Lemma pull_inflight (p : pool Susp R) (w : world) :
  (length (inflight (pull items fn p w).1) <= S (length (inflight p)))%nat
  /\ results (pull items fn p w).1 = results p.
Proof.
  unfold pull. destruct (items !! i p) as [item |].
  - unfold bind. destruct (start fn item w) as [s w']. cbn.
    rewrite length_app. cbn. split; [lia | reflexivity].
  - cbn. split; [lia | reflexivity].
Qed.

Lemma spawn_inflight (n : nat) : forall (p : pool Susp R) (w : world),
  (length (inflight (spawn items fn n p w).1) <= n + length (inflight p))%nat.
Proof.
  induction n as [| n IH]; intros p w; [cbn; lia |].
  cbn [spawn]. unfold bind.
  pose proof (pull_inflight p w) as [Hp _].
  destruct (pull items fn p w) as [p' w']. cbn [fst] in Hp.
  specialize (IH p' w'). lia.
Qed.

Lemma settle_inflight (step : nat) (p : pool Susp R) (w : world) :
  inflight p <> [] ->
  (length (inflight (settle items fn net step p w).1) <= length (inflight p))%nat.
Proof.
  intros Hne. unfold settle.
  assert (pick (net step) mod length (inflight p) < length (inflight p))%nat as Hk.
  { apply Nat.mod_upper_bound. destruct (inflight p); [congruence | discriminate]. }
  destruct (lookup_lt_is_Some_2 _ _ Hk) as [s Es]. rewrite Es.
  unfold bind at 1. unfold advance at 1. unfold bind at 1.
  destruct (finish fn s _ _) as [x w1].
  match goal with |- context [pull items fn ?q w1] =>
    pose proof (pull_inflight q w1) as [Hp _] end.
  cbn [inflight] in Hp. rewrite length_delete in Hp by (rewrite Es; eauto).
  destruct (inflight p) as [| a l]; [congruence |]. cbn [length] in *. lia.
Qed.

(** The requests in flight never outnumber the workers. *)
Lemma reached_inflight (size : JS.num) (w0 : world) (n : nat) (p : pool Susp R) (w : world) :
  pool_reached items fn net size w0 n p w ->
  (length (inflight p) <= workers items size)%nat.
Proof.
  induction 1 as [p w E | step p p' w w' _ IH Hne E].
  - pose proof (spawn_inflight (workers items size)
                  {| i := O; results := []; inflight := [] |} w0) as H.
    rewrite E in H. cbn in H. lia.
  - pose proof (settle_inflight step p w Hne) as H. rewrite E in H. cbn [fst] in H. lia.
Qed.

Lemma drain_reached (size : JS.num) (w0 : world) (fuel : nat) :
  forall (step : nat) (p : pool Susp R) (w : world),
    pool_reached items fn net size w0 step p w ->
    exists n, pool_reached items fn net size w0 n
                (drain items fn net fuel step p w).1 (drain items fn net fuel step p w).2.
Proof.
  induction fuel as [| fuel IH]; intros step p w H; [exists step; exact H |].
  cbn [drain]. destruct (inflight p) eqn:E; [exists step; exact H |].
  unfold bind. destruct (settle items fn net step p w) as [p' w'] eqn:Es.
  apply IH. eapply reached_settle; [exact H | congruence | exact Es].
Qed.

(** The state [run_pool] ends in is one of the states reached. *)
Lemma run_pool_reached (size : JS.num) (w0 : world) :
  exists n, pool_reached items fn net size w0 n
              (run_pool items fn net size w0).1 (run_pool items fn net size w0).2.
Proof.
  unfold run_pool, bind.
  destruct (spawn items fn (workers items size) _ w0) as [p w] eqn:E.
  apply drain_reached with (step := O). constructor. exact E.
Qed.
End PoolSteps.

Lemma workers_le_size {T} (items : list T) (c : Q) (hi : Z) :
  (1 <= c)%Q -> (c <= inject_Z hi)%Q -> (workers items (JS.Fin c) <= Z.to_nat hi)%nat.
Proof.
  intros H1 H2. unfold workers, JS.Math_min, JS.of_nat, JS.of_Z.
  cbn [JS.is_nan orb JS.ltb].
  assert (forall q, (q <= c)%Q -> (JS.to_length (JS.Fin q) <= Z.to_nat hi)%nat) as Hq.
  { intros q Hqc. unfold JS.to_length.
    destruct (Qlt_le_dec q 0) as [Hneg | Hpos].
    - assert (JS.Qtrunc q <= 0).
      { unfold JS.Qtrunc. destruct q as [n d]. cbn.
        unfold Qlt in Hneg. cbn in Hneg.
        apply Z.quot_le_upper_bound; [lia |]. lia. }
      lia.
    - rewrite Qtrunc_nonneg by exact Hpos.
      assert (Qfloor q <= hi).
      { rewrite <- (Qfloor_Z hi). apply Qfloor_resp_le. lra. }
      lia. }
  destruct (JS.Qltb _ c) eqn:E.
  - apply Qltb_lt in E. apply Hq. lra.
  - apply Hq. lra.
Qed.

(** The pool of [doPing] has at most six workers, whatever the
    configuration. *)
Lemma doPing_workers (env : RuntimeEnv) (opts : PingOpts) (batch : list string) :
  (workers batch (max_concurrency env opts) <= 6)%nat.
Proof.
  unfold max_concurrency.
  destruct (clamp_cases (default (JS.Math_max (JS.of_Z 1)
              (JS.Math_min (Number_or (PING_CONCURRENCY env) 6) (JS.of_Z 10)))
              (o_concurrency opts)) 6) as [-> | (c & -> & H1 & H2)]; [lia | |].
  - cbn. lia.
  - apply (workers_le_size batch c 6 H1 H2).
Qed.

(** X4: at every state the pool of a run goes through, at most six requests
    are in flight - whatever [PING_CONCURRENCY] or the concurrency option
    say - and never more than the pool has workers. *)
Theorem at_most_six_requests_in_flight (env : RuntimeEnv) (opts : PingOpts)
    (batch : list string) (body : string) (verbose : bool) (net : network)
    (w0 : world) (n : nat) (p : pool (string * Z) PingResult.t) (w : world) :
  pool_reached batch (pingWithTimeout body verbose) net (max_concurrency env opts) w0 n p w ->
  (length (inflight p) <= workers batch (max_concurrency env opts))%nat
  /\ (length (inflight p) <= 6)%nat.
Proof.
  intros H. pose proof (reached_inflight _ _ _ _ _ _ _ _ H) as Hw.
  pose proof (doPing_workers env opts batch). split; [exact Hw | lia].
Qed.

Lemma at_most_six_witness :
  let env := env_tuned None (Some "50") in
  let fn := pingWithTimeout "<x/>" false in
  let start := spawn ten_endpoints fn (workers ten_endpoints (max_concurrency env no_opts))
                 {| i := O; results := []; inflight := [] |} w0 in
  (length (inflight start.1) <= workers ten_endpoints (max_concurrency env no_opts))%nat
  /\ (length (inflight start.1) <= 6)%nat.
Proof.
  apply (at_most_six_requests_in_flight (env_tuned None (Some "50")) no_opts ten_endpoints
           "<x/>" false all_ok w0 O _ (spawn ten_endpoints (pingWithTimeout "<x/>" false)
              (workers ten_endpoints (max_concurrency (env_tuned None (Some "50")) no_opts))
              {| i := O; results := []; inflight := [] |} w0).2).
  apply reached_start. apply surjective_pairing.
Defined.

(** ** The rows of [pingWithTimeout] *)

Lemma substring_length (n : nat) : forall s : string,
  (String.length (String.substring 0 n s) <= n)%nat.
Proof.
  induction n as [| n IH]; intros [| c s]; cbn; try lia.
  specialize (IH s). lia.
Qed.

Section PingRows.
Variable batch : list string.
Variable body : string.
Variable verbose : bool.
Variable net : network.

Local Abbreviation fn := (pingWithTimeout body verbose).

Local Abbreviation rows_inv := (rows_inv verbose).

Lemma pull_rows (p : pool (string * Z) PingResult.t) (w : world) :
  rows_inv p w -> rows_inv (pull batch fn p w).1 (pull batch fn p w).2.
Proof.
  intros [Hin Hres]. unfold pull. destruct (batch !! i p) as [url |].
  - cbn. split; [| exact Hres]. apply Forall_app. split; [exact Hin |].
    repeat constructor. cbn. lia.
  - cbn. split; assumption.
Qed.

Lemma spawn_rows (n : nat) : forall (p : pool (string * Z) PingResult.t) (w : world),
  rows_inv p w -> rows_inv (spawn batch fn n p w).1 (spawn batch fn n p w).2.
Proof.
  induction n as [| n IH]; intros p w H; [exact H |].
  cbn [spawn]. unfold bind. pose proof (pull_rows p w H) as Hp.
  destruct (pull batch fn p w) as [p' w']. apply IH. exact Hp.
Qed.

Lemma finish_row (s : string * Z) (r : response) (w : world) :
  s.2 <= clock w ->
  row_ok verbose (finish fn s r w).1 = true /\ (finish fn s r w).2 = w.
Proof.
  intros Hs. destruct s as [url started], r as [ok status text | e]; cbn in *.
  - split; [| reflexivity]. unfold row_ok. cbn.
    assert ((0 <=? clock w - started)%Z = true) as -> by (apply Z.leb_le; lia).
    destruct verbose, ok, text as [t |]; cbn; try reflexivity.
    apply Nat.leb_le. apply substring_length.
  - split; [| reflexivity]. unfold row_ok. cbn.
    assert ((0 <=? clock w - started)%Z = true) as -> by (apply Z.leb_le; lia).
    reflexivity.
Qed.

Lemma settle_rows (step : nat) (p : pool (string * Z) PingResult.t) (w : world) :
  rows_inv p w -> rows_inv (settle batch fn net step p w).1 (settle batch fn net step p w).2.
Proof.
  intros [Hin Hres].
  destruct (settle batch fn net step p w) as [p' w'] eqn:E. cbn [fst snd].
  unfold settle in E.
  destruct (inflight p !! (pick (net step) mod length (inflight p))%nat) as [s |] eqn:Es.
  2: { injection E as <- <-. split; assumption. }
  unfold bind at 1 in E. unfold advance at 1 in E. unfold bind at 1 in E.
  set (w1 := {| kv := kv w; clock := _; trace := trace w |}) in E.
  assert (clock w <= clock w1)%Z as Hclock by (cbn; lia).
  assert (s.2 <= clock w1)%Z as Hs.
  { pose proof (proj1 (Forall_lookup _ _) Hin _ _ Es) as H. cbn in H. lia. }
  destruct (finish_row s (reply (net step)) w1 Hs) as [Hrow Hw].
  destruct (finish fn s (reply (net step)) w1) as [x w2]. cbn [fst snd] in Hrow, Hw. subst w2.
  match type of E with pull batch fn ?q w1 = _ =>
    pose proof (pull_rows q w1) as Hp; rewrite E in Hp end.
  apply Hp. split; cbn [inflight results].
  - apply Forall_delete. eapply Forall_impl; [exact Hin |]. intros a Ha. cbn in Ha |- *. lia.
  - apply Forall_app. split; [exact Hres | repeat constructor; exact Hrow].
Qed.

Lemma drain_rows (fuel : nat) : forall (step : nat) (p : pool (string * Z) PingResult.t) (w : world),
  rows_inv p w -> rows_inv (drain batch fn net fuel step p w).1 (drain batch fn net fuel step p w).2.
Proof.
  induction fuel as [| fuel IH]; intros step p w H; [exact H |].
  cbn [drain]. destruct (inflight p); [exact H |].
  unfold bind. pose proof (settle_rows step p w H) as Hs.
  destruct (settle batch fn net step p w) as [p' w']. apply IH. exact Hs.
Qed.

(** X5: every row [runPool] returns for [pingWithTimeout], whatever the
    network does and whatever the pool size, has a latency that is not
    negative; a row with an error text is a failure of status 0 without a
    body snippet; a row has a body snippet only in verbose mode and for a
    failure, and the snippet has at most 200 characters. *)
Theorem every_row_is_well_formed (size : JS.num) (w : world) :
  Forall (fun r => row_ok verbose r = true) (runPool batch fn net size w).1.
Proof.
  unfold runPool, bind. destruct (run_pool batch fn net size w) as [p w'] eqn:E. cbn.
  unfold run_pool, bind in E.
  pose proof (spawn_rows (workers batch size) {| i := O; results := []; inflight := [] |} w)
    as Hs.
  destruct (spawn batch fn (workers batch size) _ w) as [p1 w1].
  pose proof (drain_rows (length batch) O p1 w1) as Hd. rewrite E in Hd.
  apply Hd, Hs. split; constructor.
Qed.
End PingRows.

(** ** The rate limit *)

Lemma pretty_N_go_nonempty (x : N) : forall s : string, s <> "" -> pretty_N_go x s <> "".
Proof.
  induction (N.lt_wf_0 x) as [x _ IH]; intros s Hs.
  destruct (N.eq_dec x 0%N) as [-> | Hx]; [rewrite pretty_N_go_0; exact Hs |].
  rewrite pretty_N_go_step by lia. apply IH; [apply N.div_lt; lia | discriminate].
Qed.

Lemma pretty_N_nonempty (x : N) : pretty x <> "".
Proof.
  unfold pretty, pretty_N. destruct (decide (x = 0%N)); [discriminate |].
  rewrite pretty_N_go_step by lia. apply pretty_N_go_nonempty. discriminate.
Qed.

(** The text of a timestamp is never empty. *)
Lemma String_of_time_truthy (t : Z) : JS.truthy (String_of_time t) = true.
Proof.
  unfold JS.truthy, String_of_time. apply negb_true_iff, String.eqb_neq.
  unfold pretty, pretty_Z. destruct t as [| p | p]; [discriminate | |].
  - apply (pretty_N_nonempty (N.pos p)).
  - discriminate.
Qed.

(** X6: after a real run that was not rate-limited, a second real run
    [dt] ms later is skipped exactly when it starts less than one hour after
    the first run wrote its rate-limit record; from then on it runs. *)
Theorem one_real_run_per_hour (env : RuntimeEnv) (payload1 payload2 : PingPayload)
    (opts1 opts2 : PingOpts) (net1 net2 : network) (dt : N) (w : world) :
  default false (o_dryRun opts1) = false ->
  default false (o_dryRun opts2) = false ->
  text_truthy (kv_read w RL_KEY) = false ->
  exists res1 res2 w1 w2,
    doPing env payload1 opts1 net1 w = (res1, w1)
    /\ two_runs env payload1 payload2 opts1 opts2 net1 net2 dt w = ((res1, res2), w2)
    /\ status res1 = "done"
    /\ status res2
       = if (clock w1 + Z.of_N dt <? clock w + HOUR_MS)%Z then "skipped" else "done".
Proof.
  intros Hd1 Hd2 Hrl.
  destruct (doPing_real env payload1 opts1 net1 w Hd1 Hrl) as (raw & w1 & E1 & _ & Hkv & _).
  unfold two_runs. unfold bind at 1. rewrite E1. unfold bind at 1. unfold advance at 1.
  set (w1' := {| kv := kv w1; clock := _; trace := trace w1 |}).
  assert (kv_read w1' RL_KEY
          = if (clock w1 + Z.of_N dt <? clock w + HOUR_MS)%Z
            then Some (rl_value w) else None) as Hread.
  { unfold kv_read. cbn [kv clock w1']. rewrite Hkv.
    rewrite lookup_insert_ne by discriminate. rewrite lookup_insert_eq. reflexivity. }
  unfold bind at 1.
  destruct (clock w1 + Z.of_N dt <? clock w + HOUR_MS)%Z eqn:Hlt.
  - rewrite (doPing_skipped env payload2 opts2 net2 w1' Hd2).
    + eexists _, _, w1, _. split; [reflexivity |]. split; [reflexivity |].
      rewrite Hlt. split; reflexivity.
    + rewrite Hread. cbn. apply String_of_time_truthy.
  - destruct (doPing_real env payload2 opts2 net2 w1' Hd2) as (raw2 & w2 & E2 & _).
    { rewrite Hread. reflexivity. }
    rewrite E2.
    eexists _, _, w1, _. split; [reflexivity |]. split; [reflexivity |].
    rewrite Hlt. split; reflexivity.
Qed.

Lemma one_real_run_per_hour_witness :
  exists res1 res2 w1 w2,
    doPing env0 (payload_with ten_endpoints) no_opts three_fail w0 = (res1, w1)
    /\ two_runs env0 (payload_with ten_endpoints) empty_payload no_opts no_opts
         three_fail all_ok 600000%N w0 = ((res1, res2), w2)
    /\ status res1 = "done"
    /\ status res2
       = if (clock w1 + Z.of_N 600000 <? clock w0 + HOUR_MS)%Z then "skipped" else "done".
Proof.
  apply (one_real_run_per_hour env0 (payload_with ten_endpoints) empty_payload no_opts no_opts
           three_fail all_ok 600000%N w0); reflexivity.
Defined.

(** ** The manual trigger at its edges *)

(** X7: a request that is neither the health page nor an authorised POST
    is answered 405 (not a POST) or 401 (a POST without the bearer token)
    and leaves the world as it was: nothing is read, written or sent. *)
Theorem fetch_rejects_without_effect (request : Request) (env : RuntimeEnv)
    (net : network) (w : world) :
  ~ (r_method request = "GET" /\ r_pathname request = "/health") ->
  ~ authorised_post request env ->
  fetch request env net w
  = (if String.eqb (r_method request) "POST" then Unauthorized else MethodNotAllowed, w).
Proof.
  intros Hh Ha. unfold fetch.
  destruct (String.eqb (r_method request) "GET" && String.eqb (r_pathname request) "/health")
    eqn:E.
  { apply andb_true_iff in E as [E1 E2]. apply String.eqb_eq in E1, E2. tauto. }
  destruct (String.eqb_spec (r_method request) "POST") as [Hm | Hm]; [| reflexivity].
  cbn [negb]. destruct (r_authorization request) as [a |] eqn:Eauth; [| reflexivity].
  cbn [truthy_opt opt_eqb].
  destruct (String.eqb_spec a ("Bearer " +:+ XMLRPC_PING_SECRET env)) as [-> | Hne].
  - exfalso. apply Ha. split; [exact Hm | exact Eauth].
  - rewrite orb_true_r. reflexivity.
Qed.

Lemma fetch_rejects_witness :
  let request := {| r_method := "POST"; r_pathname := "/"; r_search := [("dry", "1")];
                    r_authorization := Some "Bearer guess";
                    r_body := JsonObject (payload_with ten_endpoints) |} in
  fetch request env0 all_ok w_locked = (Unauthorized, w_locked).
Proof.
  apply (fetch_rejects_without_effect
           {| r_method := "POST"; r_pathname := "/"; r_search := [("dry", "1")];
              r_authorization := Some "Bearer guess";
              r_body := JsonObject (payload_with ten_endpoints) |} env0 all_ok w_locked).
  - intros [H _]. discriminate H.
  - intros [_ H]. discriminate H.
Defined.

Lemma readHealth_run (w : world) :
  readHealth w
  = (tt, {| kv := kv w; clock := clock w;
            trace := trace w ++ [KvGet RL_KEY; KvGet LAST_KEY; KvGet ENDPOINTS_KEY;
                                 KvGet LAST_RESULT_KEY; KvGet LAST_DRY_KEY;
                                 KvGet LAST_REQUEST_KEY] |}).
Proof.
  unfold readHealth, bind. rewrite !kv_get_run. cbn [kv clock trace ret].
  rewrite <- !app_assoc. reflexivity.
Qed.



(** ** The cron trigger, path by path *)

(** What a detector returns and the call it makes do not depend on the
    world. *)
Lemma detect_uniform (env : RuntimeEnv) (api : api_reply) :
  exists r evs,
    Forall (fun e => is_detector_call e = true) evs
    /\ forall w, detect env api w
                 = (r, {| kv := kv w; clock := clock w; trace := trace w ++ evs |}).
Proof.
  assert (forall (r : outcome (option string)) w,
            (r, w) = (r, {| kv := kv w; clock := clock w; trace := trace w ++ [] |}))
    as Hnil by (intros r w; rewrite app_nil_r; destruct w; reflexivity).
  unfold detect. destruct (String.eqb _ "cloudflare").
  - unfold latestCloudflareDeploy.
    destruct (id_of (CLOUDFLARE_API_TOKEN env)), (id_of (CLOUDFLARE_ACCOUNT_ID env)),
      (id_of (CLOUDFLARE_PAGES_PROJECT env));
      try (eexists _, []; split; [constructor | intros w; apply Hnil]).
    destruct api as [| [] [[sha | [| first rest]] |]];
      (eexists _, [_]; split; [| intros w; reflexivity]; repeat constructor).
  - unfold latestGithubCommit.
    destruct (id_of (GITHUB_REPO env));
      try (eexists _, []; split; [constructor | intros w; apply Hnil]).
    destruct api as [| [] [[sha | ds] |]];
      (eexists _, [_]; split; [| intros w; reflexivity]; repeat constructor).
Qed.

Lemma detector_calls_are_quiet (evs : list event) :
  Forall (fun e => is_detector_call e = true) evs ->
  Forall (fun e => is_ping e = false /\ is_put e = false /\ touches LAST_KEY e = false) evs.
Proof.
  intros H. eapply Forall_impl; [exact H |]. intros [] He; try discriminate.
  repeat split.
Qed.

(** X9: when the detector fails or finds no change id, the scheduled
    invocation ends there: the store is neither read nor written and nothing
    is pinged. *)
Theorem scheduled_without_id_does_nothing (env : RuntimeEnv) (api : api_reply)
    (net : network) (w w1 : world) (r : outcome (option string)) :
  detect env api w = (r, w1) ->
  r = Threw \/ r = Returned None ->
  scheduled env api net w = (tt, w1)
  /\ kv w1 = kv w
  /\ exists evs, trace w1 = trace w ++ evs
       /\ Forall (fun e => is_detector_call e = true) evs.
Proof.
  intros Hd Hr. destruct (detect_uniform env api) as (r' & evs & Hevs & Hu).
  rewrite Hu in Hd. injection Hd as -> <-.
  split; [| split; [reflexivity | exists evs; split; [reflexivity | exact Hevs]]].
  unfold scheduled, bind. rewrite Hu. destruct Hr as [-> | ->]; reflexivity.
Qed.

Lemma scheduled_without_id_witness :
  let w1 := {| kv := kv w_seen; clock := clock w_seen;
               trace := [DetectorCall "https://api.github.com/repos/owner/site/branches/main"] |} in
  scheduled env0 ApiRejected all_ok w_seen = (tt, w1)
  /\ kv w1 = kv w_seen
  /\ exists evs, trace w1 = trace w_seen ++ evs
       /\ Forall (fun e => is_detector_call e = true) evs.
Proof.
  apply (scheduled_without_id_does_nothing env0 ApiRejected all_ok w_seen _ Threw).
  - reflexivity.
  - left. reflexivity.
Defined.

(** X10: a change detected while the rate-limit record is alive is not
    processed and not marked as seen: the store is left as it was, so the
    change is found again at a later tick. *)
Theorem scheduled_rate_limited_keeps_the_marker (env : RuntimeEnv) (api : api_reply)
    (net : network) (w w1 : world) (id : string) :
  detect env api w = (Returned (Some id), w1) ->
  text_is (kv_read w LAST_KEY) id = false ->
  text_truthy (kv_read w RL_KEY) = true ->
  exists w',
    scheduled env api net w = (tt, w')
    /\ kv w' = kv w
    /\ trace w' = trace w1 ++ [KvGet LAST_KEY; KvGet RL_KEY].
Proof.
  intros Hd Hseen Hrl.
  destruct (detect_uniform env api) as (r' & evs & Hevs & Hu).
  pose proof Hd as Hd'. rewrite Hu in Hd'. injection Hd' as -> <-.
  unfold scheduled, bind at 1. rewrite Hu.
  rewrite (detect_truthy env api w _ id Hd). cbn [negb].
  unfold bind at 1. rewrite kv_get_run.
  change (kv_read _ LAST_KEY) with (kv_read w LAST_KEY). rewrite Hseen.
  unfold bind at 1. rewrite kv_get_run.
  change (kv_read _ RL_KEY) with (kv_read w RL_KEY). rewrite Hrl.
  eexists. split; [reflexivity |]. split; [reflexivity |].
  cbn [trace]. rewrite <- !app_assoc. reflexivity.
Qed.

Lemma scheduled_rate_limited_witness :
  let api := ApiResponse true (Some (BranchInfo (Some "def456"))) in
  let w1 := {| kv := kv w_locked; clock := clock w_locked;
               trace := [DetectorCall "https://api.github.com/repos/owner/site/branches/main"] |} in
  exists w',
    scheduled env0 api all_ok w_locked = (tt, w')
    /\ kv w' = kv w_locked
    /\ trace w' = trace w1 ++ [KvGet LAST_KEY; KvGet RL_KEY].
Proof.
  apply (scheduled_rate_limited_keeps_the_marker env0
           (ApiResponse true (Some (BranchInfo (Some "def456")))) all_ok w_locked _ "def456");
    reflexivity.
Defined.

(** The scheduled run of a new change. *)
Lemma scheduled_run (env : RuntimeEnv) (api : api_reply) (net : network)
    (w w1 : world) (id : string) :
  detect env api w = (Returned (Some id), w1) ->
  text_is (kv_read w LAST_KEY) id = false ->
  text_truthy (kv_read w RL_KEY) = false ->
  exists r w2 w' evs,
    doPing env empty_payload no_opts net
      {| kv := kv w; clock := clock w; trace := trace w1 ++ [KvGet LAST_KEY; KvGet RL_KEY] |}
    = (Done r, w2)
    /\ scheduled env api net w = (tt, w')
    /\ clock w' = clock w2
    /\ kv w' = <[LAST_RESULT_KEY := {| value := VResult (clock w') (Some id) (Done r);
                                       expires := Some (clock w' + WEEK_TTL * 1000) |}]>
               (<[RL_KEY := {| value := VText (String_of_time (clock w'));
                               expires := Some (clock w' + HOUR * 1000) |}]>
                  (<[LAST_KEY := {| value := VText id; expires := None |}]> (kv w2)))
    /\ trace w' = trace w ++ evs
    /\ filter (fun e => is_ping e) evs
       = map (fun u => PingSent u (run_body env empty_payload))
             (run_pinged env empty_payload no_opts w).
Proof.
  intros Hd Hseen Hrl.
  destruct (detect_uniform env api) as (r' & devs & Hevs & Hu).
  pose proof Hd as Hd'. rewrite Hu in Hd'. injection Hd' as -> <-.
  set (wa := {| kv := kv w; clock := clock w;
                trace := (trace w ++ devs) ++ [KvGet LAST_KEY; KvGet RL_KEY] |}).
  destruct (doPing_done env empty_payload no_opts net wa) as
    (raw & w2 & pre & post & E & _ & Htr & Hev).
  { right. exact Hrl. }
  eexists _, w2, _, _. split; [exact E |].
  unfold scheduled, bind at 1. rewrite Hu.
  rewrite (detect_truthy env api w _ id Hd). cbn [negb].
  unfold bind at 1. rewrite kv_get_run.
  change (kv_read _ LAST_KEY) with (kv_read w LAST_KEY). rewrite Hseen.
  unfold bind at 1. rewrite kv_get_run.
  change (kv_read _ RL_KEY) with (kv_read w RL_KEY). rewrite Hrl.
  unfold bind at 1.
  match goal with |- context [doPing env empty_payload no_opts net ?x] =>
    replace x with wa by (unfold wa; cbn [kv clock trace]; rewrite <- !app_assoc; reflexivity)
  end.
  rewrite E. unfold bind, Date_now. rewrite !kv_put_run. cbn [kv clock trace].
  split; [reflexivity |]. split; [reflexivity |]. split; [reflexivity |].
  split.
  - rewrite Htr. unfold wa. cbn [trace]. rewrite <- !app_assoc. reflexivity.
  - apply Forall_app in Hev as [Hpre Hpost].
    pose proof (detector_calls_are_quiet devs Hevs) as Hq.
    rewrite !filter_app.
    rewrite (filter_none devs) by (eapply Forall_impl; [exact Hq |]; intros e (He & _); exact He).
    rewrite (filter_none pre Hpre), (filter_none post Hpost), filter_pings_only.
    cbn. rewrite !app_nil_r. reflexivity.
Qed.



(** X12: once a scheduled invocation has processed a change, a later tick
    whose detector returns the same id - however much later - leaves the
    store as the first tick left it, writes nothing and pings nothing. *)
Theorem same_change_is_processed_once (env : RuntimeEnv) (api1 api2 : api_reply)
    (net1 net2 : network) (dt : N) (w w1 : world) (id : string) :
  detect env api1 w = (Returned (Some id), w1) ->
  (detect env api2 w).1 = Returned (Some id) ->
  text_is (kv_read w LAST_KEY) id = false ->
  text_truthy (kv_read w RL_KEY) = false ->
  exists wa wb evs,
    scheduled env api1 net1 w = (tt, wa)
    /\ two_ticks env api1 api2 net1 net2 dt w = (tt, wb)
    /\ kv wb = kv wa
    /\ trace wb = trace wa ++ evs
    /\ Forall (fun e => is_ping e = false /\ is_put e = false) evs.
Proof.
  intros Hd1 Hd2 Hseen Hrl.
  destruct (scheduled_run env api1 net1 w w1 id Hd1 Hseen Hrl)
    as (r & w2 & wa & evs1 & _ & E & _ & Hkv & _).
  unfold two_ticks. unfold bind at 1. rewrite E. unfold bind at 1. unfold advance at 1.
  set (wa' := {| kv := kv wa; clock := _; trace := trace wa |}).
  destruct (detect_uniform env api2) as (r2 & devs & Hevs & Hu).
  rewrite Hu in Hd2. cbn [fst] in Hd2. subst r2.
  destruct (scheduled_unchanged env api2 net2 wa' _ id (Hu wa')) as [E2 _].
  { unfold kv_read. cbn [kv wa']. rewrite Hkv.
    rewrite !lookup_insert_ne by discriminate. rewrite lookup_insert_eq. reflexivity. }
  rewrite E2. eexists wa, _, (devs ++ [KvGet LAST_KEY]).
  split; [reflexivity |]. split; [reflexivity |]. split; [reflexivity |].
  split; [cbn [trace wa']; rewrite <- app_assoc; reflexivity |].
  apply Forall_app. split; [| repeat constructor].
  eapply Forall_impl; [exact (detector_calls_are_quiet devs Hevs) |].
  intros e (He1 & He2 & _). split; assumption.
Qed.

Lemma same_change_witness :
  let api := ApiResponse true (Some (BranchInfo (Some "def456"))) in
  exists wa wb evs,
    scheduled env0 api three_fail w_seen = (tt, wa)
    /\ two_ticks env0 api api three_fail all_ok 900000%N w_seen = (tt, wb)
    /\ kv wb = kv wa
    /\ trace wb = trace wa ++ evs
    /\ Forall (fun e => is_ping e = false /\ is_put e = false) evs.
Proof.
  apply (same_change_is_processed_once env0
           (ApiResponse true (Some (BranchInfo (Some "def456"))))
           (ApiResponse true (Some (BranchInfo (Some "def456"))))
           three_fail all_ok 900000%N w_seen
           {| kv := kv w_seen; clock := clock w_seen;
              trace := [DetectorCall "https://api.github.com/repos/owner/site/branches/main"] |}
           "def456"); reflexivity.
Defined.

(** ** The health page's escaping *)

Lemma escapeHtml_cons (c : ascii) (s : string) :
  escapeHtml (String c s) = escapeHtml (String c "") +:+ escapeHtml s.
Proof.
  change (String c s) with (String c "" +:+ s) at 1.
  unfold escapeHtml. rewrite !replaceAll_app. reflexivity.
Qed.

Lemma unescape_html_step (c : ascii) (rest : string) (fuel : nat) :
  unescape_with html_entities (S fuel) (escapeHtml (String c "") +:+ rest)
  = String c <$> unescape_with html_entities fuel rest.
Proof. destruct c as [[] [] [] [] [] [] [] []]; reflexivity. Qed.

Lemma escapeHtml_char_length (c : ascii) :
  (1 <= String.length (escapeHtml (String c "")))%nat.
Proof. destruct c as [[] [] [] [] [] [] [] []]; vm_compute; lia. Qed.

Lemma unescape_html (s : string) : forall fuel,
  (String.length (escapeHtml s) <= fuel)%nat ->
  unescape_with html_entities fuel (escapeHtml s) = Some s.
Proof.
  induction s as [| c s IH]; intros fuel Hfuel.
  - destruct fuel; reflexivity.
  - rewrite escapeHtml_cons in *. rewrite append_length in Hfuel.
    pose proof (escapeHtml_char_length c).
    destruct fuel as [| fuel]; [lia |].
    rewrite unescape_html_step, IH by lia. reflexivity.
Qed.

(** X13: in a text escaped for the health page no [<], [>], double or single
    quote is left, every [&] starts one of the five entities of
    [escapeHtml], and reading the entities back gives the text. *)
Theorem escapeHtml_reads_back (s : string) :
  string_forall (fun c => negb (markup c)) (escapeHtml s) = true
  /\ unescape_with html_entities (String.length (escapeHtml s)) (escapeHtml s) = Some s.
Proof.
  split; [| apply unescape_html; lia].
  induction s as [| c s IH]; [reflexivity |].
  rewrite escapeHtml_cons, string_forall_app, IH, andb_true_r.
  destruct c as [[] [] [] [] [] [] [] []]; reflexivity.
Qed.

(** ** The CSV exporter *)

Local Abbreviation is_lf := (fun c : ascii => Ascii.eqb c c_lf).

Lemma collapse_newlines_no_lf (n : nat) : forall s,
  (String.length s <= n)%nat -> count_chars is_lf (collapse_newlines s) = O.
Proof.
  induction n as [| n IH]; intros [| c t] Hn; try reflexivity; cbn [String.length] in Hn;
    [lia |].
  cbn [collapse_newlines].
  destruct (Ascii.eqb c c_lf) eqn:Elf.
  - cbn [count_chars]. rewrite IH by lia. reflexivity.
  - destruct (Ascii.eqb c c_cr) eqn:Ecr.
    + destruct t as [| d t'].
      * cbn [count_chars]. rewrite Elf. reflexivity.
      * destruct (Ascii.eqb d c_lf) eqn:Elf'.
        -- cbn [count_chars String.length] in *. rewrite IH by lia. reflexivity.
        -- cbn [count_chars]. rewrite Elf. cbn [Nat.add]. apply IH. lia.
    + cbn [count_chars]. rewrite Elf. cbn [Nat.add]. apply IH. lia.
Qed.

Lemma double_quotes_keep_lf (s : string) :
  count_chars is_lf (replaceAll c_quot two_quotes s) = count_chars is_lf s.
Proof.
  induction s as [| a s IH]; [reflexivity |].
  cbn [replaceAll]. destruct (Ascii.eqb a c_quot) eqn:E.
  - apply Ascii.eqb_eq in E as ->. rewrite count_chars_app, IH. reflexivity.
  - cbn [count_chars]. rewrite IH. reflexivity.
Qed.

Lemma esc_no_lf (s : string) : count_chars is_lf (esc s) = O.
Proof.
  unfold esc. rewrite append_cons. cbn [count_chars].
  rewrite count_chars_app, double_quotes_keep_lf.
  rewrite (collapse_newlines_no_lf (String.length s)) by lia. reflexivity.
Qed.

Lemma join_with_cons (sep p q : string) (rest : list string) :
  join_with sep (p :: q :: rest) = p +:+ sep +:+ join_with sep (q :: rest).
Proof. reflexivity. Qed.

Lemma csv_fields_no_lf (fs : list string) :
  count_chars is_lf (join_with "," (map esc fs)) = O.
Proof.
  induction fs as [| f [| g fs] IH]; [reflexivity | apply esc_no_lf |].
  cbn [map] in *. rewrite join_with_cons, !count_chars_app, esc_no_lf, IH. reflexivity.
Qed.

Lemma csv_lines (rows : list PingResult.t) : forall head,
  count_chars is_lf (join_with crlf (head :: map csv_row rows))
  = (count_chars is_lf head + length rows)%nat.
Proof.
  induction rows as [| r rows IH]; intros head.
  - cbn. lia.
  - cbn [map]. rewrite join_with_cons, !count_chars_app, IH.
    unfold csv_row at 1. rewrite csv_fields_no_lf. cbn. lia.
Qed.

(** X14: the CSV export holds one line feed per row: the header and every
    record are one line each, whatever line breaks the error texts and the
    body snippets contain. *)
Theorem toCsv_one_line_per_row (rows : list PingResult.t) :
  count_chars (fun c => Ascii.eqb c c_lf) (toCsv rows) = length rows.
Proof. unfold toCsv. rewrite csv_lines. reflexivity. Qed.

Lemma read_quoted_esc (s rest : string) :
  match rest with String d _ => Ascii.eqb d c_quot = false | EmptyString => True end ->
  read_quoted (replaceAll c_quot two_quotes s +:+ String c_quot rest) = Some (s, rest).
Proof.
  intros Hrest. induction s as [| a s IH].
  - rewrite append_nil. cbn [read_quoted]. rewrite Ascii.eqb_refl.
    destruct rest as [| d t]; [reflexivity |]. rewrite Hrest. reflexivity.
  - cbn [replaceAll]. destruct (Ascii.eqb a c_quot) eqn:E.
    + apply Ascii.eqb_eq in E as ->. unfold two_quotes. rewrite !append_cons, append_nil.
      cbn [read_quoted]. rewrite Ascii.eqb_refl. fold two_quotes. rewrite IH. reflexivity.
    + rewrite append_cons. cbn [read_quoted]. rewrite E, IH. reflexivity.
Qed.

Lemma esc_then (s rest : string) :
  esc s +:+ rest
  = String c_quot (replaceAll c_quot two_quotes (collapse_newlines s) +:+ String c_quot rest).
Proof. unfold esc. rewrite !append_cons, append_assoc. reflexivity. Qed.

Lemma read_fields_esc (fs : list string) : forall fuel,
  fs <> [] -> (length fs <= fuel)%nat ->
  read_fields fuel (join_with "," (map esc fs)) = Some (map collapse_newlines fs).
Proof.
  induction fs as [| f [| g fs] IH]; intros fuel Hne Hfuel; [congruence | |].
  - destruct fuel as [| fuel]; [cbn in Hfuel; lia |].
    cbn [map join_with]. unfold esc. rewrite append_cons.
    cbn [read_fields]. rewrite Ascii.eqb_refl.
    rewrite read_quoted_esc by exact I. reflexivity.
  - destruct fuel as [| fuel]; [cbn in Hfuel; lia |].
    cbn [map] in *. rewrite join_with_cons, esc_then. cbn [read_fields].
    rewrite Ascii.eqb_refl. rewrite append_cons, append_nil.
    rewrite read_quoted_esc by reflexivity.
    change (Ascii.eqb "," c_comma) with true. cbn match.
    rewrite IH by (cbn [length] in *; first [congruence | lia]). reflexivity.
Qed.

(** X15: the quoting of the CSV export can be read back: a record splits
    into its six fields again, each the text of the column with its line
    breaks turned into spaces, whatever commas and double quotes it holds. *)
Theorem csv_row_reads_back (r : PingResult.t) :
  read_fields 6 (csv_row r) = Some (map collapse_newlines (csv_fields r)).
Proof. unfold csv_row. apply read_fields_esc; [discriminate | cbn; lia]. Qed.

(** ** Timestamps written and read back *)

Section Timestamps.

(** A decimal digit. *)
Local Abbreviation digit c := (48 <= nat_of_ascii c <= 57)%nat.

Lemma pretty_N_char_digit (x : N) :
  (x < 10)%N -> nat_of_ascii (pretty_N_char x) = (48 + N.to_nat x)%nat.
Proof.
  intros H.
  assert (x = 0 \/ x = 1 \/ x = 2 \/ x = 3 \/ x = 4 \/ x = 5 \/ x = 6 \/ x = 7 \/ x = 8
          \/ x = 9)%N as Hx by lia.
  repeat destruct Hx as [-> | Hx]; try subst x; reflexivity.
Qed.

Lemma digit_val_digit (c : ascii) :
  digit c -> JS.digit_val c = Some (Z.of_nat (nat_of_ascii c) - 48).
Proof.
  intros [H1 H2]. unfold JS.digit_val.
  apply Nat.leb_le in H1, H2. rewrite H1, H2. reflexivity.
Qed.

Lemma digits_from_digit (c : ascii) (acc : Z) (r : list ascii) :
  digit c ->
  JS.digits_from 10 acc (c :: r)
  = JS.digits_from 10 (acc * 10 + (Z.of_nat (nat_of_ascii c) - 48)) r.
Proof.
  intros H. cbn [JS.digits_from]. rewrite (digit_val_digit c H).
  destruct (Z.ltb_spec (Z.of_nat (nat_of_ascii c) - 48) 10); [reflexivity | lia].
Qed.

(** The text [pretty_N_go x s] is the decimal digits of [x], most
    significant first and without a leading zero, followed by [s]. *)
Lemma pretty_N_go_digits (x : N) : forall s : string,
  exists ds,
    list_ascii_of_string (pretty_N_go x s) = ds ++ list_ascii_of_string s
    /\ Forall (fun c => digit c) ds
    /\ (forall acc r, JS.digits_from 10 acc (ds ++ r)
                      = JS.digits_from 10 (acc * 10 ^ Z.of_nat (length ds) + Z.of_N x) r)
    /\ ((0 < x)%N -> exists c r, ds = c :: r /\ nat_of_ascii c <> 48%nat).
Proof.
  induction (N.lt_wf_0 x) as [x _ IH]; intros s.
  destruct (N.eq_dec x 0%N) as [-> | Hx].
  - exists []. rewrite pretty_N_go_0. split; [reflexivity |]. split; [constructor |].
    split; [| lia]. intros acc r. cbn. f_equal. lia.
  - rewrite pretty_N_go_step by lia.
    assert (x `mod` 10 < 10)%N as Hm by (apply N.mod_lt; lia).
    pose proof (pretty_N_char_digit _ Hm) as Hc.
    assert (digit (pretty_N_char (x `mod` 10))) as Hd.
    { rewrite Hc. clear -Hm. revert Hm. generalize (x `mod` 10)%N. intros m Hm. lia. }
    destruct (IH (x `div` 10)%N (N.div_lt x 10 ltac:(lia) ltac:(lia))
                (String (pretty_N_char (x `mod` 10)) s))
      as (ds & Hds & Hall & Hval & Hhead).
    exists (ds ++ [pretty_N_char (x `mod` 10)]).
    split; [rewrite Hds, <- app_assoc; reflexivity |].
    split; [apply Forall_app; split; [exact Hall | constructor; [exact Hd | constructor]] |].
    split.
    + intros acc r. rewrite <- app_assoc. cbn [app]. rewrite Hval, digits_from_digit by exact Hd.
      f_equal. rewrite Hc, length_app. cbn [length].
      rewrite (Nat2Z.inj_add (length ds) 1), Z.pow_add_r by lia.
      pose proof (N.div_mod x 10 ltac:(lia)) as Hdm.
      change (10 ^ Z.of_nat 1) with 10.
      clear -Hdm Hm. revert Hdm Hm.
      generalize (x `mod` 10)%N (x `div` 10)%N (10 ^ Z.of_nat (length ds)).
      intros m q P Hdm Hm. lia.
    + intros _. destruct (N.eq_dec (x `div` 10)%N 0%N) as [H0 | H0].
      * assert (ds = []) as ->.
        { rewrite H0, pretty_N_go_0 in Hds. cbn [list_ascii_of_string] in Hds.
          destruct ds as [| c ds]; [reflexivity |].
          apply (f_equal (@length ascii)) in Hds. rewrite length_app in Hds.
          cbn [length] in Hds. lia. }
        eexists _, []. split; [reflexivity |]. rewrite Hc.
        assert (x `mod` 10 = x)%N as ->
          by (apply N.mod_small; apply N.div_small_iff in H0; lia).
        lia.
      * destruct (Hhead (proj1 (N.neq_0_lt_0 _) H0)) as (c & r & -> & Hne).
        eexists c, _. split; [reflexivity | exact Hne].
Qed.

Lemma digit_not_space (c : ascii) : digit c -> JS.is_space c = false.
Proof.
  intros H. unfold JS.is_space.
  destruct (Nat.leb_spec 9 (nat_of_ascii c)), (Nat.leb_spec (nat_of_ascii c) 13),
    (Nat.eqb_spec (nat_of_ascii c) 32), (Nat.eqb_spec (nat_of_ascii c) 160);
    try reflexivity; lia.
Qed.

Lemma trim_left_digits (ds : list ascii) :
  Forall (fun c => digit c) ds -> JS.trim_left ds = ds.
Proof.
  intros [| c r Hc _]; [reflexivity |]. cbn [JS.trim_left].
  rewrite (digit_not_space c Hc). reflexivity.
Qed.

Lemma trim_digits (ds : list ascii) :
  Forall (fun c => digit c) ds -> JS.trim ds = ds.
Proof.
  intros H. unfold JS.trim. rewrite (trim_left_digits ds H).
  rewrite trim_left_digits by (apply Forall_rev; exact H). apply rev_involutive.
Qed.

Lemma span_digits_all (ds : list ascii) :
  Forall (fun c => digit c) ds -> JS.span_digits ds = (ds, []).
Proof.
  induction 1 as [| c r Hc _ IH]; [reflexivity |].
  cbn [JS.span_digits]. rewrite (digit_val_digit c Hc), IH.
  destruct (Z.ltb_spec (Z.of_nat (nat_of_ascii c) - 48) 10); [reflexivity | lia].
Qed.

Lemma unsigned_decimal_digits (c : ascii) (r : list ascii) (n : Z) :
  Forall (fun c => digit c) (c :: r) ->
  JS.digits_from 10 0 (c :: r) = Some n ->
  JS.unsigned_decimal (c :: r) = Some ((inject_Z n + 0 / 1) * 1)%Q.
Proof.
  intros Hall Hn. unfold JS.unsigned_decimal. rewrite (span_digits_all _ Hall), Hn.
  reflexivity.
Qed.

(** [Number] on a text that starts with a digit other than 0. *)
Lemma Number_leading_digit (str : string) (c : ascii) (r : list ascii) :
  JS.trim (list_ascii_of_string str) = c :: r ->
  (49 <= nat_of_ascii c <= 57)%nat ->
  JS.Number str
  = match JS.unsigned_decimal (c :: r) with Some q => JS.Fin q | None => JS.NaN end.
Proof.
  intros Ht Hc. unfold JS.Number. rewrite Ht. clear Ht.
  destruct c as [[] [] [] [] [] [] [] []]; vm_compute in Hc; try lia;
    unfold JS.signed_decimal; rewrite bool_decide_eq_false_2 by (cbn; discriminate);
    reflexivity.
Qed.

(** The text [doPing] writes for an instant reads back as that instant. *)
Lemma Number_String_of_time (t : Z) : 0 <= t -> JS.Number (String_of_time t) = JS.of_Z t.
Proof.
  intros Ht. unfold String_of_time, pretty, pretty_Z.
  destruct t as [| p | p]; [reflexivity | | lia].
  unfold pretty, pretty_positive, pretty, pretty_N.
  destruct (decide (N.pos p = 0%N)) as [H | _]; [discriminate |].
  destruct (pretty_N_go_digits (N.pos p) "") as (ds & Hds & Hall & Hval & Hhead).
  destruct Hhead as (c & r & -> & Hne); [lia |].
  cbn [list_ascii_of_string] in Hds. rewrite app_nil_r in Hds.
  assert (digit c) as Hc by (inversion Hall; assumption).
  rewrite (Number_leading_digit _ c r);
    [| rewrite Hds; apply trim_digits; exact Hall | lia].
  specialize (Hval 0 []). rewrite app_nil_r in Hval. cbn [JS.digits_from] in Hval.
  rewrite (unsigned_decimal_digits c r _ Hall Hval).
  unfold JS.of_Z, inject_Z, Qdiv, Qmult, Qplus, Qinv. cbn [Qnum Qden].
  f_equal. f_equal. cbn. lia.
Qed.

End Timestamps.

(** ** The health data *)

Lemma num_sub_of_Z (a b : Z) : num_sub (JS.of_Z a) (JS.of_Z b) = JS.of_Z (a - b).
Proof.
  unfold num_sub, JS.of_Z, inject_Z. cbn [num_neg JS.add]. unfold Qplus, Qopp.
  cbn [Qnum Qden]. f_equal. f_equal. cbn. lia.
Qed.

Lemma Math_max_of_Z (a b : Z) :
  JS.Math_max (JS.of_Z a) (JS.of_Z b) = JS.of_Z (Z.max a b).
Proof.
  unfold JS.Math_max, JS.of_Z. cbn [JS.is_nan orb JS.ltb].
  destruct (JS.Qltb (inject_Z a) (inject_Z b)) eqn:E.
  - apply Qltb_lt in E. rewrite <- Zlt_Qlt in E. rewrite Z.max_r by lia. reflexivity.
  - apply Qltb_ge in E. rewrite <- Zle_Qle in E. rewrite Z.max_l by lia. reflexivity.
Qed.

Lemma num_truthy_of_Z (a : Z) : a <> 0 -> num_truthy (JS.of_Z a) = true.
Proof.
  intros Ha. unfold num_truthy, JS.of_Z. apply negb_true_iff.
  destruct (Qeq_bool (inject_Z a) 0) eqn:E; [| reflexivity].
  apply Qeq_bool_iff in E. unfold Qeq, inject_Z in E. cbn [Qnum Qden] in E. lia.
Qed.

(** A record is there as long as its time to live has not passed. *)
Lemma kv_read_fresh (m : gmap string entry) (now ttl : Z) (tr : list event)
    (key : string) (v : kvval) :
  0 < ttl ->
  kv_read {| kv := <[key := {| value := v; expires := Some (now + ttl * 1000) |}]> m;
             clock := now; trace := tr |} key
  = Some v.
Proof.
  intros Httl. unfold kv_read. cbn [kv clock]. rewrite lookup_insert_eq.
  cbn [mbind option_bind live expires value].
  destruct (Z.ltb_spec now (now + ttl * 1000)); [reflexivity | lia].
Qed.

(** What [readHealthData] returns, in terms of what the store holds. *)
Lemma readHealthData_run (w : world) :
  readHealthData w
  = (let lastResult := kv_read w LAST_RESULT_KEY in
     let lastDry := kv_read w LAST_DRY_KEY in
     let summary := default [] (stored_field lastResult lastDry result_summary) in
     let ok := length (filter (fun s => PingResult.ok s) summary) in
     {| h_site_name := stored_field lastResult lastDry result_siteName;
        h_site_url := stored_field lastResult lastDry result_siteUrl;
        h_site_feed := stored_field lastResult lastDry result_feedUrl;
        h_latestId := nullish (VText <$> (v ← lastResult; doc_latest_id v))
                              (kv_read w LAST_KEY);
        h_endpointsCount :=
          match kv_read w ENDPOINTS_KEY with Some (VList l) => length l | _ => O end;
        h_lastPingAt := text_number (kv_read w RL_KEY);
        h_nextAllowedInMs := lock_remaining (clock w) (text_number (kv_read w RL_KEY));
        h_lastResultAt := nullish (v ← lastResult; doc_time v) (v ← lastDry; doc_time v);
        h_successes := ok;
        h_failures := (length summary - ok)%nat;
        h_lastRequestAt := (v ← kv_read w LAST_REQUEST_KEY; doc_time v);
        h_summary := summary;
        h_recentSample := take 20 summary;
        h_sampleSource :=
          (fun v => (doc_time v, doc_result v)) <$> nullish lastResult lastDry |},
     (readHealth w).2).
Proof. reflexivity. Qed.

Lemma filter_ok_length (rows : list PingResult.t) :
  (length (filter (fun r => PingResult.ok r) rows)
   + length (filter (fun r => negb (PingResult.ok r)) rows) = length rows)%nat.
Proof.
  induction rows as [| r rows IH]; [reflexivity |].
  rewrite !filter_cons. destruct (PingResult.ok r) eqn:E; cbn [negb];
    repeat (destruct (decide _) as [? | ?]; try done); cbn [length]; lia.
Qed.

(** X16: whatever the store holds, the figures of the health data agree:
    successes and failures add up to the rows of the summary, the failures
    are the rows that are not ok, the sample holds at most 20 rows, and the
    time left on the lock is a number that is not negative. *)
Theorem health_figures_are_consistent (w : world) :
  let d := (readHealthData w).1 in
  (h_successes d + h_failures d = length (h_summary d))%nat
  /\ h_failures d = length (filter (fun r => negb (PingResult.ok r)) (h_summary d))
  /\ (length (h_recentSample d) <= 20)%nat
  /\ JS.leb (JS.of_Z 0) (h_nextAllowedInMs d) = true.
Proof.
  rewrite readHealthData_run. cbn [fst h_successes h_failures h_summary h_recentSample
                                   h_nextAllowedInMs].
  set (summary := default [] _).
  pose proof (filter_ok_length summary) as Hlen.
  split; [lia |]. split; [lia |]. split; [rewrite length_take; lia |].
  unfold lock_remaining. destruct (text_number _) as [[| | | q] |]; try reflexivity.
  destruct (num_truthy (JS.Fin q)); [| reflexivity].
  change (num_sub (JS.of_Z (clock w)) (JS.Fin q))
    with (JS.Fin (inject_Z (clock w) + - q)).
  change (num_sub (JS.of_Z HOUR_MS) (JS.Fin (inject_Z (clock w) + - q)))
    with (JS.Fin (inject_Z HOUR_MS + - (inject_Z (clock w) + - q))).
  unfold JS.Math_max, JS.of_Z. cbn [JS.is_nan orb JS.ltb].
  destruct (JS.Qltb _ _) eqn:E; [| reflexivity].
  apply Qltb_lt in E. cbn [JS.leb]. apply Qle_bool_iff. lra.
Qed.

(** X17: while the rate-limit record written at instant [t] is in the
    store, the health data show [t] as the time of the last ping and count
    down the hour; the time left is positive exactly as long as a real run
    would be skipped, and 0 from then on. *)
Theorem health_counts_down_the_lock (w : world) (t : Z) :
  0 < t <= clock w ->
  kv w !! RL_KEY = Some {| value := VText (String_of_time t);
                           expires := Some (t + HOUR * 1000) |} ->
  let d := (readHealthData w).1 in
  h_nextAllowedInMs d = JS.of_Z (Z.max 0 (HOUR_MS - (clock w - t)))
  /\ h_lastPingAt d = (if (clock w <? t + HOUR_MS)%Z then Some (JS.of_Z t) else None)
  /\ (text_truthy (kv_read w RL_KEY) = true <-> 0 < HOUR_MS - (clock w - t)).
Proof.
  intros Ht Hkv. rewrite readHealthData_run. cbn [fst h_nextAllowedInMs h_lastPingAt].
  unfold kv_read. rewrite Hkv. cbn [mbind option_bind live expires value].
  change (t + HOUR * 1000) with (t + HOUR_MS).
  destruct (Z.ltb_spec (clock w) (t + HOUR_MS)) as [Hlive | Hgone].
  - cbn [text_number text_truthy]. rewrite String_of_time_truthy.
    rewrite Number_String_of_time by lia.
    unfold lock_remaining. rewrite num_truthy_of_Z by lia.
    rewrite !num_sub_of_Z, Math_max_of_Z.
    split; [reflexivity |]. split; [reflexivity |]. split; [lia | reflexivity].
  - cbn [text_number text_truthy lock_remaining].
    rewrite Z.max_l by lia.
    split; [reflexivity |]. split; [reflexivity |]. split; [discriminate | lia].
Qed.

Lemma health_counts_down_witness :
  let w := {| kv := {[ RL_KEY := {| value := VText (String_of_time 1700000000000);
                                    expires := Some (1700000000000 + HOUR * 1000) |} ]};
              clock := 1700000600000; trace := [] |} in
  let d := (readHealthData w).1 in
  h_nextAllowedInMs d = JS.of_Z (Z.max 0 (HOUR_MS - (clock w - 1700000000000)))
  /\ h_lastPingAt d
     = (if (clock w <? 1700000000000 + HOUR_MS)%Z then Some (JS.of_Z 1700000000000) else None)
  /\ (text_truthy (kv_read w RL_KEY) = true <-> 0 < HOUR_MS - (clock w - 1700000000000)).
Proof.
  apply (health_counts_down_the_lock
           {| kv := {[ RL_KEY := {| value := VText (String_of_time 1700000000000);
                                    expires := Some (1700000000000 + HOUR * 1000) |} ]};
              clock := 1700000600000; trace := [] |} 1700000000000).
  - cbn [clock]. lia.
  - reflexivity.
Defined.

(** X18: a real request answered "skipped" takes the rows of the last real
    run off the health page: the data then show the time of the skipped
    request as time of the last result, with the summary and the site of the
    last dry run, or none. *)
Theorem skipped_request_hides_the_last_run (request : Request) (env : RuntimeEnv)
    (net : network) (w : world) :
  authorised_post request env -> r_body request <> JsonNull ->
  opt_eqb (searchParams_get (r_search request) "dry") "1" = false ->
  text_truthy (kv_read w RL_KEY) = true ->
  let d := (readHealthData (fetch request env net w).2).1 in
  let lastDry := kv_read w LAST_DRY_KEY in
  h_lastResultAt d = Some (clock w)
  /\ h_summary d = default [] (v ← lastDry; r ← doc_result v; result_summary r)
  /\ h_site_name d = (v ← lastDry; r ← doc_result v; result_siteName r)
  /\ h_sampleSource d
     = Some (Some (clock w), Some (Reported (Skipped "rate-limited (<=1/hour)"))).
Proof.
  intros Hauth Hbody Hdry Hrl.
  rewrite (fetch_rate_limited request env net w Hauth Hbody Hdry Hrl).
  rewrite readHealthData_run.
  cbn [snd fst h_lastResultAt h_summary h_site_name h_sampleSource].
  assert (forall w' : world,
            kv w' = <[LAST_RESULT_KEY :=
                        {| value := VResult (clock w) None (Skipped "rate-limited (<=1/hour)");
                           expires := Some (clock w + WEEK_TTL * 1000) |}]> (kv w) ->
            clock w' = clock w ->
            kv_read w' LAST_RESULT_KEY
            = Some (VResult (clock w) None (Skipped "rate-limited (<=1/hour)"))
            /\ kv_read w' LAST_DRY_KEY = kv_read w LAST_DRY_KEY) as Hread.
  { intros w' Hkv Hclock. unfold kv_read. rewrite Hkv, Hclock, lookup_insert_eq.
    rewrite lookup_insert_ne by discriminate. cbn [mbind option_bind live expires value].
    destruct (Z.ltb_spec (clock w) (clock w + WEEK_TTL * 1000)) as [_ | H];
      [split; reflexivity |].
    unfold WEEK_TTL in H. lia. }
  match goal with |- context [kv_read ?w' LAST_RESULT_KEY] =>
    destruct (Hread w' eq_refl eq_refl) as [-> ->]
  end.
  repeat split.
Qed.

Lemma skipped_request_witness :
  let request := post [] empty_payload in
  let d := (readHealthData (fetch request env0 all_ok w_locked).2).1 in
  let lastDry := kv_read w_locked LAST_DRY_KEY in
  h_lastResultAt d = Some (clock w_locked)
  /\ h_summary d = default [] (v ← lastDry; r ← doc_result v; result_summary r)
  /\ h_site_name d = (v ← lastDry; r ← doc_result v; result_siteName r)
  /\ h_sampleSource d
     = Some (Some (clock w_locked), Some (Reported (Skipped "rate-limited (<=1/hour)"))).
Proof.
  apply (skipped_request_hides_the_last_run (post [] empty_payload) env0 all_ok w_locked).
  - split; reflexivity.
  - discriminate.
  - reflexivity.
  - reflexivity.
Defined.

(** X19: after a real request that was not rate-limited, the health data
    show the report that was returned: its rows, its counts of successes and
    failures, its site, and the instant it was stored. *)
Theorem real_run_shows_on_health_page (request : Request) (env : RuntimeEnv)
    (net : network) (w : world) :
  authorised_post request env -> r_body request <> JsonNull ->
  opt_eqb (searchParams_get (r_search request) "dry") "1" = false ->
  text_truthy (kv_read w RL_KEY) = false ->
  exists r w',
    fetch request env net w = (reply_of request (Done r), w')
    /\ let d := (readHealthData w').1 in
       h_summary d = Report.summary r
       /\ h_successes d = Totals.ok (Report.totals r)
       /\ h_failures d = Totals.fail (Report.totals r)
       /\ h_site_name d = Some (Report.siteName r)
       /\ h_site_url d = Some (Report.siteUrl r)
       /\ h_lastResultAt d = Some (clock w')
       /\ h_sampleSource d = Some (Some (clock w'), Some (Reported (Done r))).
Proof.
  intros Hauth Hbody Hdry Hrl.
  destruct (doPing_real env (r_json request) (fetch_opts request) net w)
    as (raw & w1 & E & _); [exact Hdry | exact Hrl |].
  rewrite (fetch_post request env net w Hauth Hbody), E, Hdry.
  eexists _, _. split; [reflexivity |].
  rewrite readHealthData_run.
  cbn [fst h_summary h_successes h_failures h_site_name h_site_url h_lastResultAt
           h_sampleSource].
  cbn [persisted_key persisted_ttl].
  rewrite !kv_read_fresh by (unfold WEEK_TTL; lia).
  cbn [stored_field nullish mbind option_bind doc_result result_summary result_siteName
         result_siteUrl doc_time default from_option id fmap option_fmap option_map].
  pose proof (filter_ok_length
                (filter_only (default "all" (o_only (fetch_opts request))) raw)) as Hlen.
  cbn [report_of Report.summary Report.totals Totals.ok Totals.fail Report.siteName
         Report.siteUrl].
  repeat split. lia.
Qed.

Lemma real_run_witness :
  let request := post [] (payload_with ten_endpoints) in
  exists r w',
    fetch request env0 three_fail w0 = (reply_of request (Done r), w')
    /\ let d := (readHealthData w').1 in
       h_summary d = Report.summary r
       /\ h_successes d = Totals.ok (Report.totals r)
       /\ h_failures d = Totals.fail (Report.totals r)
       /\ h_site_name d = Some (Report.siteName r)
       /\ h_site_url d = Some (Report.siteUrl r)
       /\ h_lastResultAt d = Some (clock w')
       /\ h_sampleSource d = Some (Some (clock w'), Some (Reported (Done r))).
Proof.
  apply (real_run_shows_on_health_page (post [] (payload_with ten_endpoints)) env0
           three_fail w0).
  - split; reflexivity.
  - discriminate.
  - reflexivity.
  - reflexivity.
Defined.

(** ** The [limit] and [cursor] options at their edges *)

Lemma slice_first (l : list string) (q : Q) :
  (0 < q)%Q -> JS.slice l (JS.of_Z 0) (JS.Fin q) = take (Z.to_nat (Qfloor q)) l.
Proof.
  intros Hq. unfold JS.slice, JS.of_Z.
  rewrite (slice_index_fin l q) by lra.
  rewrite (slice_index_fin l (inject_Z 0)) by (change (inject_Z 0) with 0%Q; lra).
  rewrite Qfloor_Z. pose proof (Qfloor_nonneg q ltac:(lra)) as Hf.
  replace (Z.to_nat (Z.min 0 (Z.of_nat (length l)))) with O by lia.
  rewrite Nat.sub_0_r, drop_0.
  destruct (Z.le_ge_cases (Qfloor q) (Z.of_nat (length l))) as [H | H].
  - rewrite Z.min_l by lia. reflexivity.
  - rewrite Z.min_r by lia. rewrite Nat2Z.id, !take_ge by lia. reflexivity.
Qed.

Lemma slice_subset {A} (l : list A) (a b : JS.num) (x : A) :
  x ∈ JS.slice l a b -> x ∈ l.
Proof.
  unfold JS.slice. intros H.
  apply (subseteq_take _ _) in H. apply (subseteq_drop _ _) in H. exact H.
Qed.

Lemma taken_subset {T} (items : list T) (size : JS.num) (x : T) :
  x ∈ taken items size -> x ∈ items.
Proof.
  unfold taken. destruct (workers items size); [intros H; inversion H | exact id].
Qed.

(** X20: a [limit] greater than zero keeps the first [floor(limit)]
    endpoints of the list: the total of the report is counted on them and no
    other endpoint is pinged; a limit below one leaves none. *)
Theorem limit_keeps_the_first_endpoints (env : RuntimeEnv) (payload : PingPayload)
    (opts : PingOpts) (net : network) (w : world) (q : Q) :
  o_limit opts = Some (JS.Fin q) -> (0 < q)%Q ->
  default false (o_dryRun opts) = true \/ text_truthy (kv_read w RL_KEY) = false ->
  let full := endpoints_of env payload (JS.of_Z 0) (kv_read w ENDPOINTS_KEY) in
  let kept := take (Z.to_nat (Qfloor q)) full in
  exists r w' evs,
    doPing env payload opts net w = (Done r, w')
    /\ Totals.total (Report.totals r) = length kept
    /\ trace w' = trace w ++ evs
    /\ forall url body, PingSent url body ∈ evs -> url ∈ kept.
Proof.
  intros Hlimit Hq Hrun full kept.
  destruct (doPing_done env payload opts net w Hrun) as (raw & w' & pre & post & E & _ & Htr & Hev).
  assert (run_endpoints env payload opts w = kept) as Hkept.
  { unfold run_endpoints, endpoints_of. rewrite Hlimit. cbn [default from_option id].
    assert (JS.gtb (JS.Fin q) (JS.of_Z 0) = true) as ->.
    { apply Qltb_lt. change (inject_Z 0) with 0%Q. exact Hq. }
    rewrite slice_first by exact Hq. reflexivity. }
  eexists _, w', _. split; [exact E |].
  split; [cbn [report_of Report.totals Totals.total]; rewrite Hkept; reflexivity |].
  split; [exact Htr |].
  intros url body Hin. apply Forall_app in Hev as [Hpre Hpost].
  rewrite !elem_of_app in Hin. destruct Hin as [Hin | [Hin | Hin]].
  - rewrite Forall_forall in Hpre. specialize (Hpre _ Hin). discriminate.
  - apply list_elem_of_fmap in Hin as (u & [= -> _] & Hu).
    apply taken_subset in Hu. unfold run_batch, plan in Hu. cbn [plan_batch] in Hu.
    apply slice_subset in Hu. rewrite Hkept in Hu. exact Hu.
  - rewrite Forall_forall in Hpost. specialize (Hpost _ Hin). discriminate.
Qed.

Lemma limit_witness :
  let opts := {| o_dryRun := Some true; o_concurrency := None; o_timeoutMs := None;
                 o_limit := Some (JS.Fin (5 # 2)); o_verbose := None; o_only := None;
                 o_cursor := None |} in
  let full := endpoints_of env0 (payload_with ten_endpoints) (JS.of_Z 0)
                (kv_read w0 ENDPOINTS_KEY) in
  let kept := take (Z.to_nat (Qfloor (5 # 2))) full in
  exists r w' evs,
    doPing env0 (payload_with ten_endpoints) opts all_ok w0 = (Done r, w')
    /\ Totals.total (Report.totals r) = length kept
    /\ trace w' = trace w0 ++ evs
    /\ forall url body, PingSent url body ∈ evs -> url ∈ kept.
Proof.
  apply (limit_keeps_the_first_endpoints env0 (payload_with ten_endpoints)
           {| o_dryRun := Some true; o_concurrency := None; o_timeoutMs := None;
              o_limit := Some (JS.Fin (5 # 2)); o_verbose := None; o_only := None;
              o_cursor := None |} all_ok w0 (5 # 2)).
  - reflexivity.
  - reflexivity.
  - left. reflexivity.
Defined.

Lemma plan_nan_cursor (endpoints : list string) (budget : JS.num) :
  plan_batch (plan endpoints budget JS.NaN) = []
  /\ plan_nextCursor (plan endpoints budget JS.NaN) = None
  /\ plan_start (plan endpoints budget JS.NaN) = JS.NaN.
Proof.
  unfold plan. cbn [plan_batch plan_nextCursor plan_start].
  change (JS.Math_max (JS.of_Z 0) JS.NaN) with JS.NaN.
  change (JS.add JS.NaN budget) with JS.NaN.
  change (JS.Math_min (JS.of_nat (length endpoints)) JS.NaN) with JS.NaN.
  split; [apply slice_none | split; reflexivity].
Qed.

(** X21: a cursor that is not a number ends the pagination at once: the
    run is done with an empty batch and no next cursor, and nothing is
    pinged, whatever the endpoint list and the budget. *)
Theorem nan_cursor_pings_nothing (env : RuntimeEnv) (payload : PingPayload)
    (opts : PingOpts) (net : network) (w : world) :
  o_cursor opts = Some JS.NaN ->
  default false (o_dryRun opts) = true \/ text_truthy (kv_read w RL_KEY) = false ->
  exists r w' evs,
    doPing env payload opts net w = (Done r, w')
    /\ Report.summary r = []
    /\ Report.nextCursor r = None
    /\ Totals.batchCount (Report.totals r) = O
    /\ trace w' = trace w ++ evs
    /\ Forall (fun e => is_ping e = false) evs.
Proof.
  intros Hcursor Hrun.
  destruct (doPing_done env payload opts net w Hrun)
    as (raw & w' & pre & post & E & Hp & Htr & Hev).
  destruct (plan_nan_cursor (run_endpoints env payload opts w) (subreq_budget env))
    as (Hb & Hn & _).
  assert (run_pinged env payload opts w = []) as Hnone.
  { unfold run_pinged, run_batch. rewrite Hcursor. cbn [default from_option id].
    rewrite Hb. apply taken_nil. }
  rewrite Hnone in Hp, Htr. apply Permutation_nil_r in Hp.
  apply fmap_nil_inv in Hp. subst raw.
  eexists _, w', (pre ++ post). split; [exact E |].
  cbn [report_of Report.summary Report.nextCursor Report.totals Totals.batchCount].
  rewrite Hcursor. cbn [default from_option id]. rewrite Hb, Hn.
  split; [unfold filter_only; repeat destruct (String.eqb _ _); reflexivity |].
  split; [reflexivity |]. split; [reflexivity |].
  split; [exact Htr | exact Hev].
Qed.

Lemma nan_cursor_witness :
  let opts := {| o_dryRun := Some true; o_concurrency := None; o_timeoutMs := None;
                 o_limit := None; o_verbose := None; o_only := None;
                 o_cursor := Some (JS.Number "next") |} in
  exists r w' evs,
    doPing env0 (payload_with ten_endpoints) opts all_ok w0 = (Done r, w')
    /\ Report.summary r = []
    /\ Report.nextCursor r = None
    /\ Totals.batchCount (Report.totals r) = O
    /\ trace w' = trace w0 ++ evs
    /\ Forall (fun e => is_ping e = false) evs.
Proof.
  apply (nan_cursor_pings_nothing env0 (payload_with ten_endpoints)
           {| o_dryRun := Some true; o_concurrency := None; o_timeoutMs := None;
              o_limit := None; o_verbose := None; o_only := None;
              o_cursor := Some (JS.Number "next") |} all_ok w0).
  - reflexivity.
  - left. reflexivity.
Defined.

(** ** The row filter *)

(** X22: the two filters of [only] split the rows: every row is either in
    the rows kept by "fail" or in those kept by "success", in the order of
    the run; any other word keeps every row. *)
Theorem only_filters_split_the_rows (rows : list PingResult.t) :
  filter_only "fail" rows ++ filter_only "success" rows ≡ₚ rows
  /\ filter_only "fail" rows = filter (fun r => negb (PingResult.ok r)) rows
  /\ filter_only "success" rows = filter (fun r => PingResult.ok r) rows
  /\ forall only, only <> "fail" -> only <> "success" -> filter_only only rows = rows.
Proof.
  assert (filter_only "fail" rows = filter (fun r => negb (PingResult.ok r)) rows) as Hf
    by reflexivity.
  assert (filter_only "success" rows = filter (fun r => PingResult.ok r) rows) as Hs
    by reflexivity.
  split; [| split; [exact Hf | split; [exact Hs |]]].
  - rewrite Hf, Hs. clear Hf Hs. induction rows as [| r rows IH]; [reflexivity |].
    rewrite !filter_cons. destruct (PingResult.ok r) eqn:E; cbn [negb];
      repeat (destruct (decide _) as [? | ?]; try done).
    + rewrite <- Permutation_middle. constructor. exact IH.
    + cbn [app]. constructor. exact IH.
  - intros only H1 H2. unfold filter_only.
    apply String.eqb_neq in H1, H2. rewrite H1, H2. reflexivity.
Qed.

(** ** The order of the rows *)

Section OneWorker.
Variable batch : list string.
Variable body : string.
Variable verbose : bool.
Variable net : network.

Local Abbreviation fn := (pingWithTimeout body verbose).

(** With at most one request in flight, the rows and the request in flight
    are the URLs taken so far, in the order of the batch. *)
Local Abbreviation in_order p :=
  (le (length (inflight p)) 1
   /\ map PingResult.url (results p) ++ map fst (inflight p) = take (i p) batch).

Lemma pull_in_order (p : pool (string * Z) PingResult.t) (w : world) :
  inflight p = [] -> map PingResult.url (results p) = take (i p) batch ->
  in_order (pull batch fn p w).1.
Proof.
  intros Hnone Hres. unfold pull. destruct (batch !! i p) as [url |] eqn:E.
  - cbn. rewrite Hnone. cbn. split; [lia |].
    rewrite Hres. symmetry. apply take_S_r. exact E.
  - cbn. rewrite Hnone. cbn. split; [lia |]. rewrite app_nil_r, Hres.
    apply lookup_ge_None in E. rewrite !take_ge by lia. reflexivity.
Qed.

Lemma reached_in_order (size : JS.num) (w0 : world) (n : nat)
    (p : pool (string * Z) PingResult.t) (w : world) :
  (workers batch size <= 1)%nat ->
  pool_reached batch fn net size w0 n p w -> in_order p.
Proof.
  intros Hsize. induction 1 as [p w E | step p p' w w' _ IH Hne E].
  - destruct (workers batch size) as [| [| k]]; [| | lia].
    + injection E as <- _. cbn. split; [lia | reflexivity].
    + cbn [spawn] in E. unfold bind in E.
      pose proof (pull_in_order {| i := O; results := []; inflight := [] |} w0
                    eq_refl eq_refl) as H.
      destruct (pull batch fn _ w0) as [p1 w1]. injection E as <- _. exact H.
  - destruct IH as [Hlen Hord].
    destruct (inflight p) as [| s [| s' l]] eqn:Ein; [congruence | | cbn in Hlen; lia].
    unfold settle in E. rewrite Ein in E. cbn [length] in E.
    rewrite Nat.mod_1_r in E. cbn [lookup list_lookup] in E.
    unfold bind at 1 in E. unfold advance at 1 in E. unfold bind at 1 in E.
    destruct (ping_finish body verbose s (reply (net step))
                {| kv := kv w; clock := clock w + Z.of_N (elapsed (net step));
                   trace := trace w |}) as (x & Ex & Hx).
    rewrite Ex in E.
    match type of E with pull batch fn ?q ?w1 = _ =>
      pose proof (pull_in_order q w1 eq_refl) as H end.
    rewrite E in H. apply H. cbn [results i]. rewrite map_app. cbn [map].
    rewrite Hx. exact Hord.
Qed.

(** X23: a pool of one worker returns the rows in the order of the batch,
    one row per URL, whatever the network does. *)
Theorem one_worker_keeps_the_order (w : world) :
  map PingResult.url (runPool batch fn net (JS.of_Z 1) w).1 = batch.
Proof.
  assert (workers batch (JS.of_Z 1) <= 1)%nat as Hsize.
  { apply (workers_le_size batch (inject_Z 1) 1); change (inject_Z 1) with 1%Q; lra. }
  destruct (run_pool_reached batch fn net (JS.of_Z 1) w) as [n Hn].
  apply (reached_in_order _ _ _ _ _ Hsize) in Hn as [_ Hord].
  destruct (ping_pool body verbose batch net (JS.of_Z 1) w)
    as (p & w' & E & Hdone & Hperm & _).
  unfold runPool, bind. rewrite E in Hord |- *. unfold ret. cbn [fst] in Hord |- *.
  rewrite Hdone in Hord. cbn [map] in Hord. rewrite app_nil_r in Hord. rewrite taken_all in Hperm by reflexivity.
  apply Permutation_length in Hperm. rewrite Hord in Hperm |- *.
  rewrite length_take in Hperm. apply take_ge. lia.
Qed.
End OneWorker.

(** ** Relative times *)

Lemma div_bounds (a b : Z) : 0 < b -> b * (a / b) <= a < b * (a / b + 1).
Proof.
  intros Hb. pose proof (Z.mul_div_le a b Hb). pose proof (Z.mul_succ_div_gt a b Hb). lia.
Qed.

(** X24: [fmtRelative] rounds down, in the largest unit that applies: the
    number [n] printed with unit [u] means that between [n] and [n + 1]
    units have passed; seconds and minutes are below 60, hours below 24,
    and a unit above the second is printed from 1 on. *)
Theorem fmtRelative_rounds_down (diffMs : Q) :
  exists (n : Z) (u : string) (ms : Z),
    fmtRelative diffMs = pretty n +:+ u
    /\ (u, ms) ∈ relative_units
    /\ (inject_Z (n * ms) <= diffMs)%Q /\ (diffMs < inject_Z ((n + 1) * ms))%Q
    /\ (u = "s" /\ n < 60 \/ u = "m" /\ 1 <= n < 60 \/ u = "h" /\ 1 <= n < 24
        \/ u = "d" /\ 1 <= n).
Proof.
  unfold fmtRelative. set (s := Qfloor (diffMs / 1000)).
  assert (diffMs == diffMs / 1000 * 1000)%Q as Hx by field.
  assert (inject_Z (s * 1000) <= diffMs)%Q as Hlo.
  { pose proof (Qfloor_le (diffMs / 1000)) as H. fold s in H.
    rewrite inject_Z_mult. change (inject_Z 1000) with 1000%Q.
    revert H Hx. generalize (diffMs / 1000)%Q. intros x H Hx. lra. }
  assert (diffMs < inject_Z ((s + 1) * 1000))%Q as Hhi.
  { pose proof (Qlt_floor (diffMs / 1000)) as H. fold s in H.
    rewrite inject_Z_mult, inject_Z_plus. change (inject_Z 1000) with 1000%Q.
    rewrite inject_Z_plus in H. change (inject_Z 1) with 1%Q in *.
    revert H Hx. generalize (diffMs / 1000)%Q. intros x H Hx. lra. }
  clearbody s. clear Hx.
  assert (forall a : Z, a <= s * 1000 -> (inject_Z a <= diffMs)%Q) as Lo.
  { intros a H. rewrite Zle_Qle in H. lra. }
  assert (forall a : Z, (s + 1) * 1000 <= a -> (diffMs < inject_Z a)%Q) as Hi.
  { intros a H. rewrite Zle_Qle in H. lra. }
  pose proof (div_bounds s 60 ltac:(lia)) as Bm.
  pose proof (div_bounds (s / 60) 60 ltac:(lia)) as Bh.
  pose proof (div_bounds (s / 60 / 60) 24 ltac:(lia)) as Bd.
  revert Bm Bh Bd.
  generalize (s / 60 / 60 / 24). generalize (s / 60 / 60). generalize (s / 60).
  intros m h d Bm Bh Bd.
  destruct (Z.ltb_spec s 60) as [Hs | Hs].
  { exists s, "s", 1000. split; [reflexivity |]. split; [repeat constructor |].
    split; [exact Hlo |]. split; [exact Hhi |]. left. split; [reflexivity | exact Hs]. }
  destruct (Z.ltb_spec m 60) as [Hm | Hm].
  { exists m, "m", 60000. split; [reflexivity |].
    split; [apply list_elem_of_In; cbn; tauto |].
    split; [apply Lo; lia |]. split; [apply Hi; lia |].
    right; left. split; [reflexivity | lia]. }
  destruct (Z.ltb_spec h 24) as [Hh | Hh].
  { exists h, "h", 3600000. split; [reflexivity |].
    split; [apply list_elem_of_In; cbn; tauto |].
    split; [apply Lo; lia |]. split; [apply Hi; lia |].
    right; right; left. split; [reflexivity | lia]. }
  exists d, "d", 86400000. split; [reflexivity |].
  split; [apply list_elem_of_In; cbn; tauto |].
  split; [apply Lo; lia |]. split; [apply Hi; lia |].
  right; right; right. split; [reflexivity | lia].
Qed.

(** ** The keys the handlers write *)

Section Keys.
Variable keys : list string.

Local Abbreviation quiet evs := (Forall (fun e => writes_only keys e = true) evs).
Local Abbreviation among key := (existsb (String.eqb key) keys = true).

(** The store [m'] is [m] but for the records under [keys]. *)
Local Abbreviation same_elsewhere m m' :=
  (forall key : string, existsb (String.eqb key) keys = false ->
     (m' : gmap string entry) !! key = (m : gmap string entry) !! key).

Lemma pings_quiet (body : string) (urls : list string) :
  quiet (map (fun u => PingSent u body) urls).
Proof. apply Forall_fmap, Forall_true. reflexivity. Qed.

Lemma detector_calls_quiet (evs : list event) :
  Forall (fun e => is_detector_call e = true) evs -> quiet evs.
Proof.
  intros H. eapply Forall_impl; [exact H |]. intros [] He; try discriminate. reflexivity.
Qed.

Lemma put_elsewhere (m : gmap string entry) (k : string) (x : entry) :
  among k -> same_elsewhere m (<[k := x]> m).
Proof.
  intros Hk key Hkey. apply lookup_insert_ne. intros ->. congruence.
Qed.

Lemma doPing_writes (env : RuntimeEnv) (payload : PingPayload) (opts : PingOpts)
    (net : network) (w : world) :
  among RL_KEY -> among LAST_RESULT_KEY ->
  exists evs,
    trace (doPing env payload opts net w).2 = trace w ++ evs
    /\ quiet evs
    /\ same_elsewhere (kv w) (kv (doPing env payload opts net w).2).
Proof.
  intros Hrl Hlr. destruct (default false (o_dryRun opts)) eqn:Hdry.
  - destruct (doPing_dry env payload opts net w Hdry) as (raw & w' & -> & _ & Hkv & Htr).
    eexists. split; [exact Htr |]. cbn [snd]. rewrite Hkv. split; [| reflexivity].
    apply Forall_app. split; [repeat constructor | apply pings_quiet].
  - destruct (text_truthy (kv_read w RL_KEY)) eqn:Hlock.
    + rewrite (doPing_skipped env payload opts net w Hdry Hlock). cbn [snd trace kv].
      eexists. split; [reflexivity |]. split; [repeat constructor | reflexivity].
    + destruct (doPing_real env payload opts net w Hdry Hlock)
        as (raw & w' & -> & _ & Hkv & Htr).
      eexists. split; [exact Htr |]. cbn [snd]. rewrite Hkv. split.
      * apply Forall_app. split; [repeat constructor; cbn; assumption |].
        apply Forall_app. split; [apply pings_quiet |].
        repeat constructor; cbn; assumption.
      * intros key Hkey. rewrite !put_elsewhere by assumption. reflexivity.
Qed.

Lemma fetch_writes (request : Request) (env : RuntimeEnv) (net : network) (w : world) :
  among RL_KEY -> among LAST_RESULT_KEY -> among LAST_DRY_KEY ->
  exists evs,
    trace (fetch request env net w).2 = trace w ++ evs
    /\ quiet evs
    /\ same_elsewhere (kv w) (kv (fetch request env net w).2).
Proof.
  intros Hrl Hlr Hld.
  assert (authorised_post request env /\ r_body request <> JsonNull
          \/ (exists reply, fetch request env net w = (reply, w))
          \/ (exists reply, fetch request env net w = (reply, (readHealth w).2)))
    as [[Hauth Hbody] | [[reply E] | [reply E]]].
  { unfold fetch, authorised_post.
    destruct (String.eqb (r_method request) "GET" && String.eqb (r_pathname request) "/health").
    { right; right. eexists. reflexivity. }
    destruct (String.eqb_spec (r_method request) "POST") as [Hm | Hm];
      [| right; left; eexists; reflexivity].
    cbn [negb]. destruct (r_authorization request) as [a |];
      [| right; left; eexists; reflexivity].
    cbn [truthy_opt opt_eqb].
    destruct (String.eqb_spec a ("Bearer " +:+ XMLRPC_PING_SECRET env)) as [-> | Hne].
    - change (JS.truthy ("Bearer " +:+ XMLRPC_PING_SECRET env)) with true.
      cbn [negb orb]. destruct (r_body request) as [| body].
      + right; left. eexists. reflexivity.
      + left. split; [split; [exact Hm | reflexivity] | discriminate].
    - rewrite orb_true_r. right; left. eexists. reflexivity. }
  - rewrite (fetch_post request env net w Hauth Hbody).
    destruct (doPing_writes env (r_json request) (fetch_opts request) net w Hrl Hlr)
      as (evs & Htr & Hq & Hkv).
    destruct (doPing env (r_json request) (fetch_opts request) net w) as [res w1].
    cbn [snd trace kv] in *. rewrite Htr, <- app_assoc.
    eexists. split; [reflexivity |]. split.
    + apply Forall_app. split; [exact Hq |]. repeat constructor. cbn.
      destruct (opt_eqb _ "1"); assumption.
    + intros key Hkey. rewrite put_elsewhere; [apply Hkv; exact Hkey | | exact Hkey].
      destruct (opt_eqb _ "1"); assumption.
  - rewrite E. exists []. rewrite app_nil_r. split; [reflexivity |].
    split; [constructor | reflexivity].
  - rewrite E, readHealth_run. cbn [snd trace kv]. eexists. split; [reflexivity |].
    split; [repeat constructor | reflexivity].
Qed.

Lemma scheduled_writes (env : RuntimeEnv) (api : api_reply) (net : network) (w : world) :
  among LAST_KEY -> among RL_KEY -> among LAST_RESULT_KEY ->
  exists evs,
    trace (scheduled env api net w).2 = trace w ++ evs
    /\ quiet evs
    /\ same_elsewhere (kv w) (kv (scheduled env api net w).2).
Proof.
  intros Hls Hrl Hlr.
  destruct (detect_uniform env api) as (r & devs & Hdevs & Hu).
  apply detector_calls_quiet in Hdevs.
  destruct (scheduled env api net w) as [u w'] eqn:E. cbn [snd].
  unfold scheduled in E. unfold bind at 1 in E. rewrite Hu in E.
  assert (forall tail, quiet tail -> quiet (devs ++ tail)) as Hq
    by (intros tail Ht; apply Forall_app; split; assumption).
  destruct r as [| [id |]];
    try (injection E as _ <-; exists devs;
         split; [reflexivity | split; [exact Hdevs | reflexivity]]).
  destruct (JS.truthy id); cbn [negb] in E;
    [| injection E as _ <-; exists devs;
       split; [reflexivity | split; [exact Hdevs | reflexivity]]].
  unfold bind at 1 in E. rewrite kv_get_run in E. destruct (text_is _ id).
  { injection E as _ <-. eexists. cbn [trace kv]. rewrite <- app_assoc.
    split; [reflexivity |]. split; [apply Hq; repeat constructor | reflexivity]. }
  unfold bind at 1 in E. rewrite kv_get_run in E. destruct (text_truthy _).
  { injection E as _ <-. eexists. cbn [trace kv]. rewrite <- !app_assoc.
    split; [reflexivity |]. split; [apply Hq; repeat constructor | reflexivity]. }
  unfold bind at 1 in E.
  match type of E with context [doPing env empty_payload no_opts net ?wa] =>
    destruct (doPing_writes env empty_payload no_opts net wa Hrl Hlr)
      as (evs & Htr & Hevs & Hkv);
    destruct (doPing env empty_payload no_opts net wa) as [res w2]
  end.
  cbn [snd trace kv] in Htr, Hkv.
  unfold bind, Date_now in E. rewrite !kv_put_run in E. cbn [trace kv clock ret] in E.
  injection E as _ <-. cbn [trace kv].
  rewrite Htr, <- !app_assoc. eexists. split; [reflexivity |]. split.
  - apply Hq. cbn [app]. repeat constructor.
    apply Forall_app. split; [exact Hevs |]. repeat constructor; cbn; assumption.
  - intros key Hkey. rewrite !put_elsewhere by assumption. apply Hkv. exact Hkey.
Qed.
End Keys.

(** X25: the handlers write under four keys only: [fetch] under the
    rate-limit, last-result and last-dry keys, [scheduled] under the
    last-seen, rate-limit and last-result keys.  Every other record of the
    store - the endpoint list and the last request among them - is after
    any invocation what it was before. *)
Theorem handlers_write_only_their_keys (env : RuntimeEnv) (net : network) (w : world) :
  (forall request, exists evs,
     trace (fetch request env net w).2 = trace w ++ evs
     /\ Forall (fun e => writes_only [RL_KEY; LAST_RESULT_KEY; LAST_DRY_KEY] e = true) evs
     /\ forall key, key ∉ [RL_KEY; LAST_RESULT_KEY; LAST_DRY_KEY] ->
          kv (fetch request env net w).2 !! key = kv w !! key)
  /\ (forall api, exists evs,
        trace (scheduled env api net w).2 = trace w ++ evs
        /\ Forall (fun e => writes_only [LAST_KEY; RL_KEY; LAST_RESULT_KEY] e = true) evs
        /\ forall key, key ∉ [LAST_KEY; RL_KEY; LAST_RESULT_KEY] ->
             kv (scheduled env api net w).2 !! key = kv w !! key).
Proof.
  assert (forall (keys : list string) (key : string),
            key ∉ keys -> existsb (String.eqb key) keys = false) as Hnot.
  { intros keys key Hk. apply not_true_is_false. intros H.
    apply existsb_exists in H as (k & Hin & E). apply String.eqb_eq in E as <-.
    apply Hk, list_elem_of_In, Hin. }
  split.
  - intros request.
    destruct (fetch_writes [RL_KEY; LAST_RESULT_KEY; LAST_DRY_KEY] request env net w)
      as (evs & Htr & Hq & Hkv); try reflexivity.
    exists evs. split; [exact Htr |]. split; [exact Hq |].
    intros key Hkey. apply Hkv, Hnot, Hkey.
  - intros api.
    destruct (scheduled_writes [LAST_KEY; RL_KEY; LAST_RESULT_KEY] env api net w)
      as (evs & Htr & Hq & Hkv); try reflexivity.
    exists evs. split; [exact Htr |]. split; [exact Hq |].
    intros key Hkey. apply Hkv, Hnot, Hkey.
Qed.

Lemma filter_all {A} (l : list A) : filter (fun _ => true) l = l.
Proof.
  induction l as [| x l IH]; [reflexivity |].
  rewrite filter_cons_True by exact I. rewrite IH. reflexivity.
Qed.

(** X26: the rows a view of the health page shows are counted by the
    figures above them: the view "fail" shows as many rows as there are
    failures, the view "all" every row, and any other view the successes. *)
Theorem health_views_match_the_counts (w : world) (view : string) :
  let d := (readHealthData w).1 in
  length (health_rows view (h_summary d))
  = if String.eqb view "all" then (h_successes d + h_failures d)%nat
    else if String.eqb view "fail" then h_failures d
    else h_successes d.
Proof.
  rewrite readHealthData_run. cbn [fst h_successes h_failures h_summary].
  set (summary := default [] _).
  pose proof (filter_ok_length summary) as Hlen.
  unfold health_rows, shown.
  destruct (String.eqb view "all"); [rewrite filter_all; lia |].
  destruct (String.eqb view "fail"); [lia | reflexivity].
Qed.

(** ** Configuration at its edges *)

(** X27: without the settings its detector needs - [GITHUB_REPO] for the
    GitHub detector, the API token, the account id and the project for the
    Cloudflare one - the scheduled handler makes no API call and does
    nothing at all: the world is left as it was. *)
Theorem unconfigured_detector_does_nothing (env : RuntimeEnv) (api : api_reply)
    (net : network) (w : world) :
  (if String.eqb (or_else (DETECTOR env) "github") "cloudflare"
   then id_of (CLOUDFLARE_API_TOKEN env) = None
        \/ id_of (CLOUDFLARE_ACCOUNT_ID env) = None
        \/ id_of (CLOUDFLARE_PAGES_PROJECT env) = None
   else id_of (GITHUB_REPO env) = None) ->
  scheduled env api net w = (tt, w).
Proof.
  intros H. unfold scheduled, bind, detect.
  destruct (String.eqb _ "cloudflare").
  - unfold latestCloudflareDeploy.
    destruct (id_of (CLOUDFLARE_API_TOKEN env)), (id_of (CLOUDFLARE_ACCOUNT_ID env)),
      (id_of (CLOUDFLARE_PAGES_PROJECT env)); try reflexivity.
    destruct H as [H | [H | H]]; discriminate H.
  - unfold latestGithubCommit. rewrite H. reflexivity.
Qed.

Lemma unconfigured_detector_witness :
  let env := {| XMLRPC_PING_SECRET := "s3cret";
                SITE_NAME := None; SITE_URL := None; FEED_URL := None;
                PING_ENDPOINTS := None;
                DETECTOR := Some "cloudflare"; GITHUB_REPO := Some "owner/site";
                GITHUB_BRANCH := None; GITHUB_TOKEN := None;
                CLOUDFLARE_API_TOKEN := Some "token"; CLOUDFLARE_ACCOUNT_ID := Some "";
                CLOUDFLARE_PAGES_PROJECT := Some "site";
                SUBREQ_BUDGET := None; PING_CONCURRENCY := None |} in
  scheduled env (ApiResponse true (Some (Deployments []))) all_ok w_seen = (tt, w_seen).
Proof.
  apply (unconfigured_detector_does_nothing
           {| XMLRPC_PING_SECRET := "s3cret";
              SITE_NAME := None; SITE_URL := None; FEED_URL := None;
              PING_ENDPOINTS := None;
              DETECTOR := Some "cloudflare"; GITHUB_REPO := Some "owner/site";
              GITHUB_BRANCH := None; GITHUB_TOKEN := None;
              CLOUDFLARE_API_TOKEN := Some "token"; CLOUDFLARE_ACCOUNT_ID := Some "";
              CLOUDFLARE_PAGES_PROJECT := Some "site";
              SUBREQ_BUDGET := None; PING_CONCURRENCY := None |}
           (ApiResponse true (Some (Deployments []))) all_ok w_seen).
  right; left. reflexivity.
Defined.

(** X28: a non-empty endpoint list in the store overrides the endpoints of
    the request body and of the environment: a run that is not skipped
    counts at most its entries and pings none but them. *)
Theorem stored_endpoints_override_the_request (env : RuntimeEnv) (payload : PingPayload)
    (opts : PingOpts) (net : network) (w : world) (stored : list string) :
  kv_read w ENDPOINTS_KEY = Some (VList stored) -> stored <> [] ->
  default false (o_dryRun opts) = true \/ text_truthy (kv_read w RL_KEY) = false ->
  exists r w' evs,
    doPing env payload opts net w = (Done r, w')
    /\ (Totals.total (Report.totals r) <= length stored)%nat
    /\ (JS.gtb (default (JS.of_Z 0) (o_limit opts)) (JS.of_Z 0) = false ->
        Totals.total (Report.totals r) = length stored)
    /\ trace w' = trace w ++ evs
    /\ forall url body, PingSent url body ∈ evs -> url ∈ stored.
Proof.
  intros Hkv Hne Hrun.
  destruct (doPing_done env payload opts net w Hrun) as (raw & w' & pre & post & E & _ & Htr & Hev).
  assert (run_endpoints env payload opts w
          = if JS.gtb (default (JS.of_Z 0) (o_limit opts)) (JS.of_Z 0)
            then JS.slice stored (JS.of_Z 0) (default (JS.of_Z 0) (o_limit opts))
            else stored) as Hend.
  { unfold run_endpoints, endpoints_of. rewrite Hkv.
    destruct stored; [congruence | reflexivity]. }
  eexists _, w', _. split; [exact E |].
  cbn [report_of Report.totals Totals.total]. rewrite Hend.
  split; [| split; [| split; [exact Htr |]]].
  - destruct (JS.gtb _ _); [| lia]. unfold JS.slice. rewrite length_take, length_drop. lia.
  - intros ->. reflexivity.
  - intros url body Hin. apply Forall_app in Hev as [Hpre Hpost].
    rewrite !elem_of_app in Hin. destruct Hin as [Hin | [Hin | Hin]].
    + rewrite Forall_forall in Hpre. specialize (Hpre _ Hin). discriminate.
    + apply list_elem_of_fmap in Hin as (u & [= -> _] & Hu).
      apply taken_subset in Hu. unfold run_batch, plan in Hu. cbn [plan_batch] in Hu.
      apply slice_subset in Hu. rewrite Hend in Hu.
      destruct (JS.gtb _ _); [apply slice_subset in Hu |]; exact Hu.
    + rewrite Forall_forall in Hpost. specialize (Hpost _ Hin). discriminate.
Qed.

Lemma stored_endpoints_witness :
  let w := {| kv := {[ ENDPOINTS_KEY := {| value := VList ["https://rpc.example.org/"];
                                           expires := None |} ]};
              clock := 1700000000000; trace := [] |} in
  let opts := {| o_dryRun := Some true; o_concurrency := None; o_timeoutMs := None;
                 o_limit := None; o_verbose := None; o_only := None; o_cursor := None |} in
  exists r w' evs,
    doPing env0 (payload_with ten_endpoints) opts all_ok w = (Done r, w')
    /\ (Totals.total (Report.totals r) <= length ["https://rpc.example.org/"])%nat
    /\ (JS.gtb (default (JS.of_Z 0) (o_limit opts)) (JS.of_Z 0) = false ->
        Totals.total (Report.totals r) = length ["https://rpc.example.org/"])
    /\ trace w' = trace w ++ evs
    /\ forall url body, PingSent url body ∈ evs -> url ∈ ["https://rpc.example.org/"].
Proof.
  apply (stored_endpoints_override_the_request env0 (payload_with ten_endpoints)
           {| o_dryRun := Some true; o_concurrency := None; o_timeoutMs := None;
              o_limit := None; o_verbose := None; o_only := None; o_cursor := None |}
           all_ok
           {| kv := {[ ENDPOINTS_KEY := {| value := VList ["https://rpc.example.org/"];
                                           expires := None |} ]};
              clock := 1700000000000; trace := [] |}
           ["https://rpc.example.org/"]).
  - reflexivity.
  - discriminate.
  - left. reflexivity.
Defined.

(** ** Dry runs that reach [doPing], and pools with a worker *)



(** X30: a pool asked for at least one worker completes with no request
    left in flight, its rows name the URLs of the slice, each exactly
    once (whatever the order of completion and whether or not the slice
    is longer than the pool), and it sent exactly one request per URL. *)
Theorem pool_gives_one_outcome_per_url (batch : list string) (body : string)
    (verbose : bool) (net : network) (size : JS.num) (w : world) :
  JS.leb (JS.of_Z 1) size = true ->
  exists p w',
    run_pool batch (pingWithTimeout body verbose) net size w = (p, w')
    /\ runPool batch (pingWithTimeout body verbose) net size w = (results p, w')
    /\ inflight p = []
    /\ map PingResult.url (results p) ≡ₚ batch
    /\ trace w' = trace w ++ map (fun u => PingSent u body) batch.
Proof.
  intros Hsize.
  destruct (ping_pool body verbose batch net size w) as (p & w' & E & Hdone & Htags & _ & Htr).
  rewrite (taken_all batch size Hsize) in Htags, Htr.
  exists p, w'. split; [exact E |].
  split; [unfold runPool, bind; rewrite E; reflexivity |]. auto.
Qed.

(** X30 at ten endpoints and a pool of three. *)
Lemma pool_witness :
  JS.leb (JS.of_Z 1) (JS.of_Z 3) = true
  /\ exists p w',
       run_pool ten_endpoints (pingWithTimeout "<x/>" false) three_fail (JS.of_Z 3) w0 = (p, w')
       /\ runPool ten_endpoints (pingWithTimeout "<x/>" false) three_fail (JS.of_Z 3) w0
          = (results p, w')
       /\ inflight p = []
       /\ map PingResult.url (results p) ≡ₚ ten_endpoints
       /\ trace w' = trace w0 ++ map (fun u => PingSent u "<x/>") ten_endpoints.
Proof.
  split; [reflexivity |].
  apply (pool_gives_one_outcome_per_url ten_endpoints "<x/>" false three_fail (JS.of_Z 3) w0).
  reflexivity.
Defined.
